(** * Data-link protocol engine of cc_blender_tools ([link.py])

    A shallow embedding of the wire codec, the connection manager, the
    opcode dispatcher and the parts of the sequence engine that the link
    service threads through them, together with the properties of the
    specification that were checked against them. *)

From Stdlib Require Import List NArith ZArith QArith Qabs Bool Lia.
From Stdlib Require Import Strings.String Strings.Byte.
Import ListNotations.

Set Implicit Arguments.

(** ** Python exceptions that the modelled code can raise *)

Inductive exn : Type :=
| StructError          (* struct.error *)
| UnicodeDecodeError
| UnicodeEncodeError
| AttributeError       (* attribute access on None *)
| TypeError
| KeyError
| ValueError           (* json.JSONDecodeError is a ValueError *)
| UnboundLocalError
| OSError              (* socket.error, socket.timeout, ConnectionResetError *)
| SceneError.          (* anything raised inside a scene-side collaborator *)

(** Outcome of a pure Python expression: a value or a raised exception. *)
Inductive pyresult (A : Type) : Type :=
| Val (a : A)
| Exc (e : exn).
Arguments Exc {A} e.

(** ** Wire codec *)

Module Codec.

Local Open Scope N_scope.

(** Bytes are [Byte.byte]; [byte_of_N] takes the low eight bits. *)
Definition byte_of_N (n : N) : byte :=
  match Byte.of_N (n mod 256) with
  | Some b => b
  | None => x00
  end.

Definition bytes_of (ns : list N) : list byte := map byte_of_N ns.
Definition values_of (bs : list byte) : list N := map Byte.to_N bs.

(** [struct.pack("!I", n)]: four bytes, most significant first;
    [struct.error] when [n] does not fit 32 bits. *)
Definition be32 (n : N) : list byte :=
  [byte_of_N (n / 16777216); byte_of_N (n / 65536); byte_of_N (n / 256); byte_of_N n].

Definition pack_u32 (n : N) : pyresult (list byte) :=
  if n <? 4294967296 then Val (be32 n) else Exc StructError.

Definition u32_of (b3 b2 b1 b0 : byte) : N :=
  Byte.to_N b3 * 16777216 + Byte.to_N b2 * 65536 + Byte.to_N b1 * 256 + Byte.to_N b0.

(** [struct.unpack_from("!I", buffer, offset)[0]] for a non-negative
    offset: [struct.error] unless four bytes are available there. *)
Definition unpack_u32_from (buffer : list byte) (offset : N) : pyresult N :=
  match skipn (N.to_nat offset) buffer with
  | b3 :: b2 :: b1 :: b0 :: _ => Val (u32_of b3 b2 b1 b0)
  | _ => Exc StructError
  end.

(** A Python [str] is a sequence of Unicode code points. *)
Definition pystr := list N.

(** UTF-8 encoding of one code point; [None] for a lone surrogate or a
    value above U+10FFFF ([UnicodeEncodeError]). *)
Definition utf8_encode_cp (c : N) : option (list N) :=
  if c <? 128 then Some [c]
  else if c <? 2048 then Some [192 + c / 64; 128 + c mod 64]
  else if c <? 65536 then
    if (55296 <=? c) && (c <=? 57343) then None
    else Some [224 + c / 4096; 128 + (c / 64) mod 64; 128 + c mod 64]
  else if c <? 1114112 then
    Some [240 + c / 262144; 128 + (c / 4096) mod 64; 128 + (c / 64) mod 64; 128 + c mod 64]
  else None.

Fixpoint utf8_encode (s : pystr) : option (list N) :=
  match s with
  | [] => Some []
  | c :: s' =>
      match utf8_encode_cp c, utf8_encode s' with
      | Some bs, Some rest => Some (bs ++ rest)
      | _, _ => None
      end
  end.

(** [bytes(s, encoding="utf-8")] *)
Definition encode_utf8 (s : pystr) : pyresult (list byte) :=
  match utf8_encode s with
  | Some ns => Val (bytes_of ns)
  | None => Exc UnicodeEncodeError
  end.

Definition is_cont (b : N) : bool := (128 <=? b) && (b <? 192).

(** Strict UTF-8 decoding as [bytes.decode] does it: continuation bytes
    checked, overlong forms, surrogates and values above U+10FFFF
    rejected, a sequence cut short rejected. *)
Fixpoint utf8_decode (bs : list N) : option pystr :=
  match bs with
  | [] => Some []
  | b0 :: r0 =>
      if b0 <? 128 then option_map (cons b0) (utf8_decode r0)
      else if b0 <? 194 then None
      else if b0 <? 224 then
        match r0 with
        | b1 :: r1 =>
            if is_cont b1
            then option_map (cons ((b0 - 192) * 64 + (b1 - 128))) (utf8_decode r1)
            else None
        | _ => None
        end
      else if b0 <? 240 then
        match r0 with
        | b1 :: b2 :: r2 =>
            let c := (b0 - 224) * 4096 + (b1 - 128) * 64 + (b2 - 128) in
            if is_cont b1 && is_cont b2 && (2048 <=? c)
               && negb ((55296 <=? c) && (c <=? 57343))
            then option_map (cons c) (utf8_decode r2)
            else None
        | _ => None
        end
      else if b0 <? 245 then
        match r0 with
        | b1 :: b2 :: b3 :: r3 =>
            let c := (b0 - 240) * 262144 + (b1 - 128) * 4096
                     + (b2 - 128) * 64 + (b3 - 128) in
            if is_cont b1 && is_cont b2 && is_cont b3
               && (65536 <=? c) && (c <? 1114112)
            then option_map (cons c) (utf8_decode r3)
            else None
        | _ => None
        end
      else None
  end.

(** [b.decode(encoding="utf-8")] *)
Definition decode_utf8 (bs : list byte) : pyresult pystr :=
  match utf8_decode (values_of bs) with
  | Some s => Val s
  | None => Exc UnicodeDecodeError
  end.

(** [buffer[lo:lo+n]]: a Python slice never fails, it stops at the end of
    the buffer. *)
Definition slice (buffer : list byte) (lo n : N) : list byte :=
  firstn (N.to_nat n) (skipn (N.to_nat lo) buffer).

(** [pack_string]: the prefix is [len(s)], the number of code points of
    the [str], followed by the UTF-8 bytes of [s]. *)
Definition pack_string (s : pystr) : pyresult (list byte) :=
  match pack_u32 (N.of_nat (List.length s)) with
  | Exc e => Exc e
  | Val prefix =>
      match encode_utf8 s with
      | Exc e => Exc e
      | Val body => Val (prefix ++ body)
      end
  end.

(** [unpack_string(buffer, offset)] returns [(offset, string)]. *)
Definition unpack_string (buffer : list byte) (offset : N) : pyresult (N * pystr) :=
  match unpack_u32_from buffer offset with
  | Exc e => Exc e
  | Val len =>
      let offset1 := offset + 4 in
      let string := slice buffer offset1 len in
      let offset2 := offset1 + len in
      match decode_utf8 string with
      | Exc e => Exc e
      | Val s => Val (offset2, s)
      end
  end.

End Codec.

(** ** State and exceptions threaded through the service *)

(** A command either returns a value in a new state, raises in the state
    reached when the exception left it, or has not finished within the
    steps it was given (only the socket loops can do that). *)
Inductive result (S A : Type) : Type :=
| Ok (a : A) (s : S)
| Raise (e : exn) (s : S)
| Diverge.
Arguments Ok {S A} a s.
Arguments Raise {S A} e s.
Arguments Diverge {S A}.

Definition M (S A : Type) : Type := S -> result S A.

Definition ret {S A} (a : A) : M S A := fun s => Ok a s.
Definition raise {S A} (e : exn) : M S A := fun s => Raise e s.
Definition bind {S A B} (m : M S A) (k : A -> M S B) : M S B :=
  fun s => match m s with
           | Ok a s' => k a s'
           | Raise e s' => Raise e s'
           | Diverge => Diverge
           end.
Definition get {S} : M S S := fun s => Ok s s.
Definition gets {S A} (f : S -> A) : M S A := fun s => Ok (f s) s.
Definition modify {S} (f : S -> S) : M S unit := fun s => Ok tt (f s).

(** [try: body  except Exception as e: handler e] *)
Definition try_except {S A} (body : M S A) (handler : exn -> M S A) : M S A :=
  fun s => match body s with
           | Raise e s' => handler e s'
           | r => r
           end.

(** [if c: body] *)
Definition when {S} (c : bool) (body : M S unit) : M S unit :=
  if c then body else ret tt.

(** [for x in xs: body x] *)
Fixpoint for_each {S A} (xs : list A) (body : A -> M S unit) : M S unit :=
  match xs with
  | [] => ret tt
  | x :: xs' => bind (body x) (fun _ => for_each xs' body)
  end.

Declare Scope monad_scope.
Delimit Scope monad_scope with monad.
Notation "x <- m ;; k" := (bind m (fun x => k))
  (at level 61, m at next level, right associativity) : monad_scope.
Notation "m ;; k" := (bind m (fun _ => k))
  (at level 61, right associativity) : monad_scope.
Local Open Scope monad_scope.

(** ** Protocol constants *)

Definition HANDSHAKE_TIMEOUT_S : Q := 60.
Definition KEEPALIVE_TIMEOUT_S : Q := 300.
Definition PING_INTERVAL_S : Q := 120.
Definition TIMER_INTERVAL : Q := 1 # 30.
Definition MAX_CHUNK_SIZE : N := 32768.
Definition SERVER_ONLY : bool := false.
Definition CLIENT_ONLY : bool := true.
Definition MAX_RECEIVE : nat := 24.
Definition USE_PING : bool := false.
Definition USE_KEEPALIVE : bool := false.

Module OpCodes.
Local Open Scope N_scope.
Definition NONE := 0.
Definition HELLO := 1.
Definition PING := 2.
Definition STOP := 10.
Definition DISCONNECT := 11.
Definition NOTIFY := 50.
Definition MORPH := 90.
Definition MORPH_UPDATE := 91.
Definition CHARACTER := 100.
Definition CHARACTER_UPDATE := 101.
Definition PROP := 102.
Definition PROP_UPDATE := 103.
Definition RIGIFY := 110.
Definition TEMPLATE := 200.
Definition POSE := 210.
Definition POSE_FRAME := 211.
Definition SEQUENCE := 220.
Definition SEQUENCE_FRAME := 221.
Definition SEQUENCE_END := 222.
Definition LIGHTS := 230.
Definition CAMERA_SYNC := 231.
End OpCodes.

(** ** Data model *)

(** A character of the local scene ([chr_cache]) and an actor object of
    the registry are referred to by an identifier; actor objects live in
    a store so that the registry and a sequence session can share them. *)
Definition chr := nat.
Definition actor_ref := nat.

(** [create_fcurves_cache]: [indices] curves of [count*2] numbers. *)
Record fcurves_cache : Type := mkFcurves {
  fc_count : Z;
  fc_indices : nat;
  fc_curves : list (list Q) }.

Record bone_cache : Type := mkBoneCache {
  bc_loc : fcurves_cache;
  bc_sca : fcurves_cache;
  bc_rot : fcurves_cache }.

(** The per-actor sample cache that [prep_rig] builds. *)
Record actor_cache : Type := mkActorCache {
  c_rig : chr;
  c_bones : list (string * bone_cache);
  c_expressions : list (string * fcurves_cache);
  c_visemes : list (string * fcurves_cache);
  c_start : Z;
  c_end : Z }.

Record LinkActor : Type := mkLinkActor {
  name : string;
  chr_cache : option chr;
  link_id : string;
  bones : list string;
  expressions : list string;
  visemes : list string;
  morphs : list string;
  cache : option actor_cache }.

Record LinkData : Type := mkLinkData {
  actors : list actor_ref;
  pose_frame : Z;
  pose_actors : option (list actor_ref);
  sequence_current_frame : Z;
  sequence_start_frame : Z;
  sequence_end_frame : Z;
  sequence_actors : option (list actor_ref) }.

Inductive signal : Type :=
| Listening | Connecting | Connected | LostConnection | ServerStopped
| ClientStopped | Received (op_code : N) (data : option (list byte))
| Accepted | Sent | Changed.

(** What the service does to its surroundings: log lines, emitted
    signals, and calls into the scene. *)
Inductive scene_call : Type :=
| UpdateLinkStatus (text : string)
| PrepRig (c : chr)
| SetFrameRange (start_frame end_frame : Z)
| SetFrame (frame : Z)
| RemoveDatalinkImportRig (a : actor_ref)
| WriteSequenceActions (a : actor_ref) (samples : actor_cache)
| FrameCurrent (frame : Z)
| EnsureCurrentFrame (frame : Z)
| AnimationPlay
| Delegated (op_code : N) (data : option (list byte)).

Inductive event : Type :=
| LogInfo (text : string)
| LogError (text : string)
| Print (text : string)
| Emit (sg : signal)
| Scene (c : scene_call).

(** Callbacks that [start_sequence] connects to the [sequence] signal. *)
Inductive callback : Type := SendSequenceFrame.

(** The part of the state that the business handlers work on. *)
Record App : Type := mkApp {
  link_data : LinkData;
  store : list LinkActor;
  is_sequence : bool;
  sequence_callbacks : list callback;
  trace : list event }.

(** Condition of the peer connection, as the operating system sees it. *)
Inductive condition : Type :=
| Alive          (* established *)
| PeerClosed     (* the peer has closed its side: end of stream *)
| Reset          (* connection reset: reads and writes fail *)
| Invalid.       (* descriptor unusable: select fails too *)

Inductive socket : Type := PeerSocket.
Inductive listener : Type := ServerSocket.

Record Service : Type := mkService {
  timer : bool;   (* None and False are both falsy, only truth is used *)
  server_sock : option listener;
  client_sock : option socket;
  server_sockets : list listener;
  client_sockets : list socket;
  client_ip : string;
  client_port : N;
  is_listening : bool;
  is_connected : bool;
  is_connecting : bool;
  ping_timer : Q;
  keepalive_timer : Q;
  time : Q;
  remote_app : option string;
  remote_version : option string;
  remote_path : option string;
  remote_exe : option string;
  globals_lost : bool;     (* LINK_SERVICE or LINK_DATA is falsy *)
  sent_bytes : list byte;  (* everything written to the peer socket *)
  peer_condition : condition;
  port_free : bool;        (* whether binding the server port succeeds *)
  app : App }.

(** The service together with what only the receiving side of the tick
    works on: the bytes the peer has sent and that have not been read
    yet, the connections waiting on the listener, and the [is_data] flag
    of the service, which [recv] writes and [loop] reads. *)
Record World : Type := mkWorld {
  service : Service;
  rx : list byte;
  backlog : list (string * N * list byte * condition);
  is_data : bool }.

(** Field updates: [set_f v r] is [r] with field [f] replaced by [v]. *)
Definition set_name v (r : LinkActor) : LinkActor :=
  mkLinkActor v (chr_cache r) (link_id r) (bones r) (expressions r) (visemes r) (morphs r) (cache r).
Definition set_chr_cache v (r : LinkActor) : LinkActor :=
  mkLinkActor (name r) v (link_id r) (bones r) (expressions r) (visemes r) (morphs r) (cache r).
Definition set_link_id v (r : LinkActor) : LinkActor :=
  mkLinkActor (name r) (chr_cache r) v (bones r) (expressions r) (visemes r) (morphs r) (cache r).
Definition set_bones v (r : LinkActor) : LinkActor :=
  mkLinkActor (name r) (chr_cache r) (link_id r) v (expressions r) (visemes r) (morphs r) (cache r).
Definition set_expressions v (r : LinkActor) : LinkActor :=
  mkLinkActor (name r) (chr_cache r) (link_id r) (bones r) v (visemes r) (morphs r) (cache r).
Definition set_visemes v (r : LinkActor) : LinkActor :=
  mkLinkActor (name r) (chr_cache r) (link_id r) (bones r) (expressions r) v (morphs r) (cache r).
Definition set_morphs v (r : LinkActor) : LinkActor :=
  mkLinkActor (name r) (chr_cache r) (link_id r) (bones r) (expressions r) (visemes r) v (cache r).
Definition set_cache v (r : LinkActor) : LinkActor :=
  mkLinkActor (name r) (chr_cache r) (link_id r) (bones r) (expressions r) (visemes r) (morphs r) v.
Definition set_actors v (r : LinkData) : LinkData :=
  mkLinkData v (pose_frame r) (pose_actors r) (sequence_current_frame r) (sequence_start_frame r) (sequence_end_frame r) (sequence_actors r).
Definition set_pose_frame v (r : LinkData) : LinkData :=
  mkLinkData (actors r) v (pose_actors r) (sequence_current_frame r) (sequence_start_frame r) (sequence_end_frame r) (sequence_actors r).
Definition set_pose_actors v (r : LinkData) : LinkData :=
  mkLinkData (actors r) (pose_frame r) v (sequence_current_frame r) (sequence_start_frame r) (sequence_end_frame r) (sequence_actors r).
Definition set_sequence_current_frame v (r : LinkData) : LinkData :=
  mkLinkData (actors r) (pose_frame r) (pose_actors r) v (sequence_start_frame r) (sequence_end_frame r) (sequence_actors r).
Definition set_sequence_start_frame v (r : LinkData) : LinkData :=
  mkLinkData (actors r) (pose_frame r) (pose_actors r) (sequence_current_frame r) v (sequence_end_frame r) (sequence_actors r).
Definition set_sequence_end_frame v (r : LinkData) : LinkData :=
  mkLinkData (actors r) (pose_frame r) (pose_actors r) (sequence_current_frame r) (sequence_start_frame r) v (sequence_actors r).
Definition set_sequence_actors v (r : LinkData) : LinkData :=
  mkLinkData (actors r) (pose_frame r) (pose_actors r) (sequence_current_frame r) (sequence_start_frame r) (sequence_end_frame r) v.
Definition set_link_data v (r : App) : App :=
  mkApp v (store r) (is_sequence r) (sequence_callbacks r) (trace r).
Definition set_store v (r : App) : App :=
  mkApp (link_data r) v (is_sequence r) (sequence_callbacks r) (trace r).
Definition set_is_sequence v (r : App) : App :=
  mkApp (link_data r) (store r) v (sequence_callbacks r) (trace r).
Definition set_sequence_callbacks v (r : App) : App :=
  mkApp (link_data r) (store r) (is_sequence r) v (trace r).
Definition set_trace v (r : App) : App :=
  mkApp (link_data r) (store r) (is_sequence r) (sequence_callbacks r) v.
Definition set_timer v (r : Service) : Service :=
  mkService v (server_sock r) (client_sock r) (server_sockets r) (client_sockets r) (client_ip r) (client_port r) (is_listening r) (is_connected r) (is_connecting r) (ping_timer r) (keepalive_timer r) (time r) (remote_app r) (remote_version r) (remote_path r) (remote_exe r) (globals_lost r) (sent_bytes r) (peer_condition r) (port_free r) (app r).
Definition set_server_sock v (r : Service) : Service :=
  mkService (timer r) v (client_sock r) (server_sockets r) (client_sockets r) (client_ip r) (client_port r) (is_listening r) (is_connected r) (is_connecting r) (ping_timer r) (keepalive_timer r) (time r) (remote_app r) (remote_version r) (remote_path r) (remote_exe r) (globals_lost r) (sent_bytes r) (peer_condition r) (port_free r) (app r).
Definition set_client_sock v (r : Service) : Service :=
  mkService (timer r) (server_sock r) v (server_sockets r) (client_sockets r) (client_ip r) (client_port r) (is_listening r) (is_connected r) (is_connecting r) (ping_timer r) (keepalive_timer r) (time r) (remote_app r) (remote_version r) (remote_path r) (remote_exe r) (globals_lost r) (sent_bytes r) (peer_condition r) (port_free r) (app r).
Definition set_server_sockets v (r : Service) : Service :=
  mkService (timer r) (server_sock r) (client_sock r) v (client_sockets r) (client_ip r) (client_port r) (is_listening r) (is_connected r) (is_connecting r) (ping_timer r) (keepalive_timer r) (time r) (remote_app r) (remote_version r) (remote_path r) (remote_exe r) (globals_lost r) (sent_bytes r) (peer_condition r) (port_free r) (app r).
Definition set_client_sockets v (r : Service) : Service :=
  mkService (timer r) (server_sock r) (client_sock r) (server_sockets r) v (client_ip r) (client_port r) (is_listening r) (is_connected r) (is_connecting r) (ping_timer r) (keepalive_timer r) (time r) (remote_app r) (remote_version r) (remote_path r) (remote_exe r) (globals_lost r) (sent_bytes r) (peer_condition r) (port_free r) (app r).
Definition set_client_ip v (r : Service) : Service :=
  mkService (timer r) (server_sock r) (client_sock r) (server_sockets r) (client_sockets r) v (client_port r) (is_listening r) (is_connected r) (is_connecting r) (ping_timer r) (keepalive_timer r) (time r) (remote_app r) (remote_version r) (remote_path r) (remote_exe r) (globals_lost r) (sent_bytes r) (peer_condition r) (port_free r) (app r).
Definition set_client_port v (r : Service) : Service :=
  mkService (timer r) (server_sock r) (client_sock r) (server_sockets r) (client_sockets r) (client_ip r) v (is_listening r) (is_connected r) (is_connecting r) (ping_timer r) (keepalive_timer r) (time r) (remote_app r) (remote_version r) (remote_path r) (remote_exe r) (globals_lost r) (sent_bytes r) (peer_condition r) (port_free r) (app r).
Definition set_is_listening v (r : Service) : Service :=
  mkService (timer r) (server_sock r) (client_sock r) (server_sockets r) (client_sockets r) (client_ip r) (client_port r) v (is_connected r) (is_connecting r) (ping_timer r) (keepalive_timer r) (time r) (remote_app r) (remote_version r) (remote_path r) (remote_exe r) (globals_lost r) (sent_bytes r) (peer_condition r) (port_free r) (app r).
Definition set_is_connected v (r : Service) : Service :=
  mkService (timer r) (server_sock r) (client_sock r) (server_sockets r) (client_sockets r) (client_ip r) (client_port r) (is_listening r) v (is_connecting r) (ping_timer r) (keepalive_timer r) (time r) (remote_app r) (remote_version r) (remote_path r) (remote_exe r) (globals_lost r) (sent_bytes r) (peer_condition r) (port_free r) (app r).
Definition set_is_connecting v (r : Service) : Service :=
  mkService (timer r) (server_sock r) (client_sock r) (server_sockets r) (client_sockets r) (client_ip r) (client_port r) (is_listening r) (is_connected r) v (ping_timer r) (keepalive_timer r) (time r) (remote_app r) (remote_version r) (remote_path r) (remote_exe r) (globals_lost r) (sent_bytes r) (peer_condition r) (port_free r) (app r).
Definition set_ping_timer v (r : Service) : Service :=
  mkService (timer r) (server_sock r) (client_sock r) (server_sockets r) (client_sockets r) (client_ip r) (client_port r) (is_listening r) (is_connected r) (is_connecting r) v (keepalive_timer r) (time r) (remote_app r) (remote_version r) (remote_path r) (remote_exe r) (globals_lost r) (sent_bytes r) (peer_condition r) (port_free r) (app r).
Definition set_keepalive_timer v (r : Service) : Service :=
  mkService (timer r) (server_sock r) (client_sock r) (server_sockets r) (client_sockets r) (client_ip r) (client_port r) (is_listening r) (is_connected r) (is_connecting r) (ping_timer r) v (time r) (remote_app r) (remote_version r) (remote_path r) (remote_exe r) (globals_lost r) (sent_bytes r) (peer_condition r) (port_free r) (app r).
Definition set_time v (r : Service) : Service :=
  mkService (timer r) (server_sock r) (client_sock r) (server_sockets r) (client_sockets r) (client_ip r) (client_port r) (is_listening r) (is_connected r) (is_connecting r) (ping_timer r) (keepalive_timer r) v (remote_app r) (remote_version r) (remote_path r) (remote_exe r) (globals_lost r) (sent_bytes r) (peer_condition r) (port_free r) (app r).
Definition set_remote_app v (r : Service) : Service :=
  mkService (timer r) (server_sock r) (client_sock r) (server_sockets r) (client_sockets r) (client_ip r) (client_port r) (is_listening r) (is_connected r) (is_connecting r) (ping_timer r) (keepalive_timer r) (time r) v (remote_version r) (remote_path r) (remote_exe r) (globals_lost r) (sent_bytes r) (peer_condition r) (port_free r) (app r).
Definition set_remote_version v (r : Service) : Service :=
  mkService (timer r) (server_sock r) (client_sock r) (server_sockets r) (client_sockets r) (client_ip r) (client_port r) (is_listening r) (is_connected r) (is_connecting r) (ping_timer r) (keepalive_timer r) (time r) (remote_app r) v (remote_path r) (remote_exe r) (globals_lost r) (sent_bytes r) (peer_condition r) (port_free r) (app r).
Definition set_remote_path v (r : Service) : Service :=
  mkService (timer r) (server_sock r) (client_sock r) (server_sockets r) (client_sockets r) (client_ip r) (client_port r) (is_listening r) (is_connected r) (is_connecting r) (ping_timer r) (keepalive_timer r) (time r) (remote_app r) (remote_version r) v (remote_exe r) (globals_lost r) (sent_bytes r) (peer_condition r) (port_free r) (app r).
Definition set_remote_exe v (r : Service) : Service :=
  mkService (timer r) (server_sock r) (client_sock r) (server_sockets r) (client_sockets r) (client_ip r) (client_port r) (is_listening r) (is_connected r) (is_connecting r) (ping_timer r) (keepalive_timer r) (time r) (remote_app r) (remote_version r) (remote_path r) v (globals_lost r) (sent_bytes r) (peer_condition r) (port_free r) (app r).
Definition set_globals_lost v (r : Service) : Service :=
  mkService (timer r) (server_sock r) (client_sock r) (server_sockets r) (client_sockets r) (client_ip r) (client_port r) (is_listening r) (is_connected r) (is_connecting r) (ping_timer r) (keepalive_timer r) (time r) (remote_app r) (remote_version r) (remote_path r) (remote_exe r) v (sent_bytes r) (peer_condition r) (port_free r) (app r).
Definition set_sent_bytes v (r : Service) : Service :=
  mkService (timer r) (server_sock r) (client_sock r) (server_sockets r) (client_sockets r) (client_ip r) (client_port r) (is_listening r) (is_connected r) (is_connecting r) (ping_timer r) (keepalive_timer r) (time r) (remote_app r) (remote_version r) (remote_path r) (remote_exe r) (globals_lost r) v (peer_condition r) (port_free r) (app r).
Definition set_peer_condition v (r : Service) : Service :=
  mkService (timer r) (server_sock r) (client_sock r) (server_sockets r) (client_sockets r) (client_ip r) (client_port r) (is_listening r) (is_connected r) (is_connecting r) (ping_timer r) (keepalive_timer r) (time r) (remote_app r) (remote_version r) (remote_path r) (remote_exe r) (globals_lost r) (sent_bytes r) v (port_free r) (app r).
Definition set_port_free v (r : Service) : Service :=
  mkService (timer r) (server_sock r) (client_sock r) (server_sockets r) (client_sockets r) (client_ip r) (client_port r) (is_listening r) (is_connected r) (is_connecting r) (ping_timer r) (keepalive_timer r) (time r) (remote_app r) (remote_version r) (remote_path r) (remote_exe r) (globals_lost r) (sent_bytes r) (peer_condition r) v (app r).
Definition set_app v (r : Service) : Service :=
  mkService (timer r) (server_sock r) (client_sock r) (server_sockets r) (client_sockets r) (client_ip r) (client_port r) (is_listening r) (is_connected r) (is_connecting r) (ping_timer r) (keepalive_timer r) (time r) (remote_app r) (remote_version r) (remote_path r) (remote_exe r) (globals_lost r) (sent_bytes r) (peer_condition r) (port_free r) v.
Definition set_service v (r : World) : World :=
  mkWorld v (rx r) (backlog r) (is_data r).
Definition set_rx v (r : World) : World :=
  mkWorld (service r) v (backlog r) (is_data r).
Definition set_backlog v (r : World) : World :=
  mkWorld (service r) (rx r) v (is_data r).
Definition set_is_data v (r : World) : World :=
  mkWorld (service r) (rx r) (backlog r) v.

(** ** What the core takes from its surroundings

    JSON documents are decoded by the [json] library and the scene is
    Blender's; both are outside the core.  A payload decoder yields the
    fields the handler reads, or the exception that [decode_to_json] or
    the field access raises.  The scene is read as a function of what has
    been done to it so far (the trace).  The HELLO document is the one
    whose fields are stored one by one as they are read, so its decoder
    yields the outcome of each field access separately.  Writing the
    curves of a cache into the actions of the scene can raise in many
    places (a bone or a key that is gone, a curve that exists already);
    [write_fcurves] is the outcome of that part of
    [write_sequence_actions]. *)
Record Adapter : Type := mkAdapter {
  decode_hello : list byte -> pyresult (pyresult string * pyresult string
                                        * pyresult string * pyresult string);
  decode_notify : list byte -> pyresult string;
  decode_sequence : list byte -> pyresult (Z * Z * list (string * string));
  decode_sequence_end : list byte -> pyresult (list (string * string));
  get_link_character_cache : list event -> string -> option chr;
  character_name : list event -> chr -> string;
  character_link_id : list event -> chr -> string;
  selected_pose_bones : list event -> chr -> option (list string);
  chr_rigified : list event -> chr -> bool;
  rig_object_mode : list event -> chr -> bool;    (* [utils.object_mode_to(rig)] *)
  write_fcurves : list event -> actor_ref -> actor_cache -> pyresult unit;
  scene_frame_end : list event -> Z;
  encode_hello : list event -> list byte;
  encode_pose_data : list event -> option (list actor_ref) -> pyresult (list byte);
  delegate : N -> option (list byte) -> M App unit }.

Section Link.

Variable adapter : Adapter.

(** *** Logging, signals, scene calls *)

(** The trace has the newest event first. *)
Definition record (e : event) (a : App) : App := set_trace (e :: trace a) a.

Definition app_do (e : event) : M App unit := modify (record e).

Definition lift_app {A} (m : M App A) : M Service A :=
  fun s => match m (app s) with
           | Ok a x => Ok a (set_app x s)
           | Raise e x => Raise e (set_app x s)
           | Diverge => Diverge
           end.

Definition log_info (text : string) : M Service unit := lift_app (app_do (LogInfo text)).
Definition log_error (text : string) : M Service unit := lift_app (app_do (LogError text)).

(** [signal.emit()]: the emission is recorded.  The callbacks connected
    to a signal belong to the user interface and are not run here; this
    file connects one, [link_state_update] to [changed], which copies
    the three state flags into the scene properties and redraws. *)
Definition emit (sg : signal) : M Service unit := lift_app (app_do (Emit sg)).

(** [update_link_status(text)] *)
Definition update_link_status (text : string) : M App unit :=
  app_do (Scene (UpdateLinkStatus text)).

(** Lift a pure Python expression. *)
Definition eval {S A} (r : pyresult A) : M S A :=
  match r with
  | Val a => ret a
  | Exc e => raise e
  end.

(** *** Actor registry ([LinkData]) *)

Definition with_link_data (f : LinkData -> LinkData) : M App unit :=
  modify (fun a => set_link_data (f (link_data a)) a).

(** [LinkData.reset] *)
Definition reset : M App unit :=
  with_link_data (fun d => set_pose_actors None (set_sequence_actors None (set_actors [] d))).

Definition deref (a : App) (r : actor_ref) : option LinkActor := nth_error (store a) r.

Fixpoint find_by (p : LinkActor -> bool) (a : App) (rs : list actor_ref) : option actor_ref :=
  match rs with
  | [] => None
  | r :: rs' =>
      match deref a r with
      | Some x => if p x then Some r else find_by p a rs'
      | None => find_by p a rs'
      end
  end.

Definition same_chr (c : chr) (x : LinkActor) : bool :=
  match chr_cache x with
  | Some c' => Nat.eqb c' c
  | None => false
  end.

(** [LinkData.add_actor(chr_cache)] *)
Definition add_actor (c : chr) : M App actor_ref :=
  a <- get ;;
  match find_by (same_chr c) a (actors (link_data a)) with
  | Some r => ret r
  | None =>
      let actor := mkLinkActor (character_name adapter (trace a) c) (Some c)
                               (character_link_id adapter (trace a) c)
                               [] [] [] [] None in
      let r := List.length (store a) in
      modify (set_store (store a ++ [actor])) ;;
      with_link_data (fun d => set_actors (actors d ++ [r]) d) ;;
      ret r
  end.

(** [LinkData.get_actor(link_id)] *)
Definition get_actor (id : string) : M App (option actor_ref) :=
  a <- get ;;
  match find_by (fun x => String.eqb (link_id x) id) a (actors (link_data a)) with
  | Some r => ret (Some r)
  | None =>
      match get_link_character_cache adapter (trace a) id with
      | Some c => r <- add_actor c ;; ret (Some r)
      | None => ret None
      end
  end.

Definition update_actor (r : actor_ref) (f : LinkActor -> LinkActor) : M App unit :=
  modify (fun a =>
            match deref a r with
            | Some x => set_store (firstn r (store a) ++ f x :: skipn (S r) (store a)) a
            | None => a
            end).

(** *** Sample caches *)

(** [create_fcurves_cache(count, indices, defaults)]: one curve per
    default, each [[d]*(count*2)]. *)
Definition create_fcurves_cache (count : Z) (indices : nat) (defaults : list Q)
  : fcurves_cache :=
  mkFcurves count indices
            (map (fun d => repeat d (Z.to_nat (count * 2))) (firstn indices defaults)).

(** [d[key] = value] on a dict kept in insertion order. *)
Fixpoint dict_set {V} (d : list (string * V)) (key : string) (value : V)
  : list (string * V) :=
  match d with
  | [] => [(key, value)]
  | (k, v) :: d' =>
      if String.eqb k key then (k, value) :: d' else (k, v) :: dict_set d' key value
  end.

Definition bone_entry (count : Z) : bone_cache :=
  mkBoneCache (create_fcurves_cache count 3 [0; 0; 0])
              (create_fcurves_cache count 3 [1; 1; 1])
              (create_fcurves_cache count 4 [1; 0; 0; 0]).

Definition weight_caches (count : Z) (names : list string) : list (string * fcurves_cache) :=
  fold_left (fun d n => dict_set d n (create_fcurves_cache count 1 [0])) names [].

(** [prep_rig(actor, start_frame, end_frame)]: when the actor has a
    character with an armature, the actions of the rig and of its mesh
    objects are prepared in the scene, the bones to bake are selected,
    and the actor gets a cache of [end - start + 1] default samples per
    channel.  The branch for a rigified character whose rig enters object
    mode calls [bones.make_bones_visible]; the function assigns
    [bones = []] further down, so [bones] is a local of the function and
    is not bound yet at that call. *)
Definition prep_rig (r : actor_ref) (start_frame end_frame : Z) : M App unit :=
  a <- get ;;
  match deref a r with
  | Some x =>
      match chr_cache x with
      | Some c =>
          match selected_pose_bones adapter (trace a) c with
          | Some _ =>
              app_do (Scene (PrepRig c)) ;;
              a' <- get ;;
              if chr_rigified adapter (trace a') c && rig_object_mode adapter (trace a') c
              then raise UnboundLocalError
              else
                let count := (end_frame - start_frame + 1)%Z in
                let selected := match selected_pose_bones adapter (trace a') c with
                                | Some bs => bs
                                | None => []
                                end in
                let bone_caches :=
                  fold_left (fun d n => dict_set d n (bone_entry count)) selected [] in
                update_actor r (set_cache (Some
                  (mkActorCache c bone_caches
                                (weight_caches count (expressions x))
                                (weight_caches count (visemes x))
                                start_frame end_frame)))
          | None => ret tt
          end
      | None => ret tt
      end
  | None => ret tt
  end.

(** [remove_datalink_import_rig(actor)] *)
Definition remove_datalink_import_rig (r : actor_ref) : M App unit :=
  app_do (Scene (RemoveDatalinkImportRig r)).

(** [write_sequence_actions(actor)]: when the actor has a cache, its
    samples are written into the actions of the rig and of the mesh
    objects, and then the cache is cleared.  The clearing is the last
    statement and not in a [finally]: an exception of the writing leaves
    the function before it. *)
Definition write_sequence_actions (r : actor_ref) : M App unit :=
  a <- get ;;
  match deref a r with
  | Some x =>
      match cache x with
      | Some samples =>
          app_do (Scene (WriteSequenceActions r samples)) ;;
          a' <- get ;;
          eval (write_fcurves adapter (trace a') r samples) ;;
          update_actor r (set_cache None)
      | None => ret tt
      end
  | None => ret tt
  end.

(** [LinkService.start_sequence(func=None)] *)
Definition start_sequence (func : option callback) : M App unit :=
  modify (set_is_sequence true) ;;
  match func with
  | Some f => modify (fun a => set_sequence_callbacks (sequence_callbacks a ++ [f]) a)
  | None => modify (set_sequence_callbacks [])
  end.

(** [LinkService.stop_sequence()] *)
Definition stop_sequence : M App unit :=
  modify (set_is_sequence false) ;;
  modify (set_sequence_callbacks []).

(** *** Business handlers *)

Definition payload (data : option (list byte)) : M App (list byte) :=
  match data with
  | Some b => ret b
  | None => raise AttributeError   (* None has no attribute decode *)
  end.

(** [receive_notify(data)] *)
Definition receive_notify (data : option (list byte)) : M App unit :=
  b <- payload data ;;
  message <- eval (decode_notify adapter b) ;;
  update_link_status message.

Definition collect_actors (prep : actor_ref -> M App unit) (ids : list (string * string))
  : M App (list actor_ref) :=
  fold_left (fun acc nl =>
               found <- acc ;;
               actor <- get_actor (snd nl) ;;
               match actor with
               | Some r => prep r ;; ret (found ++ [r])
               | None => ret found
               end) ids (ret []).

(** [receive_sequence(data)] *)
Definition receive_sequence (data : option (list byte)) : M App unit :=
  update_link_status "Receiving Live Sequence..." ;;
  b <- payload data ;;
  json_data <- eval (decode_sequence adapter b) ;;
  let '(start_frame, end_frame, actors_data) := json_data in
  with_link_data (set_sequence_start_frame start_frame) ;;
  with_link_data (set_sequence_end_frame end_frame) ;;
  found <- collect_actors (fun r => prep_rig r start_frame end_frame) actors_data ;;
  with_link_data (set_sequence_actors (Some found)) ;;
  app_do (Scene (SetFrameRange start_frame end_frame)) ;;
  app_do (Scene (SetFrame start_frame)) ;;
  start_sequence None.

(** [receive_sequence_end(data)] *)
Definition receive_sequence_end (data : option (list byte)) : M App unit :=
  app_do (LogInfo "SEQUENCE END") ;;
  b <- payload data ;;
  actors_data <- eval (decode_sequence_end adapter b) ;;
  _ <- collect_actors (fun _ => ret tt) actors_data ;;
  a <- get ;;
  match sequence_actors (link_data a) with
  | None => raise TypeError       (* a None is not iterable *)
  | Some session =>
      for_each session (fun r => remove_datalink_import_rig r ;; write_sequence_actions r) ;;
      stop_sequence ;;
      with_link_data (set_sequence_actors None) ;;
      update_link_status "Live Sequence Complete" ;;
      app_do (Scene (FrameCurrent (sequence_start_frame (link_data a)))) ;;
      app_do (Scene AnimationPlay)
  end.

(** *** Connection manager: sockets *)

(** [sock.sendall(data)] on the peer connection. *)
Definition sock_sendall (data : list byte) : M Service unit :=
  s <- get ;;
  match peer_condition s with
  | Alive | PeerClosed => modify (set_sent_bytes (sent_bytes s ++ data))
  | Reset | Invalid => raise OSError
  end.

(** [sock.shutdown()]: the call passes no argument, and [shutdown] takes
    exactly one. *)
Definition sock_shutdown : M Service unit := raise TypeError.

(** [sock.close()] *)
Definition sock_close : M Service unit := modify (set_peer_condition Invalid).

Definition truthy {A} (o : option A) : bool :=
  match o with Some _ => true | None => false end.

(** [LinkService.has_client_sock] *)
Definition has_client_sock (s : Service) : bool :=
  if truthy (client_sock s) && (is_connected s || is_connecting s) then true else false.

(** [LinkService.stop_timer] *)
Definition stop_timer : M Service unit :=
  s <- get ;;
  when (timer s)
       (modify (set_timer false) ;;
        log_info "Service timer stopped").

(** [LinkService.stop_client] *)
Definition stop_client : M Service unit :=
  s <- get ;;
  when (truthy (client_sock s))
       (log_info "Closing Client Socket" ;;
        try_except (sock_shutdown ;; sock_close) (fun _ => ret tt)) ;;
  modify (set_is_connected false) ;;
  modify (set_is_connecting false) ;;
  modify (set_client_sock None) ;;
  modify (set_client_sockets []) ;;
  (* [if self.listening:] tests the signal object, which is always true *)
  modify (set_keepalive_timer HANDSHAKE_TIMEOUT_S) ;;
  emit ClientStopped ;;
  emit Changed.

(** [LinkService.stop_server] *)
Definition stop_server : M Service unit :=
  s <- get ;;
  when (truthy (server_sock s))
       (log_info "Closing Server Socket" ;;
        try_except (sock_shutdown ;; ret tt) (fun _ => ret tt)) ;;
  modify (set_is_listening false) ;;
  modify (set_server_sock None) ;;
  modify (set_server_sockets []) ;;
  emit ServerStopped ;;
  emit Changed.

(** [LinkService.service_lost] *)
Definition service_lost : M Service unit :=
  emit LostConnection ;;
  stop_timer ;;
  stop_client ;;
  stop_server.

(** [struct.pack("!II", op_code, data_length)] *)
Definition pack_header (op_code data_length : N) : pyresult (list byte) :=
  match Codec.pack_u32 op_code, Codec.pack_u32 data_length with
  | Val a, Val b => Val (a ++ b)
  | _, _ => Exc StructError
  end.

Definition nonempty {A} (o : option (list A)) : bool :=
  match o with
  | Some (_ :: _) => true
  | _ => false
  end.

(** [LinkService.send(op_code, binary_data=None)] *)
Definition send (op_code : N) (binary_data : option (list byte)) : M Service unit :=
  s <- get ;;
  when (truthy (client_sock s) && (is_connected s || is_connecting s))
       (try_except
          (let body := match binary_data with Some b => b | None => [] end in
           let data_length := if nonempty binary_data
                              then N.of_nat (List.length body) else 0%N in
           header <- eval (pack_header op_code data_length) ;;
           let data := header ++ (if nonempty binary_data then body else []) in
           sock_sendall data ;;
           modify (set_ping_timer PING_INTERVAL_S) ;;
           emit Sent)
          (fun _ =>
             log_error "Client socket send failed!" ;;
             service_lost)).

(** [LinkService.start_server] *)
Definition start_server : M Service unit :=
  s <- get ;;
  when (negb (truthy (server_sock s)))
       (try_except
          (modify (set_keepalive_timer HANDSHAKE_TIMEOUT_S) ;;
           modify (set_server_sock (Some ServerSocket)) ;;
           (* bind and listen *)
           s' <- get ;;
           (if port_free s' then ret tt else raise OSError) ;;
           modify (set_server_sockets [ServerSocket]) ;;
           modify (set_is_listening true) ;;
           log_info "Listening on TCP *:9334" ;;
           emit Listening ;;
           emit Changed)
          (fun _ =>
             modify (set_server_sock None) ;;
             modify (set_server_sockets []) ;;
             modify (set_is_listening true) ;;
             log_error "Unable to start server on TCP *:9334")).

(** The JSON text [json.dumps] gives for a one-entry document whose
    message is plain ASCII without quotes, backslashes or control
    characters. *)
Definition json_message (message : string) : list byte :=
  let q := String (Ascii.ascii_of_nat 34) EmptyString in
  list_byte_of_string ("{" ++ q ++ "message" ++ q ++ ": " ++ q ++ message ++ q ++ "}")%string.

(** [LinkService.send_notify(message)] *)
Definition send_notify (message : string) : M Service unit :=
  send OpCodes.NOTIFY (Some (json_message message)).

(** [LinkService.on_connected] *)
Definition on_connected : M Service unit := send_notify "Connected".

(** [LinkService.service_initialize] *)
Definition service_initialize : M Service unit :=
  s <- get ;;
  when (is_connecting s)
       (modify (set_is_connecting false) ;;
        modify (set_is_connected true) ;;
        on_connected ;;
        emit Connected ;;
        emit Changed).

(** [LinkService.service_disconnect] *)
Definition service_disconnect : M Service unit :=
  send OpCodes.DISCONNECT None ;;
  when CLIENT_ONLY stop_timer ;;
  stop_client.

(** [LinkService.service_stop] *)
Definition service_stop : M Service unit :=
  send OpCodes.STOP None ;;
  stop_timer ;;
  stop_client ;;
  stop_server.

(** [LinkService.check_service] *)
Definition check_service : M Service bool :=
  s <- get ;;
  when (globals_lost s)
       (log_error "Datalink service data lost. Due to script reload?" ;;
        log_error "Connection is maintained but actor data has been reset." ;;
        modify (set_globals_lost false) ;;
        lift_app reset) ;;
  ret true.

(** *** Opcode dispatcher *)

Definition op_is (op_code code : N) : bool := N.eqb op_code code.

(** [LinkService.parse(op_code, data)] *)
Definition parse (op_code : N) (data : option (list byte)) : M Service unit :=
  modify (set_keepalive_timer KEEPALIVE_TIMEOUT_S) ;;
  if op_is op_code OpCodes.HELLO then
    log_info "Hello Received" ;;
    service_initialize ;;
    when (nonempty data)
         (json_data <- eval (decode_hello adapter
                               (match data with Some b => b | None => [] end)) ;;
          let '(application, version, path, exe) := json_data in
          v <- eval application ;; modify (set_remote_app (Some v)) ;;
          v <- eval version ;; modify (set_remote_version (Some v)) ;;
          v <- eval path ;; modify (set_remote_path (Some v)) ;;
          v <- eval exe ;; modify (set_remote_exe (Some v)) ;;
          log_info "Connected to" ;;
          log_info "Using file path" ;;
          log_info "Using exe path")
  else if op_is op_code OpCodes.PING then log_info "Ping Received"
  else if op_is op_code OpCodes.STOP then
    log_info "Termination Received" ;; service_stop
  else if op_is op_code OpCodes.DISCONNECT then
    log_info "Disconnection Received" ;; service_disconnect
  else if op_is op_code OpCodes.NOTIFY then lift_app (receive_notify data)
  else if op_is op_code OpCodes.TEMPLATE
          || op_is op_code OpCodes.POSE
          || op_is op_code OpCodes.POSE_FRAME
          || op_is op_code OpCodes.MORPH
          || op_is op_code OpCodes.MORPH_UPDATE
          || op_is op_code OpCodes.CHARACTER
          || op_is op_code OpCodes.PROP
          || op_is op_code OpCodes.CHARACTER_UPDATE
          || op_is op_code OpCodes.RIGIFY then
    lift_app (app_do (Scene (Delegated op_code data)) ;; delegate adapter op_code data)
  else if op_is op_code OpCodes.SEQUENCE then lift_app (receive_sequence data)
  else if op_is op_code OpCodes.SEQUENCE_FRAME then
    lift_app (app_do (Scene (Delegated op_code data)) ;; delegate adapter op_code data)
  else if op_is op_code OpCodes.SEQUENCE_END then lift_app (receive_sequence_end data)
  else if op_is op_code OpCodes.LIGHTS || op_is op_code OpCodes.CAMERA_SYNC then
    lift_app (app_do (Scene (Delegated op_code data)) ;; delegate adapter op_code data)
  else ret tt.

(** *** Sequence engine, sending side *)

(** [LinkService.send_hello] *)
Definition send_hello : M Service unit :=
  s <- get ;;
  send OpCodes.HELLO (Some (encode_hello adapter (trace (app s)))).

(** [LinkService.send_sequence_frame] *)
Definition send_sequence_frame : M Service unit :=
  s <- get ;;
  let current_frame := sequence_current_frame (link_data (app s)) in
  lift_app (app_do (Scene (EnsureCurrentFrame current_frame))) ;;
  lift_app (update_link_status "Sequence Frame") ;;
  s1 <- get ;;
  pose_data <- eval (encode_pose_data adapter (trace (app s1))
                                      (sequence_actors (link_data (app s1)))) ;;
  send OpCodes.SEQUENCE_FRAME (Some pose_data) ;;
  s2 <- get ;;
  let frame_end := scene_frame_end adapter (trace (app s2)) in
  if (frame_end <=? current_frame)%Z then
    lift_app (with_link_data (set_sequence_actors None)) ;;
    lift_app stop_sequence ;;
    send OpCodes.SEQUENCE_END None
  else
    let next := Z.min frame_end (current_frame + 1) in
    lift_app (app_do (Scene (FrameCurrent next))) ;;
    lift_app (with_link_data (set_sequence_current_frame next)).

Definition run_callback (f : callback) : M Service unit :=
  match f with
  | SendSequenceFrame => send_sequence_frame
  end.

(** [self.sequence.emit()]: the callbacks are called in order, from the
    list as it is when each one is reached. *)
Fixpoint emit_sequence (steps i : nat) : M Service unit :=
  match steps with
  | O => ret tt
  | S steps' =>
      s <- get ;;
      match nth_error (sequence_callbacks (app s)) i with
      | Some f => run_callback f ;; emit_sequence steps' (S i)
      | None => ret tt
      end
  end.

(** *** Receiving *)

Definition lift {A} (m : M Service A) : M World A :=
  fun w => match m (service w) with
           | Ok a s => Ok a (set_service s w)
           | Raise e s => Raise e (set_service s w)
           | Diverge => Diverge
           end.

(** [select.select(self.client_sockets, [], [], 0)]: is the peer socket
    readable now.  End of stream and a reset connection are readable. *)
Definition sock_select : M World bool :=
  w <- get ;;
  match client_sockets (service w) with
  | [] => ret false
  | _ :: _ =>
      match peer_condition (service w) with
      | Invalid => raise OSError
      | Alive => ret (match rx w with [] => false | _ :: _ => true end)
      | PeerClosed | Reset => ret true
      end
  end.

(** [self.client_sock.recv(n)]: the bytes available, at most [n]; the
    empty result at end of stream; the socket has a timeout, so waiting
    for bytes that do not come raises. *)
Definition sock_recv (n : N) : M World (list byte) :=
  w <- get ;;
  match client_sock (service w) with
  | None => raise AttributeError
  | Some _ =>
      match peer_condition (service w), rx w with
      | Invalid, _ | Reset, _ => raise OSError
      | Alive, [] => raise OSError
      | PeerClosed, [] => ret []
      | _, _ =>
          modify (set_rx (skipn (N.to_nat n) (rx w))) ;;
          ret (firstn (N.to_nat n) (rx w))
      end
  end.

(** Local variables of [recv]; [None] is a name that is not bound yet. *)
Record locals : Type := mkLocals {
  l_r : option bool;
  l_header : option (list byte);
  l_chunk : option (list byte);
  l_count : nat;
  l_op_code : option N }.

Inductive flow : Type :=
| Return
| Continue (l : locals).

(** [struct.unpack("!II", header)] on eight bytes. *)
Definition unpack_header (header : list byte) : option (N * N) :=
  match header with
  | [a3; a2; a1; a0; b3; b2; b1; b0] =>
      Some (Codec.u32_of a3 a2 a1 a0, Codec.u32_of b3 b2 b1 b0)
  | _ => None
  end.

(** The inner loop of [recv] that reads a payload of [size] bytes. *)
Fixpoint recv_chunks (fuel : nat) (size : N) (data : list byte)
         (chunk : option (list byte)) : M World (list byte * option (list byte)) :=
  if (0 <? size)%N then
    match fuel with
    | O => fun _ => Diverge
    | S fuel' =>
        let chunk_size := N.min size MAX_CHUNK_SIZE in
        chunk' <- try_except
                    (c <- sock_recv chunk_size ;; ret (Some c))
                    (fun _ =>
                       lift (log_error "Client socket receive:chunk_recv failed!") ;;
                       lift service_lost ;;
                       ret chunk) ;;
        match chunk' with
        | None => raise UnboundLocalError
        | Some c =>
            recv_chunks fuel' (size - N.of_nat (List.length c))%N (data ++ c) chunk'
        end
    end
  else ret (data, chunk).

(** The end of a pass through [while r:] in [recv]: after the message,
    stop if the connection has gone, else look for more data and stop at
    the cap or after a NOTIFY. *)
Definition recv_reselect (after : locals) : M World flow :=
  modify (set_is_data false) ;;
  w <- get ;;
  if negb (has_client_sock (service w)) then ret Return
  else
    r <- try_except
           (b <- sock_select ;; ret (Some b))
           (fun _ =>
              lift (log_error "Client socket receive:re-select failed!") ;;
              lift service_lost ;;
              ret (l_r after)) ;;
    let after' := mkLocals r (l_header after) (l_chunk after)
                           (l_count after) (l_op_code after) in
    match r with
    | Some true =>
        modify (set_is_data true) ;;
        if (MAX_RECEIVE <=? l_count after')%nat
           || match l_op_code after' with
              | Some c => op_is c OpCodes.NOTIFY
              | None => false
              end
        then ret Return
        else ret (Continue after')
    | _ => ret (Continue after')
    end.

(** One pass through the body of [while r:] in [recv]. *)
Definition recv_iteration (fuel : nat) (l : locals) : M World flow :=
  header <- try_except
              (h <- sock_recv 8 ;; ret (Some h))
              (fun _ =>
                 lift (log_error "Client socket receive:recv failed!") ;;
                 lift service_lost ;;
                 ret (l_header l)) ;;
  match header with
  | None => raise UnboundLocalError
  | Some h =>
      (* [header == 0] compares bytes with an integer: never equal *)
      after <-
        match unpack_header h with
        | Some (op_code, size) =>
            got <- (if (0 <? size)%N
                    then x <- recv_chunks fuel size [] (l_chunk l) ;;
                         ret (Some (fst x), snd x)
                    else ret (None, l_chunk l)) ;;
            lift (parse op_code (fst got)) ;;
            lift (emit (Received op_code (fst got))) ;;
            ret (mkLocals (l_r l) header (snd got) (S (l_count l)) (Some op_code))
        | None => ret (mkLocals (l_r l) header (l_chunk l) (l_count l) None)
        end ;;
      recv_reselect after
  end.

Fixpoint recv_loop (fuel : nat) (l : locals) : M World unit :=
  match l_r l with
  | None => raise UnboundLocalError
  | Some false => ret tt
  | Some true =>
      match fuel with
      | O => fun _ => Diverge
      | S fuel' =>
          f <- recv_iteration fuel' l ;;
          match f with
          | Return => ret tt
          | Continue l' => recv_loop fuel' l'
          end
      end
  end.

(** [LinkService.recv] *)
Definition recv (fuel : nat) : M World unit :=
  modify (set_is_data false) ;;
  w <- get ;;
  if has_client_sock (service w) then
    r <- try_except
           (b <- sock_select ;; ret (Some b))
           (fun _ =>
              lift (log_error "Client socket receive:select failed!") ;;
              lift service_lost ;;
              ret None) ;;
    recv_loop fuel (mkLocals r None None 0 None)
  else ret tt.

(** *** Accepting and the scheduler tick *)

Definition take_connection (c : string * N * list byte * condition) : M World unit :=
  let '(ip, port, pending, cond) := c in
  modify (set_rx pending) ;;
  lift (modify (set_peer_condition cond) ;;
        modify (set_client_sock (Some PeerSocket)) ;;
        modify (set_client_sockets [PeerSocket]) ;;
        modify (set_client_ip ip) ;;
        modify (set_client_port port) ;;
        modify (set_is_connected false) ;;
        modify (set_is_connecting true) ;;
        modify (set_keepalive_timer KEEPALIVE_TIMEOUT_S) ;;
        modify (set_ping_timer PING_INTERVAL_S) ;;
        log_info "Incoming connection received" ;;
        send_hello ;;
        emit Accepted ;;
        emit Changed).

(** The [while r:] loop of [accept]: one turn per waiting connection.
    The select at the end of a turn is on [server_sockets]; when
    [send_hello] has failed and the service is lost, that list is empty
    and the loop ends. *)
Fixpoint accept_loop (waiting : list (string * N * list byte * condition)) : M World unit :=
  match waiting with
  | [] => ret tt
  | c :: waiting' =>
      modify (set_backlog waiting') ;;
      take_connection c ;;
      w <- get ;;
      match server_sockets (service w) with
      | [] => ret tt
      | _ :: _ => accept_loop waiting'
      end
  end.

(** [LinkService.accept] *)
Definition accept : M World unit :=
  w <- get ;;
  if truthy (server_sock (service w)) && is_listening (service w)
  then accept_loop (backlog w)
  else ret tt.

Definition tick_timers (delta_time : Q) : M Service bool :=
  s <- get ;;
  if is_connected s then
    modify (set_ping_timer (ping_timer s - delta_time)) ;;
    modify (set_keepalive_timer (keepalive_timer s - delta_time)) ;;
    when (USE_PING && Qle_bool (ping_timer s - delta_time) 0)
         (send OpCodes.PING None) ;;
    if USE_KEEPALIVE && Qle_bool (keepalive_timer s - delta_time) 0
    then log_info "lost connection!" ;; service_stop ;; ret false
    else ret true
  else if is_listening s then
    modify (set_keepalive_timer (keepalive_timer s - delta_time)) ;;
    if USE_KEEPALIVE && Qle_bool (keepalive_timer s - delta_time) 0
    then log_info "no connection within time limit!" ;; service_stop ;; ret false
    else ret true
  else ret true.

(** [LinkService.loop], one scheduler tick at clock reading
    [current_time]; the value is the delay asked for, [None] to stop. *)
Definition loop (fuel : nat) (current_time : Q) : M World (option Q) :=
  w <- get ;;
  let delta_time := current_time - time (service w) in
  lift (modify (set_time current_time)) ;;
  ok <- lift check_service ;;
  if negb ok then ret None
  else
    w1 <- get ;;
    if negb (timer (service w1)) then ret None
    else
      go <- lift (tick_timers delta_time) ;;
      if negb go then ret None
      else
        accept ;;
        recv fuel ;;
        w2 <- get ;;
        lift (emit_sequence (List.length (sequence_callbacks (app (service w2)))) 0) ;;
        w3 <- get ;;
        ret (Some (if is_data w3 || is_sequence (app (service w3))
                   then 0 else TIMER_INTERVAL)).

End Link.

(** ** Pose records

    A bone transform as the scene gives it: translation, rotation
    quaternion and scale.  Numbers are rationals: the 32-bit rounding of
    [struct.pack] and of vector arithmetic is left out. *)

Module Pose.

Record transform : Type := mkTransform {
  tx : Q; ty : Q; tz : Q;
  rx : Q; ry : Q; rz : Q; rw : Q;
  sx : Q; sy : Q; sz : Q }.

Record pose_bone : Type := mkPoseBone {
  bone_name : string;
  world_matrix : transform }.   (* [M @ pose_bone.matrix], decomposed *)

(** [struct.pack("!ffffffffff", t.x, t.y, t.z, r.x, r.y, r.z, r.w, s.x, s.y, s.z)]
    as ten float fields. *)
Definition pack_floats (T : transform) : list Q :=
  [tx T; ty T; tz T; rx T; ry T; rz T; rw T; sx T; sy T; sz T].

Definition scale_translation (k : Q) (T : transform) : transform :=
  mkTransform (tx T * k) (ty T * k) (tz T * k)
              (rx T) (ry T) (rz T) (rw T) (sx T) (sy T) (sz T).

Definition starts_with (prefix s : string) : bool :=
  String.eqb (substring 0 (String.length prefix) s) prefix.

(** The bone records that [encode_pose_data] writes for one actor: the
    rigified branch skips the root and the deformation bones and scales
    the translation by 100, the other branch packs every bone as it is. *)
Definition encode_bones (rigified : bool) (pose_bones : list pose_bone) : list Q :=
  if rigified then
    flat_map (fun b =>
                if negb (String.eqb (bone_name b) "root")
                   && negb (starts_with "DEF-" (bone_name b))
                then pack_floats (scale_translation 100 (world_matrix b))
                else [])
             pose_bones
  else
    flat_map (fun b => pack_floats (world_matrix b)) pose_bones.

(** What the bone loop of [decode_pose_data] gives a pose bone from the
    ten floats of its record: [loc = Vector((tx, ty, tz)) * 0.01], the
    rotation and the scale as received. *)
Definition decode_bone (received : transform) : transform :=
  scale_translation (1 # 100) received.

Definition Qabs_diff (a b : Q) : Q := Qabs (a - b).

(** Two transforms agree within [eps] on their translation. *)
Definition translation_within (eps : Q) (A B : transform) : Prop :=
  Qabs_diff (tx A) (tx B) <= eps /\
  Qabs_diff (ty A) (ty B) <= eps /\
  Qabs_diff (tz A) (tz B) <= eps.

End Pose.

(** ** Messages on the wire and runs of the dispatcher

    A message is an opcode and a payload; [frame] is the byte string that
    [send] writes for it, [data_of] the [data] that [recv] hands to
    [parse] (no payload is [None]). *)

Definition message : Type := (N * list byte)%type.

Definition frame (m : message) : list byte :=
  Codec.be32 (fst m) ++ Codec.be32 (N.of_nat (List.length (snd m))) ++ snd m.

Definition frames (ms : list message) : list byte := flat_map frame ms.

Definition data_of (m : message) : option (list byte) :=
  match snd m with
  | [] => None
  | _ :: _ => Some (snd m)
  end.

Definition well_formed (m : message) : Prop :=
  (fst m < 4294967296)%N /\ (N.of_nat (List.length (snd m)) < 4294967296)%N.

(** What [recv] does with one complete message once it is read. *)
Definition dispatch (adapter : Adapter) (m : message) : M Service unit :=
  (parse adapter (fst m) (data_of m) ;;
   emit (Received (fst m) (data_of m)))%monad.

Definition dispatch_all (adapter : Adapter) (ms : list message) : M Service unit :=
  for_each ms (dispatch adapter).

Definition closes_connection (m : message) : bool :=
  N.eqb (fst m) OpCodes.STOP || N.eqb (fst m) OpCodes.DISCONNECT.

Definition is_notify (m : message) : bool := N.eqb (fst m) OpCodes.NOTIFY.

(** The calls into the scene among the events of a trace. *)
Definition scene_calls (t : list event) : list scene_call :=
  flat_map (fun e => match e with Scene c => [c] | _ => [] end) t.

Definition is_materialization (c : scene_call) : bool :=
  match c with
  | WriteSequenceActions _ _ => true
  | _ => false
  end.

(** A connection is closed by a command when the command returns and the
    service has no usable peer socket after it; the commands are
    [service_stop] (STOP), [service_disconnect] (DISCONNECT) and
    [service_lost]. *)
Definition closed_by (close : M Service unit) (s s' : Service) : Prop :=
  close s = Ok tt s' /\ has_client_sock s' = false.

(** The locals of [recv] after a reselect that found the socket readable
    or not, and the test that ends a call of [recv] when it is readable. *)
Definition with_r (r : bool) (l : locals) : locals :=
  mkLocals (Some r) (l_header l) (l_chunk l) (l_count l) (l_op_code l).

Definition stops_batch (l : locals) : bool :=
  (MAX_RECEIVE <=? l_count l)%nat
  || match l_op_code l with
     | Some c => op_is c OpCodes.NOTIFY
     | None => false
     end.

(** Two states of the service with the same peer connection. *)
Definition same_connection (s s' : Service) : Prop :=
  client_sock s' = client_sock s /\
  client_sockets s' = client_sockets s /\
  peer_condition s' = peer_condition s /\
  has_client_sock s' = has_client_sock s.

(** A command keeps the connection when, run on a healthy connection, it
    ends (normally or by raising) with the same peer connection. *)
Definition keeps_connection {A} (m : M Service A) : Prop :=
  forall s, peer_condition s = Alive ->
            match m s with
            | Ok _ s' | Raise _ s' => same_connection s s'
            | Diverge => True
            end.

(** The service after the clock and timer part of a tick at
    [current_time], for a service whose globals are in place: the
    countdowns run while connected, the keepalive one while listening. *)
Definition ticked (current_time : Q) (s : Service) : Service :=
  let delta_time := current_time - time s in
  let s0 := set_time current_time s in
  if is_connected s then
    set_keepalive_timer (keepalive_timer s - delta_time)
                        (set_ping_timer (ping_timer s - delta_time) s0)
  else if is_listening s then
    set_keepalive_timer (keepalive_timer s - delta_time) s0
  else s0.

(** Whether bytes are left on the socket. *)
Definition more_data (pending : list byte) : bool :=
  match pending with
  | [] => false
  | _ :: _ => true
  end.

(** A message that [recv] passes over without ending its call: neither
    a NOTIFY nor one that closes the connection. *)
Definition passes (m : message) : Prop :=
  closes_connection m = false /\ is_notify m = false.

(** The messages announced on the [received] signal, newest first. *)
Definition received (t : list event) : list (N * option (list byte)) :=
  flat_map (fun e => match e with
                     | Emit (Received op_code data) => [(op_code, data)]
                     | _ => []
                     end) t.

(** ** A small studio to run the service in *)

Module Studio.

(** One character, Kevin, with link-id [a1] and a one-bone armature,
    not rigified; every JSON payload decodes and the scene takes every
    write. *)
Definition adapter : Adapter :=
  mkAdapter (fun _ => Val (Val "iClone", Val "8.4", Val "C:/link", Val "iClone.exe")%string)
            (fun _ => Val "Pose Set"%string)
            (fun _ => Val (10%Z, 13%Z, [("Kevin", "a1")%string]))
            (fun _ => Val [("Kevin", "a1")%string])
            (fun _ id => if String.eqb id "a1" then Some 0%nat else None)
            (fun _ _ => "Kevin"%string)
            (fun _ _ => "a1"%string)
            (fun _ _ => Some ["hip"%string])
            (fun _ _ => false)
            (fun _ _ => true)
            (fun _ _ _ => Val tt)
            (fun _ => 13%Z)
            (fun _ => [])
            (fun _ _ => Val [])
            (fun _ _ => ret tt).

Definition no_link_data : LinkData := mkLinkData [] 0 None 0 0 0 None.

Definition fresh_app : App := mkApp no_link_data [] false [] [].

Definition idle : Service :=
  mkService false None None [] [] "127.0.0.1" 9334 false false false
            0 0 0 None None None None false [] Alive true fresh_app.

(** A client that has connected and completed the handshake. *)
Definition connected : Service :=
  set_timer true
    (set_client_sock (Some PeerSocket)
       (set_client_sockets [PeerSocket]
          (set_is_connected true
             (set_keepalive_timer KEEPALIVE_TIMEOUT_S
                (set_ping_timer PING_INTERVAL_S idle))))).

Definition json_bytes : list byte := list_byte_of_string "{}".

Definition ping : message := (OpCodes.PING, []).
Definition stop : message := (OpCodes.STOP, []).
Definition notify : message := (OpCodes.NOTIFY, json_bytes).
Definition sequence : message := (OpCodes.SEQUENCE, json_bytes).
Definition sequence_end : message := (OpCodes.SEQUENCE_END, json_bytes).

Definition receiving (s : Service) (ms : list message) : World :=
  mkWorld s (frames ms) [] false.

(** The connected client after a SEQUENCE message has opened a session. *)
Definition in_session : Service :=
  match dispatch adapter sequence connected with
  | Ok _ s => s
  | _ => connected
  end.

End Studio.

(** ** Notions used in the further properties *)

(** The payload that [send] writes for its [binary_data] argument. *)
Definition body_of (binary_data : option (list byte)) : list byte :=
  match binary_data with
  | Some b => b
  | None => []
  end.

(** The service after [send] has written message [m]: the bytes are on
    the socket, the ping countdown starts again, [sent] is emitted. *)
Definition after_send (m : message) (s : Service) : Service :=
  set_app (record (Emit Sent) (app s))
          (set_ping_timer PING_INTERVAL_S
                          (set_sent_bytes (sent_bytes s ++ frame m) s)).

(** The [except] branch of [send]. *)
Definition send_failed : M Service unit :=
  (log_error "Client socket send failed!" ;; service_lost)%monad.

(** The opcodes that [parse] has a branch for. *)
Definition handled_opcodes : list N :=
  [OpCodes.HELLO; OpCodes.PING; OpCodes.STOP; OpCodes.DISCONNECT; OpCodes.NOTIFY;
   OpCodes.TEMPLATE; OpCodes.POSE; OpCodes.POSE_FRAME; OpCodes.MORPH;
   OpCodes.MORPH_UPDATE; OpCodes.CHARACTER; OpCodes.PROP; OpCodes.CHARACTER_UPDATE;
   OpCodes.RIGIFY; OpCodes.SEQUENCE; OpCodes.SEQUENCE_FRAME; OpCodes.SEQUENCE_END;
   OpCodes.LIGHTS; OpCodes.CAMERA_SYNC].

(** The character of the actor that a reference points to, if it points
    to an actor that has one; the characters of the actors in the
    registry, in the order of the registry. *)
Definition chr_of (a : App) (r : actor_ref) : list chr :=
  match deref a r with
  | Some x => match chr_cache x with
              | Some c => [c]
              | None => []
              end
  | None => []
  end.

Definition registered_chrs (a : App) : list chr :=
  flat_map (chr_of a) (actors (link_data a)).

(** A registry in order: every entry refers to an actor object, and no
    character has two entries. *)
Definition registry_ok (a : App) : Prop :=
  Forall (fun r => (r < List.length (store a))%nat) (actors (link_data a)) /\
  NoDup (registered_chrs a).

(** The samples that [write_sequence_actions] would write for an actor. *)
Definition cached_samples (a : App) (r : actor_ref) : option actor_cache :=
  match deref a r with
  | Some x => cache x
  | None => None
  end.

(** The materializations among the events of a trace, newest first. *)
Definition materializations (t : list event) : list scene_call :=
  filter is_materialization (scene_calls t).

(** Two states of the service with the same end points: the same peer
    connection, the same server side, and the same timer, clock and
    keepalive countdown.  What may differ is what the handlers of
    messages work on: the handshake flags, the remote properties, the
    ping countdown, the bytes sent and the application state. *)
Definition same_endpoints (s s' : Service) : Prop :=
  same_connection s s' /\
  timer s' = timer s /\
  server_sock s' = server_sock s /\
  server_sockets s' = server_sockets s /\
  is_listening s' = is_listening s /\
  keepalive_timer s' = keepalive_timer s /\
  time s' = time s /\
  globals_lost s' = globals_lost s.

Definition keeps_endpoints {A} (m : M Service A) : Prop :=
  forall s, peer_condition s = Alive ->
            match m s with
            | Ok _ s' | Raise _ s' => same_endpoints s s'
            | Diverge => True
            end.

(** What the registry lookups leave alone in the application state. *)
Definition same_session (a a' : App) : Prop :=
  sequence_actors (link_data a') = sequence_actors (link_data a) /\
  sequence_start_frame (link_data a') = sequence_start_frame (link_data a) /\
  trace a' = trace a /\
  is_sequence a' = is_sequence a /\
  sequence_callbacks a' = sequence_callbacks a.

(** ** Shape-key samples

    [store_shape_key_cache_keyframes] writes the weights of one frame
    into the sample cache of an actor.  The curves are Python lists, and
    the index it computes from the frame can be negative or too large. *)

(** Exceptions of the store: an index out of range, or subscripting the
    cache of an actor that has none. *)
Inductive store_exn : Type :=
| IndexError
| NotSubscriptable.     (* TypeError: 'NoneType' object is not subscriptable *)

(** The outcome of a command that works on a mutable value in place:
    done, or an exception with the value as it was left. *)
Inductive stored (A : Type) : Type :=
| Stored (a : A)
| StoreRaises (e : store_exn) (left_as : A).
Arguments Stored {A} a.
Arguments StoreRaises {A} e left_as.

(** The position that index [i] denotes in a Python list of length
    [len]: a negative index counts from the end; none when out of range. *)
Definition py_index (len : nat) (i : Z) : option nat :=
  let j := if (i <? 0)%Z then (i + Z.of_nat len)%Z else i in
  if ((0 <=? j) && (j <? Z.of_nat len))%Z then Some (Z.to_nat j) else None.

Definition list_set {A} (xs : list A) (k : nat) (v : A) : list A :=
  firstn k xs ++ v :: skipn (S k) xs.

(** [xs[i] = v]; [None] is IndexError. *)
Definition py_setitem {A} (xs : list A) (i : Z) (v : A) : option (list A) :=
  option_map (fun k => list_set xs k v) (py_index (List.length xs) i).

Definition set_fc_curves v (r : fcurves_cache) : fcurves_cache :=
  mkFcurves (fc_count r) (fc_indices r) v.
Definition set_c_expressions v (r : actor_cache) : actor_cache :=
  mkActorCache (c_rig r) (c_bones r) v (c_visemes r) (c_start r) (c_end r).
Definition set_c_visemes v (r : actor_cache) : actor_cache :=
  mkActorCache (c_rig r) (c_bones r) (c_expressions r) v (c_start r) (c_end r).

(** The body of one of the two loops, for entry [i] of the cache:
    [curve = cache[name]["curves"][0]], [curve[cache_index] = frame],
    [curve[cache_index + 1] = weights[i]]. *)
Definition store_key (entry : fcurves_cache) (cache_index : Z) (frame : Q)
           (weights : list Q) (i : nat) : stored fcurves_cache :=
  match fc_curves entry with
  | [] => StoreRaises IndexError entry
  | curve :: others =>
      match py_setitem curve cache_index frame with
      | None => StoreRaises IndexError entry
      | Some curve1 =>
          let entry1 := set_fc_curves (curve1 :: others) entry in
          match nth_error weights i with
          | None => StoreRaises IndexError entry1
          | Some weight =>
              match py_setitem curve1 (cache_index + 1) weight with
              | None => StoreRaises IndexError entry1
              | Some curve2 => Stored (set_fc_curves (curve2 :: others) entry)
              end
          end
      end
  end.

(** [for i, name in enumerate(cache): ...] from entry [i] on. *)
Fixpoint store_keys (entries : list (string * fcurves_cache)) (i : nat)
         (cache_index : Z) (frame : Q) (weights : list Q)
  : stored (list (string * fcurves_cache)) :=
  match entries with
  | [] => Stored []
  | (key_name, entry) :: rest =>
      match store_key entry cache_index frame weights i with
      | StoreRaises e entry' => StoreRaises e ((key_name, entry') :: rest)
      | Stored entry' =>
          match store_keys rest (S i) cache_index frame weights with
          | Stored rest' => Stored ((key_name, entry') :: rest')
          | StoreRaises e rest' => StoreRaises e ((key_name, entry') :: rest')
          end
      end
  end.

(** [store_shape_key_cache_keyframes(actor, frame, expression_weights,
    viseme_weights, morph_weights)] on the cache of the actor. *)
Definition store_shape_key_cache_keyframes (samples : option actor_cache) (frame : Z)
           (expression_weights viseme_weights : list Q) : stored (option actor_cache) :=
  match samples with
  | None => StoreRaises NotSubscriptable None
  | Some c =>
      let start_frame := c_start c in
      let cache_index := ((frame - start_frame) * 2)%Z in
      match store_keys (c_expressions c) 0 cache_index (inject_Z frame)
                       expression_weights with
      | StoreRaises e ex => StoreRaises e (Some (set_c_expressions ex c))
      | Stored ex =>
          let c1 := set_c_expressions ex c in
          match store_keys (c_visemes c1) 0 cache_index (inject_Z frame)
                           viseme_weights with
          | StoreRaises e vi => StoreRaises e (Some (set_c_visemes vi c1))
          | Stored vi => Stored (Some (set_c_visemes vi c1))
          end
      end
  end.

(** A cache whose curves have room for [n] frames: every entry has a
    first curve, of [2 * n] numbers. *)
Definition roomy (n : nat) (entries : list (string * fcurves_cache)) : Prop :=
  Forall (fun e => exists curve others,
              fc_curves (snd e) = curve :: others /\
              List.length curve = (2 * n)%nat) entries.

(** The entries with the sample at position [k] written: the key time
    at [k] and the weight of the entry after it. *)
Definition write_slot (k : nat) (frame weight : Q) (entry : fcurves_cache)
  : fcurves_cache :=
  match fc_curves entry with
  | curve :: others =>
      set_fc_curves (list_set (list_set curve k frame) (S k) weight :: others) entry
  | [] => entry
  end.

Fixpoint write_slots (k : nat) (frame : Q) (weights : list Q)
         (entries : list (string * fcurves_cache)) {struct entries}
  : list (string * fcurves_cache) :=
  match entries, weights with
  | (key_name, entry) :: rest, weight :: weights' =>
      (key_name, write_slot k frame weight entry) :: write_slots k frame weights' rest
  | _, _ => entries
  end.

(** Entry [after] is entry [before] with one sample written at position
    [k] of its first curve: the key time at [k], the weight after it, the
    other positions as they were. *)
Definition sample_written (k : nat) (frame weight : Q) (before after : fcurves_cache)
  : Prop :=
  exists curve curve' others,
    fc_curves before = curve :: others /\
    fc_curves after = curve' :: others /\
    nth_error curve' k = Some frame /\
    nth_error curve' (S k) = Some weight /\
    List.length curve' = List.length curve /\
    forall j, j <> k -> j <> S k -> nth_error curve' j = nth_error curve j.

(** Every entry has got its sample, the weight taken at its own position
    in [weights]; the keys and their order are as they were. *)
Definition samples_written (k : nat) (frame : Q) (weights : list Q)
           (before after : list (string * fcurves_cache)) : Prop :=
  List.length after = List.length before /\
  forall i key_name e,
    nth_error before i = Some (key_name, e) ->
    exists e' w,
      nth_error after i = Some (key_name, e') /\
      nth_error weights i = Some w /\
      sample_written k frame w e e'.



(** A cache for the frames 10 to 13 with one expression and one viseme. *)
Definition four_frames : actor_cache :=
  mkActorCache 0%nat [] (weight_caches 4 ["Smile"%string])
               (weight_caches 4 ["Open"%string]) 10 13.

(** ** Shape keys of the mesh objects

    The part of [decode_pose_data] that reads the expression and viseme
    weights of one actor and sets them on the shape keys of its mesh
    objects. *)

(** [VISEME_NAME_MAP] *)
Definition VISEME_NAME_MAP : list (string * string) :=
  [("Open", "V_Open"); ("Explosive", "V_Explosive");
   ("Upper Dental", "V_Dental_Lip"); ("Tight O", "V_Tight_O");
   ("Pucker", "V_Tight"); ("Wide", "V_Wide"); ("Affricate", "V_Affricate");
   ("Lips Parted", "V_Lip_Open"); ("Tongue Up", "V_Tongue_up");
   ("Tongue Raised", "V_Tongue_Raise"); ("Tongue Out", "V_Tongue_Out");
   ("Tongue Narrow", "V_Tongue_Narrow"); ("Tongue Lower", "V_Tongue_Lower");
   ("Tongue Curl-U", "V_Tongue_Curl_U"); ("Tongue Curl-D", "V_Tongue_Curl_D")]%string.

(** [d[key]] on a dict kept in insertion order, for a key that may be
    absent. *)
Fixpoint dict_get {V} (d : list (string * V)) (key : string) : option V :=
  match d with
  | [] => None
  | (k, v) :: d' => if String.eqb k key then Some v else dict_get d' key
  end.

(** The shape keys of a mesh object, [obj.data.shape_keys.key_blocks]:
    the value of each key block by name. *)
Definition key_blocks : Type := list (string * Q).

(** [if name in key_blocks: key_blocks[name].value = weight] *)
Definition set_key_value (blocks : key_blocks) (key_name : string) (weight : Q)
  : key_blocks :=
  match dict_get blocks key_name with
  | Some _ => dict_set blocks key_name weight
  | None => blocks
  end.

(** [set_actor_expression_weight(objects, expression_name, weight)] *)
Definition set_actor_expression_weight (objects : list key_blocks)
           (expression_name : string) (weight : Q) : list key_blocks :=
  map (fun blocks => set_key_value blocks expression_name weight) objects.

(** [set_actor_viseme_weight(objects, viseme_name, weight)] *)
Definition set_actor_viseme_weight (objects : list key_blocks)
           (viseme_name : string) (weight : Q) : list key_blocks :=
  map (fun blocks =>
         match blocks with
         | [] => blocks
         | _ :: _ =>
             match dict_get VISEME_NAME_MAP viseme_name with
             | Some blender_viseme_name => set_key_value blocks blender_viseme_name weight
             | None => blocks
             end
         end) objects.

(** What the two loops work on: the float fields of the pose data from
    the offset on, the mesh objects of the actor, and the local variable
    [expression_name], which is not bound before the first expression of
    the call. *)
Record pose_locals : Type := mkPoseLocals {
  p_fields : list Q;
  p_objects : list key_blocks;
  p_expression_name : option string }.

Definition set_p_fields v (r : pose_locals) : pose_locals :=
  mkPoseLocals v (p_objects r) (p_expression_name r).
Definition set_p_objects v (r : pose_locals) : pose_locals :=
  mkPoseLocals (p_fields r) v (p_expression_name r).
Definition set_p_expression_name v (r : pose_locals) : pose_locals :=
  mkPoseLocals (p_fields r) (p_objects r) v.

(** [weight = struct.unpack_from("!f", pose_data, offset)[0]; offset += 4] *)
Definition read_weight : M pose_locals Q :=
  l <- get ;;
  match p_fields l with
  | weight :: rest => modify (set_p_fields rest) ;; ret weight
  | [] => raise StructError
  end.

(** [for i, expression_name in enumerate(actor.expressions): ...]; the
    value is [expression_weights]. *)
Fixpoint expression_weights_loop (rig : bool) (expressions : list string)
  : M pose_locals (list Q) :=
  match expressions with
  | [] => ret []
  | expression_name :: rest =>
      modify (set_p_expression_name (Some expression_name)) ;;
      weight <- read_weight ;;
      when rig
           (modify (fun l => set_p_objects
                               (set_actor_expression_weight (p_objects l)
                                                            expression_name weight) l)) ;;
      weights <- expression_weights_loop rig rest ;;
      ret (weight :: weights)
  end.

(** [for i, viseme_name in enumerate(actor.visemes): ...]; the call in it
    is [set_actor_viseme_weight(objects, expression_name, weight)]. *)
Fixpoint viseme_weights_loop (rig : bool) (visemes : list string)
  : M pose_locals (list Q) :=
  match visemes with
  | [] => ret []
  | viseme_name :: rest =>
      weight <- read_weight ;;
      when rig
           (l <- get ;;
            match p_expression_name l with
            | Some expression_name =>
                modify (set_p_objects
                          (set_actor_viseme_weight (p_objects l) expression_name weight))
            | None => raise UnboundLocalError
            end) ;;
      weights <- viseme_weights_loop rig rest ;;
      ret (weight :: weights)
  end.

(** The two loops, one after the other. *)
Definition decode_weights (rig : bool) (expressions visemes : list string)
  : M pose_locals (list Q * list Q) :=
  expression_weights <- expression_weights_loop rig expressions ;;
  viseme_weights <- viseme_weights_loop rig visemes ;;
  ret (expression_weights, viseme_weights).

(** The mesh objects with the weights of a run of viseme fields set on
    the shape key that [VISEME_NAME_MAP] gives for [key_name]. *)
Definition visemes_set_under (key_name : string) (weights : list Q)
           (objects : list key_blocks) : list key_blocks :=
  fold_left (fun objs weight => set_actor_viseme_weight objs key_name weight)
            weights objects.

(** A face with a smile and an open mouth. *)
Definition face : key_blocks := [("Smile"%string, 0); ("V_Open"%string, 0)].

(** Nothing can be read from the peer socket any more, and the stream
    has not ended either: every read raises. *)
Definition starved (w : World) : Prop :=
  rx w = [] /\ peer_condition (service w) <> PeerClosed.

(** The [except] branch of a failed read in [recv]. *)
Definition read_failed {A} (text : string) (stale : A) : M World A :=
  (lift (log_error text) ;; lift service_lost ;; ret stale)%monad.

(** ** The end of a tick *)

(** What [loop] does after [recv]: the callbacks of the [sequence]
    signal, and the delay it asks for. *)
Definition finish_tick (adapter : Adapter) : M World (option Q) :=
  (w2 <- get ;;
   lift (emit_sequence adapter (List.length (sequence_callbacks (app (service w2)))) 0) ;;
   w3 <- get ;;
   ret (Some (if is_data w3 || is_sequence (app (service w3))
              then 0 else TIMER_INTERVAL)))%monad.

(** ** Starting the service *)

(** [LinkService.start_timer]; [now] is the reading of the clock. *)
Definition start_timer (now : Q) : M Service unit :=
  (modify (set_time now) ;;
   s <- get ;;
   when (negb (timer s))
        (modify (set_timer true) ;;
         log_info "Service timer started"))%monad.

(** [LinkService.try_start_client(host, port)].  [answer] is what
    connecting to the server gives: nothing when the connection is
    refused or times out, else the bytes the server has sent on the new
    connection and the condition of that connection. *)
Definition try_start_client (adapter : Adapter) (host : string) (port : N)
           (answer : option (list byte * condition)) : M World bool :=
  (w <- get ;;
   if negb (truthy (client_sock (service w))) then
     lift (log_info "Attempting to connect") ;;
     try_except
       (match answer with
        | None => raise OSError
        | Some (pending, cond) =>
            modify (set_rx pending) ;;
            lift (modify (set_peer_condition cond) ;;
                  modify (set_is_connected false) ;;
                  modify (set_is_connecting true) ;;
                  modify (set_client_sock (Some PeerSocket)) ;;
                  modify (set_client_sockets [PeerSocket]) ;;
                  modify (set_client_ip host) ;;
                  modify (set_client_port port) ;;
                  modify (set_keepalive_timer KEEPALIVE_TIMEOUT_S) ;;
                  modify (set_ping_timer PING_INTERVAL_S) ;;
                  log_info "connecting with data link server" ;;
                  send_hello adapter ;;
                  emit Connecting ;;
                  emit Changed) ;;
            ret true
        end)
       (fun _ =>
          lift (modify (set_client_sock None) ;;
                modify (set_client_sockets []) ;;
                modify (set_is_connected false) ;;
                modify (set_is_connecting false) ;;
                log_info "Client socket connect failed!") ;;
          ret false)
   else
     lift (log_info "Client already connected!") ;;
     ret true)%monad.

(** [LinkService.service_start(host, port)] *)
Definition service_start (adapter : Adapter) (host : string) (port : N) (now : Q)
           (answer : option (list byte * condition)) : M World unit :=
  (w <- get ;;
   when (negb (is_listening (service w)))
        (lift (start_timer now) ;;
         if SERVER_ONLY then lift start_server
         else
           connected <- try_start_client adapter host port answer ;;
           when (negb connected)
                (when (negb CLIENT_ONLY) (lift start_server))))%monad.

(** ** Templates and pose records *)




(** * Properties *)

(** ** Wire codec *)

Module CodecFacts.
Import Codec.
Local Open Scope N_scope.

Lemma to_N_byte_of_N (n : N) : Byte.to_N (byte_of_N n) = n mod 256.
Proof.
  unfold byte_of_N.
  destruct (Byte.of_N (n mod 256)) as [b|] eqn:E.
  - now apply Byte.to_of_N.
  - apply Byte.of_N_None_iff in E.
    pose proof (N.mod_upper_bound n 256). lia.
Qed.

Lemma u32_of_be32 (n : N) :
  n < 4294967296 ->
  u32_of (byte_of_N (n / 16777216)) (byte_of_N (n / 65536))
         (byte_of_N (n / 256)) (byte_of_N n) = n.
Proof.
  intros Hn. unfold u32_of. rewrite !to_N_byte_of_N.
  assert (H3 : n / 16777216 < 256) by (apply N.Div0.div_lt_upper_bound; lia).
  rewrite (N.mod_small _ _ H3).
  pose proof (N.div_mod n 256 ltac:(lia)) as D0.
  pose proof (N.div_mod (n / 256) 256 ltac:(lia)) as D1.
  pose proof (N.div_mod (n / 65536) 256 ltac:(lia)) as D2.
  replace (n / 256 / 256) with (n / 65536) in D1
    by (rewrite N.Div0.div_div; reflexivity).
  replace (n / 65536 / 256) with (n / 16777216) in D2
    by (rewrite N.Div0.div_div; reflexivity).
  lia.
Qed.

Lemma unpack_pack_u32 (n : N) (rest : list byte) :
  n < 4294967296 -> unpack_u32_from (be32 n ++ rest) 0 = Val n.
Proof.
  intros Hn. unfold unpack_u32_from, be32. simpl.
  now rewrite u32_of_be32.
Qed.

Lemma values_of_bytes_of (ns : list N) :
  Forall (fun c => c < 256) ns -> values_of (bytes_of ns) = ns.
Proof.
  unfold values_of, bytes_of.
  induction 1 as [|c ns Hc _ IH]; simpl.
  - reflexivity.
  - rewrite to_N_byte_of_N, N.mod_small by exact Hc.
    now rewrite IH.
Qed.

Lemma utf8_encode_ascii (s : pystr) :
  Forall (fun c => c < 128) s -> utf8_encode s = Some s.
Proof.
  induction 1 as [|c s Hc _ IH]; simpl.
  - reflexivity.
  - unfold utf8_encode_cp. apply N.ltb_lt in Hc. rewrite Hc, IH. reflexivity.
Qed.

Lemma utf8_decode_ascii (s : pystr) :
  Forall (fun c => c < 128) s -> utf8_decode s = Some s.
Proof.
  induction 1 as [|c s Hc _ IH]; simpl.
  - reflexivity.
  - apply N.ltb_lt in Hc. rewrite Hc, IH. reflexivity.
Qed.

Lemma slice_after_prefix (prefix body : list byte) :
  slice (prefix ++ body) (N.of_nat (List.length prefix)) (N.of_nat (List.length body))
  = body.
Proof.
  unfold slice. rewrite !Nat2N.id.
  rewrite skipn_app, skipn_all, Nat.sub_diag. simpl.
  apply firstn_all.
Qed.

(** On strings of ASCII characters the prefix does count the bytes, and
    [unpack_string] gives back the string and the offset past it. *)
Lemma unpack_pack_string_ascii (s : pystr) :
  Forall (fun c => c < 128) s ->
  N.of_nat (List.length s) < 4294967296 ->
  exists packed,
    pack_string s = Val packed /\
    unpack_string packed 0 = Val (4 + N.of_nat (List.length s), s).
Proof.
  intros Hs Hlen.
  assert (Hb : Forall (fun c => c < 256) s).
  { eapply Forall_impl; [|exact Hs]. simpl. intros; lia. }
  exists (be32 (N.of_nat (List.length s)) ++ bytes_of s). split.
  - unfold pack_string, pack_u32, encode_utf8.
    apply N.ltb_lt in Hlen. rewrite Hlen.
    now rewrite utf8_encode_ascii.
  - unfold unpack_string.
    rewrite unpack_pack_u32 by exact Hlen.
    replace (0 + 4) with (N.of_nat (List.length (be32 (N.of_nat (List.length s)))))
      by reflexivity.
    replace (N.of_nat (List.length s)) with (N.of_nat (List.length (bytes_of s))) at 3 4
      by (unfold bytes_of; now rewrite length_map).
    rewrite slice_after_prefix.
    unfold decode_utf8. rewrite values_of_bytes_of by exact Hb.
    rewrite utf8_decode_ascii by exact Hs.
    unfold bytes_of. rewrite length_map. reflexivity.
Qed.

End CodecFacts.

(** C6. [pack_string] writes the number of characters of the string as
    the prefix, not the number of bytes that follow: for the one-character
    string U+00E9 the prefix is 1 and two bytes follow, [unpack_string]
    reads one byte of them and the decoding of that byte raises; for
    U+00E9 followed by [a] it returns the first character only and the
    offset 6, one short of the end. *)
Theorem pack_string_prefix_counts_characters :
  Codec.pack_string [233%N] = Val (Codec.bytes_of [0; 0; 0; 1; 195; 169]%N) /\
  Codec.unpack_string (Codec.bytes_of [0; 0; 0; 1; 195; 169]%N) 0 = Exc UnicodeDecodeError /\
  Codec.pack_string [233%N; 97%N] = Val (Codec.bytes_of [0; 0; 0; 2; 195; 169; 97]%N) /\
  Codec.unpack_string (Codec.bytes_of [0; 0; 0; 2; 195; 169; 97]%N) 0 = Val (6%N, [233%N]).
Proof. repeat split; reflexivity. Qed.

(** C7, as stated, fails: the buffer announces five bytes and holds two,
    and [unpack_string] returns the two-character string and offset 9. *)
Lemma unpack_string_short_buffer_returns :
  (N.of_nat (List.length (Codec.bytes_of [0; 0; 0; 5; 97; 98]%N)) - 4 < 5)%N /\
  Codec.unpack_u32_from (Codec.bytes_of [0; 0; 0; 5; 97; 98]%N) 0 = Val 5%N /\
  Codec.unpack_string (Codec.bytes_of [0; 0; 0; 5; 97; 98]%N) 0 = Val (9%N, [97%N; 98%N]).
Proof. repeat split; reflexivity. Qed.

(** C7, amended. When the length field can be read and no more than the
    announced number of bytes is left after it, [unpack_string] does not
    fail on that account: it decodes the bytes that are left and returns
    them with the offset advanced by four plus the announced length. *)
Theorem unpack_string_truncates (buffer : list byte) (offset len : N) (s : Codec.pystr) :
  Codec.unpack_u32_from buffer offset = Val len ->
  (N.of_nat (List.length buffer) <= offset + 4 + len)%N ->
  Codec.decode_utf8 (skipn (N.to_nat (offset + 4)) buffer) = Val s ->
  Codec.unpack_string buffer offset = Val ((offset + 4 + len)%N, s).
Proof.
  intros Hlen Hshort Hdec.
  unfold Codec.unpack_string. rewrite Hlen.
  unfold Codec.slice.
  rewrite firstn_all2.
  - now rewrite Hdec.
  - rewrite length_skipn. lia.
Qed.

Lemma unpack_string_truncates_witness :
  Codec.unpack_string (Codec.bytes_of [0; 0; 0; 5; 97; 98]%N) 0
  = Val ((0 + 4 + 5)%N, [97%N; 98%N]).
Proof.
  apply (@unpack_string_truncates (Codec.bytes_of [0; 0; 0; 5; 97; 98]%N) 0%N 5%N).
  - reflexivity.
  - vm_compute. discriminate.
  - reflexivity.
Defined.

(** The only failure of [unpack_string] that comes from a short buffer:
    fewer than four bytes at the offset for the length field. *)
Lemma unpack_string_needs_length_field (buffer : list byte) (offset : N) :
  (N.of_nat (List.length buffer) < offset + 4)%N ->
  Codec.unpack_string buffer offset = Exc StructError.
Proof.
  intros H. unfold Codec.unpack_string, Codec.unpack_u32_from.
  assert (L : (List.length (skipn (N.to_nat offset) buffer) < 4)%nat)
    by (rewrite length_skipn; lia).
  destruct (skipn (N.to_nat offset) buffer) as [|? [|? [|? [|? ?]]]];
    simpl in L; try reflexivity; lia.
Qed.


(** ** Connection manager *)

Section ConnectionFacts.

Variable adapter : Adapter.

(** Case analysis on the fields of a service that the connection manager
    branches on, followed by evaluation. *)
Ltac by_cases s :=
  destruct s as [[|] [l|] [c|] sss css ip port il [|] [|] pt kt t
                 ra rv rp re gl sb [| | |] [|] a].

(** C10. With no peer socket, or with a peer socket but neither connected
    nor connecting, [send] returns normally and leaves the whole service
    state as it was: nothing written, no timer, flag, log line or signal. *)
Theorem send_without_peer_is_noop (s : Service) (op_code : N) (data : option (list byte)) :
  has_client_sock s = false ->
  send op_code data s = Ok tt s.
Proof.
  unfold has_client_sock, send, bind, get, when.
  destruct (truthy (client_sock s) && (is_connected s || is_connecting s)).
  - discriminate.
  - reflexivity.
Qed.

Lemma send_without_peer_is_noop_witness :
  send OpCodes.PING None Studio.idle = Ok tt Studio.idle.
Proof.
  apply (@send_without_peer_is_noop Studio.idle OpCodes.PING None).
  reflexivity.
Defined.

(** C9. When binding the port fails, [start_server] logs the error and
    returns normally with no server socket retained, but with
    [is_listening] set. *)
Theorem start_server_failure_sets_listening (s : Service) :
  server_sock s = None ->
  port_free s = false ->
  exists s',
    start_server s = Ok tt s' /\
    server_sock s' = None /\
    server_sockets s' = [] /\
    is_listening s' = true /\
    trace (app s') = LogError "Unable to start server on TCP *:9334" :: trace (app s).
Proof.
  intros Hs Hp. by_cases s; try discriminate;
    (eexists; split; [reflexivity | repeat split]).
Qed.

Lemma start_server_failure_sets_listening_witness :
  exists s',
    start_server (set_port_free false Studio.idle) = Ok tt s' /\
    server_sock s' = None /\
    server_sockets s' = [] /\
    is_listening s' = true /\
    trace (app s') = LogError "Unable to start server on TCP *:9334"
                       :: trace (app (set_port_free false Studio.idle)).
Proof.
  apply (@start_server_failure_sets_listening (set_port_free false Studio.idle));
    reflexivity.
Defined.

(** C8, as stated, fails: a STOP message closes the connection of a
    client with Kevin in its registry, and Kevin is still there. *)
Lemma registry_survives_stop :
  exists s',
    dispatch Studio.adapter Studio.stop Studio.in_session = Ok tt s' /\
    has_client_sock Studio.in_session = true /\
    has_client_sock s' = false /\
    actors (link_data (app s')) = [0%nat] /\
    actors (link_data (app s')) <> [].
Proof.
  eexists. split; [vm_compute; reflexivity|].
  repeat split; try reflexivity. discriminate.
Qed.

(** C8, amended. Closing the connection, by STOP, by DISCONNECT or by a
    lost connection, leaves the actor registry and the actors in it as
    they were. *)
Theorem closing_keeps_registry (s : Service) :
  (exists s', closed_by service_stop s s' /\
              link_data (app s') = link_data (app s) /\ store (app s') = store (app s)) /\
  (exists s', closed_by service_disconnect s s' /\
              link_data (app s') = link_data (app s) /\ store (app s') = store (app s)) /\
  (exists s', closed_by service_lost s s' /\
              link_data (app s') = link_data (app s) /\ store (app s') = store (app s)).
Proof.
  unfold closed_by.
  by_cases s;
    (repeat apply conj;
     (eexists; split; [split; [vm_compute; reflexivity | reflexivity] | split; reflexivity])).
Qed.

(** The registry is emptied in one place only: [check_service], when the
    module globals have been lost. *)
Lemma check_service_resets_registry (s : Service) :
  globals_lost s = true ->
  exists s', check_service s = Ok true s' /\
             actors (link_data (app s')) = [] /\
             sequence_actors (link_data (app s')) = None /\
             pose_actors (link_data (app s')) = None /\
             client_sock s' = client_sock s.
Proof.
  intros H. destruct s; simpl in H; subst.
  eexists; repeat split; reflexivity.
Qed.

Lemma check_service_keeps_registry (s : Service) :
  globals_lost s = false -> check_service s = Ok true s.
Proof.
  intros H. unfold check_service, bind, get, when. now rewrite H.
Qed.

(** ** Sequence engine *)

(** C5, as stated, fails: a SEQUENCE message opens a session, the STOP
    message after it closes the connection, and the session is still
    there: the session actors, the streaming flag and Kevin's sample
    cache. *)
Lemma session_survives_stop :
  exists w' x samples,
    recv Studio.adapter 8 (Studio.receiving Studio.connected [Studio.sequence; Studio.stop])
      = Ok tt w' /\
    has_client_sock (service w') = false /\
    sequence_actors (link_data (app (service w'))) = Some [0%nat] /\
    is_sequence (app (service w')) = true /\
    deref (app (service w')) 0%nat = Some x /\
    cache x = Some samples.
Proof.
  do 3 eexists. split; [vm_compute; reflexivity|].
  repeat split; reflexivity.
Qed.

(** C5, amended. Closing the connection, by STOP, by DISCONNECT or by a
    lost connection, writes no cached sample into animation data: the
    materializations made so far are the ones made before.  And it leaves
    the session as it was: session frames and actors, the streaming flag
    and its callbacks, and the sample cache of every actor. *)
Theorem closing_keeps_session (s : Service) (close : M Service unit) :
  close = service_stop \/ close = service_disconnect \/ close = service_lost ->
  exists s',
    closed_by close s s' /\
    filter is_materialization (scene_calls (trace (app s')))
      = filter is_materialization (scene_calls (trace (app s))) /\
    link_data (app s') = link_data (app s) /\
    is_sequence (app s') = is_sequence (app s) /\
    sequence_callbacks (app s') = sequence_callbacks (app s) /\
    store (app s') = store (app s).
Proof.
  unfold closed_by.
  intros [-> | [-> | ->]];
    by_cases s;
    (eexists; split; [split; [vm_compute; reflexivity | reflexivity] | repeat split; reflexivity]).
Qed.

Lemma closing_keeps_session_witness :
  exists s',
    closed_by service_stop Studio.in_session s' /\
    filter is_materialization (scene_calls (trace (app s')))
      = filter is_materialization (scene_calls (trace (app Studio.in_session))) /\
    link_data (app s') = link_data (app Studio.in_session) /\
    is_sequence (app s') = is_sequence (app Studio.in_session) /\
    sequence_callbacks (app s') = sequence_callbacks (app Studio.in_session) /\
    store (app s') = store (app Studio.in_session).
Proof.
  apply (@closing_keeps_session Studio.in_session service_stop).
  left. reflexivity.
Defined.

(** Materialization does happen where the code has it: SEQUENCE_END
    writes the samples of the session actors and clears their caches. *)
Lemma sequence_end_materializes :
  exists s' samples,
    dispatch Studio.adapter Studio.sequence_end Studio.in_session = Ok tt s' /\
    filter is_materialization (scene_calls (trace (app s')))
      = [WriteSequenceActions 0%nat samples] /\
    sequence_actors (link_data (app s')) = None /\
    is_sequence (app s') = false /\
    option_map cache (deref (app s') 0%nat) = Some None.
Proof.
  do 2 eexists. split; [vm_compute; reflexivity|].
  repeat split; reflexivity.
Qed.

End ConnectionFacts.

(** ** Receiving *)

Section ReceiveFacts.

Variable adapter : Adapter.

Lemma has_client_sock_true (s : Service) :
  has_client_sock s = true ->
  exists c, client_sock s = Some c /\ (is_connected s || is_connecting s) = true.
Proof.
  unfold has_client_sock.
  destruct (client_sock s) as [c|]; simpl; [|discriminate].
  destruct (is_connected s || is_connecting s); [|discriminate].
  intros _. now exists c.
Qed.

(** At end of stream the header read returns the empty byte string.  The
    test [header == 0] does not hold for it, nothing is parsed, the
    socket is still readable, and the pass ends where it began: the
    service untouched, the loop going on. *)
Lemma recv_iteration_at_end_of_stream (fuel : nat) (l : locals) (s : Service)
      (waiting : list (string * N * list byte * condition)) (d : bool) :
  has_client_sock s = true ->
  client_sockets s <> [] ->
  peer_condition s = PeerClosed ->
  (l_count l < MAX_RECEIVE)%nat ->
  recv_iteration adapter fuel l (mkWorld s [] waiting d)
  = Ok (Continue (mkLocals (Some true) (Some []) (l_chunk l) (l_count l) None))
       (mkWorld s [] waiting true).
Proof.
  intros Hsock Hlist Hcond Hcount.
  destruct l as [r h ch count op]. cbn [l_count l_chunk] in *.
  apply Nat.leb_gt in Hcount.
  destruct s as [tm ss [c|] sss [|x css] ip port il [|] [|] pt kt t
                 ra rv rp re gl sb pc pf a];
    simpl in Hsock, Hlist, Hcond; try discriminate; try congruence; subst;
    cbn -[Nat.leb]; rewrite Hcount; reflexivity.
Qed.

Lemma recv_loop_at_end_of_stream (fuel : nat) :
  forall (l : locals) (s : Service) waiting (d : bool),
    has_client_sock s = true ->
    client_sockets s <> [] ->
    peer_condition s = PeerClosed ->
    (l_count l < MAX_RECEIVE)%nat ->
    l_r l = Some true ->
    recv_loop adapter fuel l (mkWorld s [] waiting d) = Diverge.
Proof.
  induction fuel as [|fuel IH]; intros l s waiting d Hsock Hlist Hcond Hcount Hr.
  - simpl. now rewrite Hr.
  - simpl. rewrite Hr. unfold bind.
    rewrite recv_iteration_at_end_of_stream by assumption.
    apply IH; try assumption; reflexivity.
Qed.

(** C2. After an orderly close by the peer, with nothing left to read,
    [recv] never calls [service_lost]: every pass of its loop leaves the
    service as it is, still holding the socket and still connected, and
    the loop does not end, whatever number of steps it is given. *)
Theorem recv_spins_after_orderly_close (s : Service) waiting (d : bool) :
  has_client_sock s = true ->
  client_sockets s <> [] ->
  peer_condition s = PeerClosed ->
  (forall fuel l, (l_count l < MAX_RECEIVE)%nat ->
     recv_iteration adapter fuel l (mkWorld s [] waiting d)
     = Ok (Continue (mkLocals (Some true) (Some []) (l_chunk l) (l_count l) None))
          (mkWorld s [] waiting true)) /\
  (forall fuel, recv adapter fuel (mkWorld s [] waiting d) = Diverge).
Proof.
  intros Hsock Hlist Hcond. split.
  - intros fuel l Hcount. now apply recv_iteration_at_end_of_stream.
  - intros fuel. unfold recv, bind, modify, get. simpl. rewrite Hsock.
    unfold try_except, sock_select, bind, get, ret. simpl.
    destruct (client_sockets s) as [|x xs] eqn:E; [congruence|].
    rewrite Hcond. simpl.
    apply recv_loop_at_end_of_stream; simpl; try assumption; try reflexivity.
    + rewrite E. discriminate.
    + unfold MAX_RECEIVE. lia.
Qed.

(** *** Reading one complete message *)

Lemma sock_recv_available (n : N) (s : Service) (b : byte) (pending : list byte)
      waiting (d : bool) (c : socket) :
  client_sock s = Some c ->
  peer_condition s = Alive ->
  sock_recv n (mkWorld s (b :: pending) waiting d)
  = Ok (firstn (N.to_nat n) (b :: pending))
       (mkWorld s (skipn (N.to_nat n) (b :: pending)) waiting d).
Proof.
  intros Hc Ha. unfold sock_recv, bind, get, modify, ret. simpl.
  rewrite Hc, Ha. reflexivity.
Qed.

(** The payload loop reads exactly the payload when all of it is there. *)
Lemma recv_chunks_payload (fuel : nat) :
  forall (body data tail : list byte) (chunk : option (list byte))
         (s : Service) waiting (d : bool) (c : socket),
    client_sock s = Some c ->
    peer_condition s = Alive ->
    (List.length body < fuel)%nat ->
    exists chunk',
      recv_chunks fuel (N.of_nat (List.length body)) data chunk
                  (mkWorld s (body ++ tail) waiting d)
      = Ok (data ++ body, chunk') (mkWorld s tail waiting d).
Proof.
  induction fuel as [|fuel IH]; intros body data tail chunk s waiting d c Hc Ha Hlen.
  - lia.
  - destruct body as [|b body].
    + exists chunk. simpl. now rewrite app_nil_r.
    + set (size := N.of_nat (List.length (b :: body))).
      set (n := N.to_nat (N.min size MAX_CHUNK_SIZE)).
      assert (Hn : (1 <= n <= List.length (b :: body))%nat).
      { subst n size. unfold MAX_CHUNK_SIZE. simpl List.length. lia. }
      assert (Hpos : (0 <? size)%N = true) by (apply N.ltb_lt; subst size; simpl; lia).
      destruct (IH (skipn n (b :: body)) (data ++ firstn n (b :: body)) tail
                   (Some (firstn n (b :: body))) s waiting d c Hc Ha) as [chunk' E].
      { rewrite length_skipn. simpl List.length in *. lia. }
      exists chunk'.
      cbn [recv_chunks]. fold size. rewrite Hpos.
      unfold bind at 1. unfold try_except. unfold bind at 1.
      change ((b :: body) ++ tail) with (b :: (body ++ tail)).
      rewrite (@sock_recv_available _ s b (body ++ tail) waiting d c Hc Ha).
      fold n. cbn [ret].
      replace (firstn n (b :: body ++ tail)) with (firstn n (b :: body))
        by (change (b :: body ++ tail) with ((b :: body) ++ tail);
            rewrite firstn_app;
            replace (n - List.length (b :: body))%nat with 0%nat by lia;
            simpl firstn at 2; now rewrite app_nil_r).
      replace (skipn n (b :: body ++ tail)) with (skipn n (b :: body) ++ tail)
        by (change (b :: body ++ tail) with ((b :: body) ++ tail);
            rewrite skipn_app;
            replace (n - List.length (b :: body))%nat with 0%nat by lia;
            reflexivity).
      replace (size - N.of_nat (List.length (firstn n (b :: body))))%N
        with (N.of_nat (List.length (skipn n (b :: body))))
        by (rewrite length_firstn, length_skipn; subst size; lia).
      rewrite E. rewrite <- app_assoc, firstn_skipn. reflexivity.
Qed.

(** One pass over a complete message reads its header and payload and
    goes on as the dispatch of that message followed by the reselect. *)
Lemma recv_iteration_message (fuel : nat) (l : locals) (s : Service) (m : message)
      (tail : list byte) waiting (d : bool) (c : socket) :
  well_formed m ->
  client_sock s = Some c ->
  peer_condition s = Alive ->
  (List.length (snd m) < fuel)%nat ->
  exists chunk',
    recv_iteration adapter fuel l (mkWorld s (frame m ++ tail) waiting d)
    = (lift (parse adapter (fst m) (data_of m)) ;;
       lift (emit (Received (fst m) (data_of m))) ;;
       recv_reselect (mkLocals (l_r l) (Some (firstn 8 (frame m))) chunk'
                               (S (l_count l)) (Some (fst m))))%monad
        (mkWorld s tail waiting d).
Proof.
  destruct m as [op body]. unfold well_formed, frame, data_of. cbn [fst snd].
  intros [Hop Hlen] Hc Ha Hfuel.
  pose proof (CodecFacts.u32_of_be32 Hop) as Eop.
  pose proof (CodecFacts.u32_of_be32 Hlen) as Elen.
  unfold Codec.be32 in *.
  set (a3 := Codec.byte_of_N (op / 16777216)) in *.
  set (a2 := Codec.byte_of_N (op / 65536)) in *.
  set (a1 := Codec.byte_of_N (op / 256)) in *.
  set (a0 := Codec.byte_of_N op) in *.
  set (size := N.of_nat (List.length body)) in *.
  set (b3 := Codec.byte_of_N (size / 16777216)) in *.
  set (b2 := Codec.byte_of_N (size / 65536)) in *.
  set (b1 := Codec.byte_of_N (size / 256)) in *.
  set (b0 := Codec.byte_of_N size) in *.
  replace (([a3; a2; a1; a0] ++ [b3; b2; b1; b0] ++ body) ++ tail)
    with (a3 :: a2 :: a1 :: a0 :: b3 :: b2 :: b1 :: b0 :: (body ++ tail))
    by reflexivity.
  replace (firstn 8 ([a3; a2; a1; a0] ++ [b3; b2; b1; b0] ++ body))
    with [a3; a2; a1; a0; b3; b2; b1; b0] by reflexivity.
  unfold recv_iteration.
  unfold bind at 1. unfold try_except. unfold bind at 1.
  rewrite (@sock_recv_available 8 s a3 _ waiting d c Hc Ha).
  change (N.to_nat 8) with 8%nat.
  cbn [ret firstn skipn unpack_header].
  rewrite Eop, Elen.
  destruct body as [|b body].
  - exists (l_chunk l). cbn [app]. unfold bind, ret. cbn [N.ltb N.compare size List.length N.of_nat fst snd].
    destruct (lift (parse adapter op None) _); try reflexivity;
      try (destruct (lift (emit _) _); reflexivity).
  - assert (Hpos : (0 <? size)%N = true) by (apply N.ltb_lt; subst size; simpl; lia).
    rewrite Hpos.
    destruct (@recv_chunks_payload fuel (b :: body) [] tail (l_chunk l) s waiting d c
                Hc Ha Hfuel) as [chunk' E].
    exists chunk'.
    unfold bind at 1. unfold bind at 1. unfold bind at 1.
    fold size in E. change ([] ++ b :: body) with (b :: body) in E. rewrite E.
    cbn [ret fst snd app].
    unfold bind, ret.
    destruct (lift (parse adapter op (Some (b :: body))) _); try reflexivity;
      try (destruct (lift (emit _) _); reflexivity).
Qed.

Lemma recv_reselect_closed (after : locals) (s : Service) (tail : list byte)
      waiting (d : bool) :
  has_client_sock s = false ->
  recv_reselect after (mkWorld s tail waiting d) = Ok Return (mkWorld s tail waiting false).
Proof.
  intros H. unfold recv_reselect, bind, modify, get. simpl. now rewrite H.
Qed.

Lemma recv_reselect_open (after : locals) (s : Service) (tail : list byte)
      waiting (d : bool) :
  has_client_sock s = true ->
  client_sockets s <> [] ->
  peer_condition s = Alive ->
  recv_reselect after (mkWorld s tail waiting d)
  = match tail with
    | [] => Ok (Continue (with_r false after)) (mkWorld s [] waiting false)
    | _ :: _ =>
        Ok (if stops_batch after then Return else Continue (with_r true after))
           (mkWorld s tail waiting true)
    end.
Proof.
  intros H Hl Ha.
  unfold recv_reselect, bind, modify, get, try_except, sock_select, bind, get, ret.
  simpl. rewrite H. simpl.
  destruct (client_sockets s); [congruence|].
  rewrite Ha. destruct tail; simpl; [reflexivity|].
  unfold stops_batch. simpl.
  destruct (_ || _); reflexivity.
Qed.

(** *** Commands that keep the connection *)

Lemma same_connection_refl (s : Service) : same_connection s s.
Proof. repeat split. Qed.

Lemma same_connection_trans (s1 s2 s3 : Service) :
  same_connection s1 s2 -> same_connection s2 s3 -> same_connection s1 s3.
Proof.
  unfold same_connection. intros (a & b & c & d) (a' & b' & c' & d').
  repeat split; congruence.
Qed.

Lemma keeps_ret {A} (a : A) : keeps_connection (ret a).
Proof. intros s _. apply same_connection_refl. Qed.

Lemma keeps_raise {A} (e : exn) : keeps_connection (@raise Service A e).
Proof. intros s _. apply same_connection_refl. Qed.

Lemma keeps_bind {A B} (m : M Service A) (k : A -> M Service B) :
  keeps_connection m -> (forall a, keeps_connection (k a)) ->
  keeps_connection (bind m k).
Proof.
  intros Hm Hk s Ha. unfold bind. specialize (Hm s Ha).
  destruct (m s) as [a s'|e s'|]; try exact Hm; try exact I.
  assert (Ha' : peer_condition s' = Alive)
    by (destruct Hm as (_ & _ & E & _); congruence).
  specialize (Hk a s' Ha').
  destruct (k a s'); try exact I; eapply same_connection_trans; eassumption.
Qed.

Lemma keeps_lift_app {A} (m : M App A) : keeps_connection (lift_app m).
Proof.
  intros s _. unfold lift_app.
  destruct (m (app s)); try exact I; destruct s; repeat split.
Qed.

Lemma keeps_when (c : bool) (m : M Service unit) :
  keeps_connection m -> keeps_connection (when c m).
Proof. destruct c; [auto | intros _; apply keeps_ret]. Qed.

Lemma keeps_eval {A} (r : pyresult A) : keeps_connection (eval r).
Proof. destruct r; [apply keeps_ret | apply keeps_raise]. Qed.

Lemma keeps_modify (f : Service -> Service) :
  (forall s, same_connection s (f s)) -> keeps_connection (modify f).
Proof. intros H s _. apply H. Qed.

Lemma keeps_service_initialize : keeps_connection service_initialize.
Proof.
  intros s Ha.
  destruct s as [tm ss [c|] sss css ip port il [|] [|] pt kt t
                 ra rv rp re gl sb pc pf a];
    simpl in Ha; subst; vm_compute; repeat split.
Qed.

Lemma parse_keeps_connection (op_code : N) (data : option (list byte)) :
  op_is op_code OpCodes.STOP = false ->
  op_is op_code OpCodes.DISCONNECT = false ->
  keeps_connection (parse adapter op_code data).
Proof.
  intros Hstop Hdisc. unfold parse. rewrite Hstop, Hdisc.
  apply keeps_bind; [apply keeps_modify; intros s; destruct s; repeat split|].
  intros _.
  destruct (op_is op_code OpCodes.HELLO).
  { apply keeps_bind; [apply keeps_lift_app|]. intros _.
    apply keeps_bind; [apply keeps_service_initialize|]. intros _.
    apply keeps_when.
    apply keeps_bind; [apply keeps_eval|]. intros [[[application version] path] exe].
    repeat (apply keeps_bind;
            [first [apply keeps_eval
                   | apply keeps_lift_app
                   | apply keeps_modify; intros s; destruct s; repeat split]
            | intros ?]).
    apply keeps_lift_app. }
  repeat match goal with
         | |- keeps_connection (if ?c then _ else _) => destruct c
         end;
    first [apply keeps_lift_app | apply keeps_ret].
Qed.

(** *** Exceptions of handlers *)

Lemma frame_nonempty (m : message) (tail : list byte) :
  exists b rest, frame m ++ tail = b :: rest.
Proof. destruct m as [op body]. unfold frame, Codec.be32. simpl. eauto. Qed.

(** With data waiting on a healthy connection [recv] enters its loop. *)
Lemma recv_enters_loop (fuel : nat) (s : Service) (b : byte) (rest : list byte)
      waiting (d : bool) :
  has_client_sock s = true ->
  client_sockets s <> [] ->
  peer_condition s = Alive ->
  recv adapter fuel (mkWorld s (b :: rest) waiting d)
  = recv_loop adapter fuel (mkLocals (Some true) None None 0 None)
              (mkWorld s (b :: rest) waiting false).
Proof.
  intros H Hl Ha.
  unfold recv, bind, modify, get. simpl. rewrite H.
  unfold try_except, sock_select, bind, get, ret. simpl.
  destruct (client_sockets s); [congruence|]. rewrite Ha. reflexivity.
Qed.

Lemma ticked_same_connection (now : Q) (s : Service) : same_connection s (ticked now s).
Proof.
  unfold ticked. destruct s. cbn.
  destruct is_connected0; [repeat split|].
  destruct is_listening0; repeat split.
Qed.

(** For a client whose timer runs, a tick is [recv] on the ticked
    service followed by the rest of the tick. *)
Lemma loop_reaches_recv (fuel : nat) (now : Q) (s : Service) (pending : list byte)
      waiting (d : bool) :
  timer s = true ->
  globals_lost s = false ->
  server_sock s = None ->
  exists rest_of_tick,
    loop adapter fuel now (mkWorld s pending waiting d)
    = bind (recv adapter fuel) rest_of_tick (mkWorld (ticked now s) pending waiting d).
Proof.
  intros Ht Hg Hs.
  destruct s as [tm ss cs sss css ip port il ic ig pt kt t
                 ra rv rp re gl sb pc pf a].
  simpl in Ht, Hg, Hs. subst.
  eexists. unfold loop, ticked.
  destruct ic; [|destruct il]; reflexivity.
Qed.

(** C4, as stated, fails: a NOTIFY message without payload makes its
    handler raise; nothing is logged, and the exception leaves [loop], so
    the tick ends by it with the next message still unread. *)
Lemma notify_without_payload_ends_tick :
  exists w',
    loop Studio.adapter 8 1
         (Studio.receiving Studio.connected [(OpCodes.NOTIFY, []); Studio.ping])
      = Raise AttributeError w' /\
    trace (app (service w')) = [] /\
    rx w' = frame Studio.ping /\
    has_client_sock (service w') = true.
Proof.
  eexists. split; [vm_compute; reflexivity|].
  repeat split; reflexivity.
Qed.

(** *** Batches of messages *)

Lemma dispatch_ok (m : message) (s s1 : Service) :
  dispatch adapter m s = Ok tt s1 ->
  exists s0,
    parse adapter (fst m) (data_of m) s = Ok tt s0 /\
    s1 = set_app (record (Emit (Received (fst m) (data_of m))) (app s0)) s0.
Proof.
  unfold dispatch, bind. intros H.
  destruct (parse adapter (fst m) (data_of m) s) as [[] s0|e s0|] eqn:P;
    try discriminate.
  exists s0. split; [reflexivity|].
  unfold emit, lift_app, app_do, modify in H. congruence.
Qed.

Lemma dispatch_keeps_connection (m : message) (s s1 : Service) :
  closes_connection m = false ->
  peer_condition s = Alive ->
  dispatch adapter m s = Ok tt s1 ->
  same_connection s s1.
Proof.
  intros Hc Ha H. apply orb_false_elim in Hc. destruct Hc as [Hstop Hdisc].
  destruct (@dispatch_ok m s s1 H) as (s0 & P & ->).
  pose proof (@parse_keeps_connection (fst m) (data_of m) Hstop Hdisc s Ha) as K.
  rewrite P in K.
  eapply same_connection_trans; [exact K|].
  destruct s0; repeat split.
Qed.

(** One pass of the loop over a complete message whose handler returns
    and that leaves the connection open. *)
Lemma recv_iteration_dispatch (fuel : nat) (l : locals) (s s1 : Service) (m : message)
      (tail : list byte) waiting (d : bool) :
  well_formed m ->
  has_client_sock s = true ->
  client_sockets s <> [] ->
  peer_condition s = Alive ->
  (List.length (snd m) < fuel)%nat ->
  closes_connection m = false ->
  dispatch adapter m s = Ok tt s1 ->
  exists after,
    l_r after = l_r l /\
    l_count after = S (l_count l) /\
    l_op_code after = Some (fst m) /\
    recv_iteration adapter fuel l (mkWorld s (frame m ++ tail) waiting d)
    = match tail with
      | [] => Ok (Continue (with_r false after)) (mkWorld s1 [] waiting false)
      | _ :: _ =>
          Ok (if stops_batch after then Return else Continue (with_r true after))
             (mkWorld s1 tail waiting true)
      end /\
    same_connection s s1.
Proof.
  intros Hwf H Hl Ha Hfuel Hc Hd.
  destruct (has_client_sock_true _ H) as (c & Hcs & _).
  destruct (@recv_iteration_message fuel l s m tail waiting d c Hwf Hcs Ha Hfuel)
    as [chunk' R].
  pose proof (@dispatch_keeps_connection m s s1 Hc Ha Hd) as K.
  destruct (@dispatch_ok m s s1 Hd) as (s0 & P & E1).
  exists (mkLocals (l_r l) (Some (firstn 8 (frame m))) chunk' (S (l_count l))
                   (Some (fst m))).
  split; [reflexivity|]. split; [reflexivity|]. split; [reflexivity|].
  split; [|exact K].
  rewrite R.
  unfold bind, lift. cbn [service set_service]. rewrite P.
  unfold emit, lift_app, app_do, modify. cbn [service set_service]. rewrite <- E1.
  unfold set_service. cbn [service rx backlog is_data].
  destruct K as (K1 & K2 & K3 & K4).
  rewrite recv_reselect_open; try congruence.
Qed.

Lemma frames_cons (m : message) (ms : list message) :
  frames (m :: ms) = frame m ++ frames ms.
Proof. reflexivity. Qed.

Lemma frames_single (m : message) : frames [m] = frame m.
Proof. unfold frames. cbn [flat_map]. apply app_nil_r. Qed.

Lemma batch_nonempty (batch : list message) (last : message) (rest : list byte) :
  exists b tail, frames (batch ++ [last]) ++ rest = b :: tail.
Proof.
  destruct batch as [|m batch];
    [change ([] ++ [last]) with [last]
    |change ((m :: batch) ++ [last]) with (m :: (batch ++ [last]))];
    rewrite frames_cons, <- app_assoc; apply frame_nonempty.
Qed.

Lemma frame_length (m : message) :
  List.length (frame m) = (8 + List.length (snd m))%nat.
Proof. unfold frame. rewrite !length_app. reflexivity. Qed.

(** The loop of [recv] over a run of messages that pass, followed by a
    message at which the call ends. *)
Lemma recv_loop_batch (last : message) (rest : list byte) (s' : Service) waiting :
  forall (batch : list message) (fuel : nat) (l : locals) (s : Service) (d : bool),
    l_r l = Some true ->
    (l_count l + List.length batch < MAX_RECEIVE)%nat ->
    Forall well_formed (batch ++ [last]) ->
    (List.length (frames (batch ++ [last])) < fuel)%nat ->
    has_client_sock s = true ->
    client_sockets s <> [] ->
    peer_condition s = Alive ->
    Forall passes batch ->
    closes_connection last = false ->
    (l_count l + List.length batch + 1 = MAX_RECEIVE)%nat
      \/ is_notify last = true \/ rest = [] ->
    dispatch_all adapter (batch ++ [last]) s = Ok tt s' ->
    recv_loop adapter fuel l (mkWorld s (frames (batch ++ [last]) ++ rest) waiting d)
    = Ok tt (mkWorld s' rest waiting (more_data rest)).
Proof.
  induction batch as [|m batch IH];
    intros fuel l s d Hr Hcount Hwf Hfuel H Hl Ha Hpass Hlast Hend Hd.
  - (* the last message of the call *)
    change ([] ++ [last]) with [last] in *. rewrite frames_single in Hfuel |- *.
    destruct fuel as [|fuel]; [lia|].
    rewrite frame_length in Hfuel.
    unfold dispatch_all in Hd. cbn [for_each] in Hd. unfold bind in Hd.
    destruct (dispatch adapter last s) as [[] s1|e s1|] eqn:D; try discriminate.
    cbn [ret] in Hd. injection Hd as <-.
    inversion Hwf as [|? ? Hwf1 _]; subst.
    destruct (@recv_iteration_dispatch fuel l s s1 last rest waiting d
                Hwf1 H Hl Ha ltac:(lia) Hlast D)
      as (after & A1 & A2 & A3 & R & K).
    cbn [recv_loop]. rewrite Hr. unfold bind at 1. rewrite R.
    destruct rest as [|b rest].
    + destruct fuel; reflexivity.
    + assert (St : stops_batch after = true).
      { unfold stops_batch. rewrite A2, A3.
        destruct Hend as [E | [E | E]]; [| |discriminate].
        - replace (MAX_RECEIVE <=? S (l_count l))%nat with true
            by (symmetry; apply Nat.leb_le; simpl in E; lia).
          reflexivity.
        - unfold is_notify in E. unfold op_is. rewrite E. apply orb_true_r. }
      rewrite St. reflexivity.
  - (* a message that passes *)
    change ((m :: batch) ++ [last]) with (m :: (batch ++ [last])) in *.
    rewrite frames_cons in Hfuel |- *. rewrite <- app_assoc.
    destruct fuel as [|fuel]; [lia|].
    rewrite length_app, frame_length in Hfuel.
    unfold dispatch_all in Hd. cbn [for_each] in Hd. unfold bind in Hd.
    destruct (dispatch adapter m s) as [[] s1|e s1|] eqn:D; try discriminate.
    inversion Hwf as [|? ? Hwf1 Hwf2]; subst.
    inversion Hpass as [|? ? [Pc Pn] Hpass2]; subst.
    destruct (@recv_iteration_dispatch fuel l s s1 m (frames (batch ++ [last]) ++ rest)
                waiting d Hwf1 H Hl Ha ltac:(lia) Pc D)
      as (after & A1 & A2 & A3 & R & K).
    cbn [recv_loop]. rewrite Hr. unfold bind at 1. rewrite R.
    destruct (batch_nonempty batch last rest) as (b & tail & T). rewrite T.
    assert (St : stops_batch after = false).
    { unfold stops_batch. rewrite A2, A3.
      replace (MAX_RECEIVE <=? S (l_count l))%nat with false
        by (symmetry; apply Nat.leb_gt; simpl in Hcount; lia).
      unfold is_notify in Pn. unfold op_is. rewrite Pn. reflexivity. }
    rewrite St. rewrite <- T.
    destruct K as (K1 & K2 & K3 & K4).
    apply IH; try assumption; try congruence; try reflexivity;
      cbn [with_r l_count]; try rewrite A2; simpl in Hcount; try lia.
    destruct Hend as [E | [E | E]];
      [left; simpl in E; lia | right; left; exact E | right; right; exact E].
Qed.

(** The loop of [recv] over a run of messages that pass, followed by a
    message whose handler raises. *)
Lemma recv_loop_raise (m : message) (tail : list byte) (s0 s1 : Service) (e : exn)
      waiting :
  forall (batch : list message) (fuel : nat) (l : locals) (s : Service) (d : bool),
    l_r l = Some true ->
    (l_count l + List.length batch < MAX_RECEIVE)%nat ->
    Forall well_formed (batch ++ [m]) ->
    (List.length (frames batch) + List.length (snd m) + 1 < fuel)%nat ->
    has_client_sock s = true ->
    client_sockets s <> [] ->
    peer_condition s = Alive ->
    Forall passes batch ->
    dispatch_all adapter batch s = Ok tt s0 ->
    parse adapter (fst m) (data_of m) s0 = Raise e s1 ->
    recv_loop adapter fuel l (mkWorld s (frames (batch ++ [m]) ++ tail) waiting d)
    = Raise e (mkWorld s1 tail waiting (match batch with [] => d | _ :: _ => true end))
    /\ same_connection s s0.
Proof.
  induction batch as [|m1 batch IH];
    intros fuel l s d Hr Hcount Hwf Hfuel H Hl Ha Hpass Hd Hp.
  - (* the message whose handler raises *)
    change ([] ++ [m]) with [m] in *. rewrite frames_single.
    unfold dispatch_all in Hd. cbn [for_each ret] in Hd. injection Hd as <-.
    split; [|apply same_connection_refl].
    destruct fuel as [|fuel]; [simpl in Hfuel; lia|].
    inversion Hwf as [|? ? Hwf1 _]; subst.
    destruct (has_client_sock_true _ H) as (c & Hc & _).
    cbn [recv_loop]. rewrite Hr. unfold bind at 1.
    destruct (@recv_iteration_message fuel l s m tail waiting d c Hwf1 Hc Ha
                ltac:(simpl in Hfuel; lia)) as [chunk' R].
    rewrite R. unfold bind at 1. unfold lift at 1. cbn [service].
    rewrite Hp. reflexivity.
  - (* a message that passes *)
    change ((m1 :: batch) ++ [m]) with (m1 :: (batch ++ [m])) in *.
    rewrite frames_cons in Hfuel |- *. rewrite <- app_assoc.
    destruct fuel as [|fuel]; [lia|].
    rewrite length_app, frame_length in Hfuel.
    unfold dispatch_all in Hd. cbn [for_each] in Hd. unfold bind in Hd.
    destruct (dispatch adapter m1 s) as [[] s'|e' s'|] eqn:D; try discriminate.
    inversion Hwf as [|? ? Hwf1 Hwf2]; subst.
    inversion Hpass as [|? ? [Pc Pn] Hpass2]; subst.
    destruct (@recv_iteration_dispatch fuel l s s' m1 (frames (batch ++ [m]) ++ tail)
                waiting d Hwf1 H Hl Ha ltac:(lia) Pc D)
      as (after & A1 & A2 & A3 & R & K).
    cbn [recv_loop]. rewrite Hr. unfold bind at 1. rewrite R.
    destruct (batch_nonempty batch m tail) as (b & rest & T). rewrite T.
    assert (St : stops_batch after = false).
    { unfold stops_batch. rewrite A2, A3.
      replace (MAX_RECEIVE <=? S (l_count l))%nat with false
        by (symmetry; apply Nat.leb_gt; simpl in Hcount; lia).
      unfold is_notify in Pn. unfold op_is. rewrite Pn. reflexivity. }
    rewrite St. rewrite <- T.
    destruct K as (K1 & K2 & K3 & K4).
    destruct (IH fuel (with_r true after) s' true) as [E K'];
      try assumption; try congruence; try reflexivity;
      cbn [with_r l_count]; try rewrite A2; simpl in Hcount; try lia.
    split.
    + rewrite E. destruct batch; reflexivity.
    + eapply same_connection_trans; [|exact K']. repeat split; assumption.
Qed.

(** C4, amended. An exception raised by the handler of a complete
    message that does not close the connection is not caught at the
    dispatch boundary: it leaves [parse], [recv] and [loop].  Whatever
    messages were dispatched before it in the same call of [recv], the
    scheduler tick ends with that exception once the message has been
    read, with the service as the handler left it and the bytes after the
    message still unread.  The connection is not closed by it: the peer
    socket is still held and still listed, the peer is as it was, and the
    service is still connected or connecting. *)
Theorem handler_exception_ends_tick (fuel : nat) (now : Q) (batch : list message)
        (m : message) (tail : list byte) (s s0 s1 : Service) (e : exn)
        waiting (d : bool) :
  Forall well_formed (batch ++ [m]) ->
  (List.length (frames batch) + List.length (snd m) + 1 < fuel)%nat ->
  timer s = true ->
  globals_lost s = false ->
  server_sock s = None ->
  has_client_sock s = true ->
  client_sockets s <> [] ->
  peer_condition s = Alive ->
  Forall passes batch ->
  (List.length batch < MAX_RECEIVE)%nat ->
  closes_connection m = false ->
  dispatch_all adapter batch (ticked now s) = Ok tt s0 ->
  parse adapter (fst m) (data_of m) s0 = Raise e s1 ->
  loop adapter fuel now (mkWorld s (frames (batch ++ [m]) ++ tail) waiting d)
    = Raise e (mkWorld s1 tail waiting
                       (match batch with [] => false | _ :: _ => true end)) /\
  same_connection s s1 /\
  has_client_sock s1 = true.
Proof.
  intros Hwf Hfuel Ht Hg Hs H Hl Ha Hpass Hlen Hc Hd Hp.
  destruct (ticked_same_connection now s) as (T1 & T2 & T3 & T4).
  apply orb_false_elim in Hc. destruct Hc as [Hstop Hdisc].
  destruct (@recv_loop_raise m tail s0 s1 e waiting batch fuel
              (mkLocals (Some true) None None 0 None) (ticked now s) false)
    as [E K0]; try assumption; try congruence; try reflexivity.
  assert (K : same_connection s0 s1).
  { pose proof (@parse_keeps_connection (fst m) (data_of m) Hstop Hdisc
                  s0 ltac:(destruct K0 as (_ & _ & X & _); congruence)) as P.
    rewrite Hp in P. exact P. }
  assert (S1 : same_connection s s1).
  { eapply same_connection_trans; [apply ticked_same_connection|].
    eapply same_connection_trans; [exact K0 | exact K]. }
  split; [|split; [exact S1 | destruct S1 as (_ & _ & _ & X); congruence]].
  destruct (@loop_reaches_recv fuel now s (frames (batch ++ [m]) ++ tail) waiting d
              Ht Hg Hs) as [rest_of_tick L].
  rewrite L. unfold bind.
  destruct (batch_nonempty batch m tail) as (b & rest & T). rewrite T.
  rewrite recv_enters_loop by congruence. rewrite <- T.
  rewrite E. reflexivity.
Qed.

(** C3, amended.  A call of [recv] on a healthy connection reads a run
    of complete messages and ends at the first one that is a NOTIFY, or
    the [MAX_RECEIVE]-th, or the last one queued, provided none of them
    closes the connection and their handlers return: exactly those
    messages are dispatched, in order, and what follows stays queued.
    So with more than [MAX_RECEIVE] such messages and no NOTIFY among
    the first [MAX_RECEIVE], exactly [MAX_RECEIVE] are parsed; and after
    a NOTIFY the call returns whatever the count. *)
Theorem recv_processes_one_batch (fuel : nat) (batch : list message) (last : message)
        (rest : list byte) (s s' : Service) waiting (d : bool) :
  Forall well_formed (batch ++ [last]) ->
  (List.length (frames (batch ++ [last])) < fuel)%nat ->
  has_client_sock s = true ->
  client_sockets s <> [] ->
  peer_condition s = Alive ->
  Forall passes batch ->
  closes_connection last = false ->
  (List.length batch < MAX_RECEIVE)%nat ->
  (List.length batch + 1 = MAX_RECEIVE)%nat \/ is_notify last = true \/ rest = [] ->
  dispatch_all adapter (batch ++ [last]) s = Ok tt s' ->
  recv adapter fuel (mkWorld s (frames (batch ++ [last]) ++ rest) waiting d)
  = Ok tt (mkWorld s' rest waiting (more_data rest)).
Proof.
  intros Hwf Hfuel H Hl Ha Hpass Hlast Hlen Hend Hd.
  destruct (batch_nonempty batch last rest) as (b & tail & T). rewrite T.
  rewrite recv_enters_loop by assumption. rewrite <- T.
  apply recv_loop_batch; try assumption; try reflexivity.
Qed.

(** The other half of C2: when the header read fails on a reset
    connection, [service_lost] does run, the signal is emitted and the
    socket is dropped; [recv] then goes on to test [header], which is not
    bound on the first pass. *)
Lemma recv_on_reset_connection :
  exists w',
    recv adapter 8 (mkWorld (set_peer_condition Reset Studio.connected) [] [] false)
      = Raise UnboundLocalError w' /\
    has_client_sock (service w') = false /\
    client_sock (service w') = None /\
    In (Emit LostConnection) (trace (app (service w'))).
Proof.
  eexists. split; [vm_compute; reflexivity|].
  repeat split; simpl; auto 10.
Qed.

End ReceiveFacts.

(** Instances in the studio. *)

Lemma recv_spins_after_orderly_close_witness :
  (forall fuel l, (l_count l < MAX_RECEIVE)%nat ->
     recv_iteration Studio.adapter fuel l
       (mkWorld (set_peer_condition PeerClosed Studio.connected) [] [] false)
     = Ok (Continue (mkLocals (Some true) (Some []) (l_chunk l) (l_count l) None))
          (mkWorld (set_peer_condition PeerClosed Studio.connected) [] [] true)) /\
  (forall fuel,
     recv Studio.adapter fuel (mkWorld (set_peer_condition PeerClosed Studio.connected) [] [] false)
     = Diverge).
Proof.
  apply (@recv_spins_after_orderly_close Studio.adapter
           (set_peer_condition PeerClosed Studio.connected) [] false).
  - reflexivity.
  - discriminate.
  - reflexivity.
Defined.

Lemma handler_exception_ends_tick_witness :
  exists s1,
    loop Studio.adapter 20 1
         (mkWorld Studio.connected
                  (frames ([Studio.ping] ++ [(OpCodes.NOTIFY, [])]) ++ frame Studio.ping)
                  [] false)
      = Raise AttributeError (mkWorld s1 (frame Studio.ping) [] true) /\
    same_connection Studio.connected s1 /\
    has_client_sock s1 = true.
Proof.
  eexists.
  eapply (@handler_exception_ends_tick Studio.adapter 20 1 [Studio.ping]
           (OpCodes.NOTIFY, []) (frame Studio.ping) Studio.connected _ _
           AttributeError [] false).
  - repeat first [apply Forall_nil | apply Forall_cons; [split; reflexivity|]].
  - apply Nat.ltb_lt. vm_compute. reflexivity.
  - reflexivity.
  - reflexivity.
  - reflexivity.
  - reflexivity.
  - discriminate.
  - reflexivity.
  - repeat first [apply Forall_nil | apply Forall_cons; [split; reflexivity|]].
  - apply Nat.ltb_lt. vm_compute. reflexivity.
  - reflexivity.
  - vm_compute. reflexivity.
  - vm_compute. reflexivity.
Defined.

(** C3, as stated, fails: twenty-six complete messages are queued, none
    of them a NOTIFY, the first a STOP; one call of [recv] parses that one
    message and returns, with the twenty-five others still queued. *)
Lemma stop_ends_batch_early :
  (MAX_RECEIVE < List.length (Studio.stop :: repeat Studio.ping 25))%nat /\
  forallb (fun m => negb (is_notify m)) (Studio.stop :: repeat Studio.ping 25) = true /\
  exists w',
    recv Studio.adapter 100
         (Studio.receiving Studio.connected (Studio.stop :: repeat Studio.ping 25))
      = Ok tt w' /\
    received (trace (app (service w'))) = [(OpCodes.STOP, None)] /\
    rx w' = frames (repeat Studio.ping 25).
Proof.
  split; [unfold MAX_RECEIVE; simpl; lia|].
  split; [reflexivity|].
  eexists. split; [vm_compute; reflexivity|].
  split; reflexivity.
Qed.

Lemma recv_processes_one_batch_witness :
  exists s',
    recv Studio.adapter 300
         (mkWorld Studio.connected
                  (frames (repeat Studio.ping 23 ++ [Studio.ping])
                   ++ frames [Studio.ping; Studio.ping]) [] false)
    = Ok tt (mkWorld s' (frames [Studio.ping; Studio.ping]) []
                     (more_data (frames [Studio.ping; Studio.ping]))).
Proof.
  eexists.
  apply (@recv_processes_one_batch Studio.adapter 300 (repeat Studio.ping 23)
           Studio.ping (frames [Studio.ping; Studio.ping]) Studio.connected _ [] false).
  - repeat first [apply Forall_nil | apply Forall_cons; [split; reflexivity|]].
  - apply Nat.ltb_lt. vm_compute. reflexivity.
  - reflexivity.
  - discriminate.
  - reflexivity.
  - repeat first [apply Forall_nil | apply Forall_cons; [split; reflexivity|]].
  - reflexivity.
  - apply Nat.ltb_lt. vm_compute. reflexivity.
  - left. reflexivity.
  - vm_compute. reflexivity.
Defined.

(** ** Pose records *)

Module PoseFacts.
Import Pose.

Lemma scaled_back (x : Q) : Qabs (x - x * 100 * (1 # 100)) <= 0.
Proof.
  assert (E : x - x * 100 * (1 # 100) == 0) by field.
  rewrite E. apply Qle_refl.
Qed.

(** In the rigified branch the factor 100 of the encoder and the factor
    0.01 of the decoder cancel, in exact arithmetic. *)
Lemma rigified_translation_round_trip (T : transform) :
  translation_within 0 T (decode_bone (scale_translation 100 T)).
Proof.
  unfold translation_within, Qabs_diff, decode_bone, scale_translation.
  cbn [tx ty tz].
  repeat split; apply scaled_back.
Qed.

Lemma within_wider (eps eps' : Q) (A B : transform) :
  eps <= eps' -> translation_within eps A B -> translation_within eps' A B.
Proof.
  unfold translation_within. intros H (X & Y & Z).
  repeat split; eapply Qle_trans; eassumption.
Qed.

End PoseFacts.

(** C1. The branch of [encode_pose_data] for a character that is not
    rigified packs the translation as it is, where the rigified branch
    packs it times 100; the bone loop of the decoder multiplies the
    translation of every record it reads by 0.01.  For a bone at
    (1, 2, 3) the record of the rigified branch holds (100, 200, 300) and
    is taken back to within 1e-5 of the bone; the record of the other
    branch holds (1, 2, 3), and the factor 0.01 takes it 0.99 away. *)
Theorem nonrigified_translation_not_scaled :
  let T := Pose.mkTransform 1 2 3 0 0 0 1 1 1 1 in
  let bone := Pose.mkPoseBone "hip" T in
  Pose.encode_bones true [bone] = Pose.pack_floats (Pose.scale_translation 100 T) /\
  Pose.encode_bones false [bone] = Pose.pack_floats T /\
  Pose.pack_floats T = [1; 2; 3; 0; 0; 0; 1; 1; 1; 1] /\
  Pose.translation_within (1 # 100000) T
    (Pose.decode_bone (Pose.scale_translation 100 T)) /\
  ~ Pose.translation_within (1 # 100000) T (Pose.decode_bone T).
Proof.
  cbv zeta.
  split; [reflexivity|]. split; [reflexivity|]. split; [reflexivity|]. split.
  - eapply PoseFacts.within_wider; [|apply PoseFacts.rigified_translation_round_trip].
    discriminate.
  - intros [H _]. vm_compute in H. apply H. reflexivity.
Qed.

(** * Further properties of the code *)

(** ** Wire codec *)

Lemma skipn_past_prefix {A} (pre rest : list A) :
  skipn (List.length pre) (pre ++ rest) = rest.
Proof. rewrite skipn_app, skipn_all, Nat.sub_diag. reflexivity. Qed.

Lemma firstn_of_prefix {A} (pre rest : list A) :
  firstn (List.length pre) (pre ++ rest) = pre.
Proof. rewrite firstn_app, Nat.sub_diag, firstn_all. simpl. apply app_nil_r. Qed.

(** A string of ASCII characters that [pack_string] has written is read
    back by [unpack_string] wherever it stands in a buffer: the string
    comes back as it was and the offset returned is the one just past it,
    so that strings written one after the other are read one after the
    other, as [decode_pose_data] reads a name and a link id. *)
Theorem unpack_string_reads_packed_string (s : Codec.pystr) (before after : list byte) :
  Forall (fun c => (c < 128)%N) s ->
  (N.of_nat (List.length s) < 4294967296)%N ->
  exists packed,
    Codec.pack_string s = Val packed /\
    Codec.unpack_string (before ++ packed ++ after) (N.of_nat (List.length before))
    = Val ((N.of_nat (List.length before) + 4 + N.of_nat (List.length s))%N, s).
Proof.
  intros Hs Hlen.
  assert (Hb : Forall (fun c => (c < 256)%N) s).
  { eapply Forall_impl; [|exact Hs]. simpl. intros; lia. }
  exists (Codec.be32 (N.of_nat (List.length s)) ++ Codec.bytes_of s). split.
  - unfold Codec.pack_string, Codec.pack_u32, Codec.encode_utf8.
    apply N.ltb_lt in Hlen. rewrite Hlen.
    now rewrite CodecFacts.utf8_encode_ascii.
  - unfold Codec.unpack_string, Codec.unpack_u32_from.
    rewrite Nat2N.id, skipn_past_prefix.
    set (n := N.of_nat (List.length s)) in *.
    assert (E4 : forall rest, Codec.be32 n ++ rest
                 = Codec.byte_of_N (n / 16777216) :: Codec.byte_of_N (n / 65536)
                   :: Codec.byte_of_N (n / 256) :: Codec.byte_of_N n :: rest)
      by reflexivity.
    rewrite <- app_assoc, E4 at 1.
    rewrite CodecFacts.u32_of_be32 by exact Hlen.
    clear E4. subst n.
    unfold Codec.slice.
    replace (N.to_nat (N.of_nat (List.length before) + 4))
      with (List.length (before ++ Codec.be32 (N.of_nat (List.length s))))
      by (rewrite length_app; simpl; lia).
    replace (before ++ (Codec.be32 (N.of_nat (List.length s)) ++ Codec.bytes_of s) ++ after)
      with ((before ++ Codec.be32 (N.of_nat (List.length s))) ++ Codec.bytes_of s ++ after)
      by (rewrite <- !app_assoc; reflexivity).
    rewrite skipn_past_prefix.
    replace (N.to_nat (N.of_nat (List.length s))) with (List.length (Codec.bytes_of s))
      by (unfold Codec.bytes_of; rewrite length_map; lia).
    rewrite firstn_of_prefix.
    unfold Codec.decode_utf8. rewrite CodecFacts.values_of_bytes_of by exact Hb.
    rewrite CodecFacts.utf8_decode_ascii by exact Hs.
    reflexivity.
Qed.

Lemma unpack_string_reads_packed_string_witness :
  exists packed,
    Codec.pack_string [75; 101; 118]%N = Val packed /\
    Codec.unpack_string (Codec.bytes_of [0; 0; 0; 1]%N ++ packed ++ Codec.bytes_of [9]%N)
                        (N.of_nat (List.length (Codec.bytes_of [0; 0; 0; 1]%N)))
    = Val ((N.of_nat (List.length (Codec.bytes_of [0; 0; 0; 1]%N)) + 4
            + N.of_nat (List.length [75; 101; 118]%N))%N, [75; 101; 118]%N).
Proof.
  apply (@unpack_string_reads_packed_string [75; 101; 118]%N
           (Codec.bytes_of [0; 0; 0; 1]%N) (Codec.bytes_of [9]%N)).
  - repeat constructor.
  - reflexivity.
Defined.

Lemma unpack_string_needs_length_field_witness :
  Codec.unpack_string (Codec.bytes_of [0; 0; 0; 1; 97; 0; 0]%N) 5 = Exc StructError.
Proof.
  apply (@unpack_string_needs_length_field (Codec.bytes_of [0; 0; 0; 1; 97; 0; 0]%N) 5%N).
  reflexivity.
Defined.

(** The header that [send] packs is the header that [recv] unpacks:
    [struct.pack("!II", op_code, data_length)] gives eight bytes exactly
    when both numbers fit 32 bits, and [struct.unpack("!II", header)]
    gives the two numbers back; otherwise the packing raises. *)
Theorem unpack_header_inverts_pack_header (op_code data_length : N) :
  match pack_header op_code data_length with
  | Val header =>
      (op_code < 4294967296)%N /\ (data_length < 4294967296)%N /\
      List.length header = 8%nat /\
      unpack_header header = Some (op_code, data_length)
  | Exc e =>
      e = StructError /\
      ((4294967296 <= op_code)%N \/ (4294967296 <= data_length)%N)
  end.
Proof.
  unfold pack_header, Codec.pack_u32.
  destruct (N.ltb_spec op_code 4294967296) as [Ho|Ho];
    destruct (N.ltb_spec data_length 4294967296) as [Hn|Hn]; auto.
  repeat split; auto.
  unfold Codec.be32. simpl. now rewrite !CodecFacts.u32_of_be32.
Qed.

(** ** Sending *)

(** Case analysis on the fields of a service that the connection manager
    branches on. *)
Ltac service_fields s :=
  destruct s as [[|] [l|] [c|] sss css ip port il [|] [|] pt kt t
                 ra rv rp re gl sb [| | |] [|] a].

Lemma pack_header_well_formed (m : message) :
  well_formed m ->
  pack_header (fst m) (N.of_nat (List.length (snd m)))
  = Val (Codec.be32 (fst m) ++ Codec.be32 (N.of_nat (List.length (snd m)))).
Proof.
  intros [Ho Hn]. unfold pack_header, Codec.pack_u32.
  apply N.ltb_lt in Ho, Hn. now rewrite Ho, Hn.
Qed.

Lemma pack_header_not_well_formed (m : message) :
  ~ well_formed m ->
  pack_header (fst m) (N.of_nat (List.length (snd m))) = Exc StructError.
Proof.
  intros H. unfold pack_header, Codec.pack_u32.
  destruct (N.ltb_spec (fst m) 4294967296) as [Ho|Ho];
    destruct (N.ltb_spec (N.of_nat (List.length (snd m))) 4294967296) as [Hn|Hn];
    try reflexivity.
  exfalso. apply H. split; assumption.
Qed.

(** [send] by cases: nothing without a peer; with one, the frame is
    written, or the failure branch runs. *)
Lemma send_unfolded (s : Service) (op_code : N) (binary_data : option (list byte)) :
  send op_code binary_data s
  = if has_client_sock s then
      match pack_header op_code (N.of_nat (List.length (body_of binary_data))) with
      | Val _ =>
          match peer_condition s with
          | Alive | PeerClosed => Ok tt (after_send (op_code, body_of binary_data) s)
          | Reset | Invalid => send_failed s
          end
      | Exc _ => send_failed s
      end
    else Ok tt s.
Proof.
  unfold send, has_client_sock, bind, get, when.
  destruct (truthy (client_sock s) && (is_connected s || is_connecting s));
    [|reflexivity].
  assert (E : (if nonempty binary_data
               then N.of_nat (List.length (body_of binary_data)) else 0%N)
              = N.of_nat (List.length (body_of binary_data)))
    by (destruct binary_data as [[|b bs]|]; reflexivity).
  unfold body_of in E |- *. rewrite E. clear E.
  unfold try_except, eval, pack_header, Codec.pack_u32, bind.
  destruct (op_code <? 4294967296)%N; [|reflexivity].
  destruct (_ <? 4294967296)%N; [|reflexivity].
  unfold ret, sock_sendall, bind, get, modify, raise.
  destruct s as [tm ss cs sss css ip port il ic ig pt kt t
                 ra rv rp re gl sb [| | |] pf a];
    destruct binary_data as [[|b bs]|]; reflexivity.
Qed.

(** On a healthy connection [send] writes exactly one frame, the eight
    byte header followed by the payload, starts the ping countdown again
    and emits [sent]; nothing else changes. A payload that is absent and
    one that is empty are written alike, as a header with length zero. *)
Theorem send_writes_one_frame (s : Service) (op_code : N)
        (binary_data : option (list byte)) :
  has_client_sock s = true ->
  peer_condition s = Alive ->
  well_formed (op_code, body_of binary_data) ->
  send op_code binary_data s
  = Ok tt (set_app (record (Emit Sent) (app s))
             (set_ping_timer PING_INTERVAL_S
                (set_sent_bytes
                   (sent_bytes s ++ Codec.be32 op_code
                      ++ Codec.be32 (N.of_nat (List.length (body_of binary_data)))
                      ++ body_of binary_data) s))).
Proof.
  intros H Ha Hwf. rewrite send_unfolded, H.
  pose proof (pack_header_well_formed Hwf) as P. cbn [fst snd] in P.
  rewrite P, Ha. reflexivity.
Qed.

Lemma send_writes_one_frame_witness :
  send OpCodes.PING (Some [x01; x02]) Studio.connected
  = Ok tt (set_app (record (Emit Sent) (app Studio.connected))
             (set_ping_timer PING_INTERVAL_S
                (set_sent_bytes
                   (sent_bytes Studio.connected ++ Codec.be32 OpCodes.PING
                      ++ Codec.be32 (N.of_nat (List.length (body_of (Some [x01; x02]))))
                      ++ body_of (Some [x01; x02])) Studio.connected))).
Proof.
  apply (@send_writes_one_frame Studio.connected OpCodes.PING (Some [x01; x02])).
  - reflexivity.
  - reflexivity.
  - split; reflexivity.
Defined.

Lemma send_failed_loses_service (s : Service) :
  exists s',
    send_failed s = Ok tt s' /\
    has_client_sock s' = false /\
    client_sock s' = None /\
    timer s' = false /\
    server_sock s' = None /\
    is_listening s' = false /\
    sent_bytes s' = sent_bytes s /\
    In (Emit LostConnection) (trace (app s')) /\
    In (LogError "Client socket send failed!") (trace (app s')).
Proof.
  service_fields s;
    (eexists; split; [vm_compute; reflexivity | repeat split; simpl; auto 10]).
Qed.

(** When the write fails, because the connection is reset or unusable or
    because the opcode or the payload length does not fit the header,
    [send] does not raise: it logs the failure and gives the service up as
    lost, with the timer stopped, the peer socket and the server socket
    dropped and [lost_connection] emitted; nothing is written. *)
Theorem send_failure_loses_service (s : Service) (op_code : N)
        (binary_data : option (list byte)) :
  has_client_sock s = true ->
  peer_condition s = Reset \/ peer_condition s = Invalid
    \/ ~ well_formed (op_code, body_of binary_data) ->
  exists s',
    send op_code binary_data s = Ok tt s' /\
    has_client_sock s' = false /\
    client_sock s' = None /\
    timer s' = false /\
    server_sock s' = None /\
    is_listening s' = false /\
    sent_bytes s' = sent_bytes s /\
    In (Emit LostConnection) (trace (app s')) /\
    In (LogError "Client socket send failed!") (trace (app s')).
Proof.
  intros H Hfail.
  destruct (send_failed_loses_service s) as (s' & E & P).
  exists s'. split; [|exact P].
  rewrite send_unfolded, H.
  destruct Hfail as [Hc | [Hc | Hwf]].
  - rewrite Hc. destruct (pack_header _ _); exact E.
  - rewrite Hc. destruct (pack_header _ _); exact E.
  - pose proof (pack_header_not_well_formed Hwf) as X. cbn [fst snd] in X.
    rewrite X. exact E.
Qed.

Lemma send_failure_loses_service_witness :
  exists s',
    send OpCodes.PING None (set_peer_condition Reset Studio.connected) = Ok tt s' /\
    has_client_sock s' = false /\
    client_sock s' = None /\
    timer s' = false /\
    server_sock s' = None /\
    is_listening s' = false /\
    sent_bytes s' = sent_bytes (set_peer_condition Reset Studio.connected) /\
    In (Emit LostConnection) (trace (app s')) /\
    In (LogError "Client socket send failed!") (trace (app s')).
Proof.
  apply (@send_failure_loses_service (set_peer_condition Reset Studio.connected)
           OpCodes.PING None).
  - reflexivity.
  - left. reflexivity.
Defined.

(** No exception leaves [send], whatever the state of the service, the
    opcode and the payload: every failure inside it ends in the failure
    branch, which returns. *)
Theorem send_never_raises (s : Service) (op_code : N) (binary_data : option (list byte)) :
  exists s', send op_code binary_data s = Ok tt s'.
Proof.
  destruct (send_failed_loses_service s) as (s' & E & _).
  rewrite send_unfolded.
  destruct (has_client_sock s); [|eauto].
  destruct (pack_header _ _); [|eauto].
  destruct (peer_condition s); eauto.
Qed.

(** ** Connection manager *)

(** [stop_client] always returns, with the peer forgotten: no socket, not
    connected, not connecting.  It sets the keepalive countdown to the
    handshake timeout whether or not the service listens (the test is on
    the signal object), emits [client_stopped] and [changed] even when
    there was no client, and leaves the timer and the server side alone. *)
Theorem stop_client_forgets_peer (s : Service) :
  exists s',
    stop_client s = Ok tt s' /\
    client_sock s' = None /\
    client_sockets s' = [] /\
    is_connected s' = false /\
    is_connecting s' = false /\
    keepalive_timer s' = HANDSHAKE_TIMEOUT_S /\
    timer s' = timer s /\
    server_sock s' = server_sock s /\
    is_listening s' = is_listening s /\
    sent_bytes s' = sent_bytes s /\
    trace (app s')
    = Emit Changed :: Emit ClientStopped
        :: (if truthy (client_sock s) then [LogInfo "Closing Client Socket"] else [])
        ++ trace (app s).
Proof.
  service_fields s;
    (eexists; split; [vm_compute; reflexivity | repeat split]).
Qed.

(** The handshake completes once.  While connecting on a healthy socket,
    [service_initialize] makes the service connected, writes one NOTIFY
    frame with the message Connected and emits [sent], [connected] and
    [changed]; run again on the result, it does nothing. *)
Theorem handshake_completes_once (s : Service) (peer : socket) :
  is_connecting s = true ->
  client_sock s = Some peer ->
  peer_condition s = Alive ->
  exists s',
    service_initialize s = Ok tt s' /\
    is_connected s' = true /\
    is_connecting s' = false /\
    sent_bytes s' = sent_bytes s ++ frame (OpCodes.NOTIFY, json_message "Connected") /\
    trace (app s') = Emit Changed :: Emit Connected :: Emit Sent :: trace (app s) /\
    service_initialize s' = Ok tt s'.
Proof.
  intros H1 H2 H3.
  service_fields s; simpl in H1, H2, H3; try discriminate;
    (eexists; split; [vm_compute; reflexivity | repeat split]).
Qed.

Lemma handshake_completes_once_witness :
  exists s',
    service_initialize (set_is_connecting true (set_is_connected false Studio.connected))
      = Ok tt s' /\
    is_connected s' = true /\
    is_connecting s' = false /\
    sent_bytes s'
      = sent_bytes (set_is_connecting true (set_is_connected false Studio.connected))
          ++ frame (OpCodes.NOTIFY, json_message "Connected") /\
    trace (app s')
      = Emit Changed :: Emit Connected :: Emit Sent
          :: trace (app (set_is_connecting true (set_is_connected false Studio.connected))) /\
    service_initialize s' = Ok tt s'.
Proof.
  apply (@handshake_completes_once
           (set_is_connecting true (set_is_connected false Studio.connected)) PeerSocket);
    reflexivity.
Defined.

(** When the port can be bound, [start_server] of a service without a
    server socket ends listening on one, with the keepalive countdown at
    the handshake timeout and [listening] and [changed] emitted; run again
    on the result, it does nothing. *)
Theorem start_server_listens (s : Service) :
  server_sock s = None ->
  port_free s = true ->
  exists s',
    start_server s = Ok tt s' /\
    server_sock s' = Some ServerSocket /\
    server_sockets s' = [ServerSocket] /\
    is_listening s' = true /\
    keepalive_timer s' = HANDSHAKE_TIMEOUT_S /\
    client_sock s' = client_sock s /\
    trace (app s')
    = Emit Changed :: Emit Listening :: LogInfo "Listening on TCP *:9334"
        :: trace (app s) /\
    start_server s' = Ok tt s'.
Proof.
  intros H1 H2.
  service_fields s; simpl in H1, H2; try discriminate;
    (eexists; split; [vm_compute; reflexivity | repeat split]).
Qed.

Lemma start_server_listens_witness :
  exists s',
    start_server Studio.idle = Ok tt s' /\
    server_sock s' = Some ServerSocket /\
    server_sockets s' = [ServerSocket] /\
    is_listening s' = true /\
    keepalive_timer s' = HANDSHAKE_TIMEOUT_S /\
    client_sock s' = client_sock Studio.idle /\
    trace (app s')
    = Emit Changed :: Emit Listening :: LogInfo "Listening on TCP *:9334"
        :: trace (app Studio.idle) /\
    start_server s' = Ok tt s'.
Proof.
  apply (@start_server_listens Studio.idle); reflexivity.
Defined.

Lemma check_service_resets_registry_witness :
  exists s',
    check_service (set_globals_lost true Studio.in_session) = Ok true s' /\
    actors (link_data (app s')) = [] /\
    sequence_actors (link_data (app s')) = None /\
    pose_actors (link_data (app s')) = None /\
    client_sock s' = client_sock (set_globals_lost true Studio.in_session).
Proof.
  apply (@check_service_resets_registry (set_globals_lost true Studio.in_session)).
  reflexivity.
Defined.

(** ** Opcode dispatcher *)

Section DispatchFacts.

Variable adapter : Adapter.

Lemma not_handled (op_code c : N) :
  ~ In op_code handled_opcodes -> In c handled_opcodes -> op_is op_code c = false.
Proof.
  intros Hn Hc. unfold op_is. apply N.eqb_neq. intros ->. contradiction.
Qed.

(** A message whose opcode [parse] has no branch for, such as
    PROP_UPDATE or NONE or a number outside the enumeration, is dropped:
    [parse] returns normally and has reset the keepalive countdown, and
    nothing else in the service has changed; no handler runs, nothing is
    logged. *)
Theorem unknown_opcode_only_resets_keepalive (op_code : N) (data : option (list byte))
        (s : Service) :
  ~ In op_code handled_opcodes ->
  parse adapter op_code data s = Ok tt (set_keepalive_timer KEEPALIVE_TIMEOUT_S s).
Proof.
  intros H. unfold parse, bind, modify.
  repeat match goal with
         | |- context [op_is op_code ?c] =>
             rewrite (@not_handled op_code c H)
               by (unfold handled_opcodes;
                   repeat first [left; reflexivity | right])
         end.
  reflexivity.
Qed.

End DispatchFacts.

Lemma unknown_opcode_only_resets_keepalive_witness :
  parse Studio.adapter OpCodes.PROP_UPDATE (Some Studio.json_bytes) Studio.connected
  = Ok tt (set_keepalive_timer KEEPALIVE_TIMEOUT_S Studio.connected).
Proof.
  apply (@unknown_opcode_only_resets_keepalive Studio.adapter OpCodes.PROP_UPDATE
           (Some Studio.json_bytes) Studio.connected).
  unfold handled_opcodes. simpl. intros H.
  repeat (destruct H as [H|H]; [discriminate|]). exact H.
Defined.

(** ** Receiving *)

Section ReceiveMore.

Variable adapter : Adapter.

(** When the read of a header fails on a reset connection, [recv] logs
    it and gives the service up as lost, and then goes on to test the
    header that was never read: on the first pass of the loop the name is
    not bound, and [recv] ends by UnboundLocalError, with the peer socket
    dropped, the timer stopped and [lost_connection] emitted. *)
Theorem recv_on_reset_raises (fuel : nat) (s : Service) (pending : list byte)
        waiting (d : bool) :
  has_client_sock s = true ->
  client_sockets s <> [] ->
  peer_condition s = Reset ->
  exists s',
    recv adapter (S fuel) (mkWorld s pending waiting d)
      = Raise UnboundLocalError (mkWorld s' pending waiting false) /\
    has_client_sock s' = false /\
    client_sock s' = None /\
    timer s' = false /\
    In (LogError "Client socket receive:recv failed!") (trace (app s')) /\
    In (Emit LostConnection) (trace (app s')).
Proof.
  intros H1 H2 H3.
  destruct s as [[|] [l|] [c|] sss [|x css] ip port il [|] [|] pt kt t
                 ra rv rp re gl sb [| | |] [|] a];
    simpl in H1, H2, H3; try discriminate; try congruence;
    (eexists; split; [vm_compute; reflexivity | repeat split; simpl; auto 12]).
Qed.

(** Fewer than eight bytes waiting on a healthy connection are read as a
    header, found too short and dropped: [recv] returns normally, the
    bytes are gone from the socket, no message is dispatched and the
    service is as it was. *)
Theorem recv_discards_partial_header (fuel : nat) (s : Service) (partial : list byte)
        waiting (d : bool) :
  has_client_sock s = true ->
  client_sockets s <> [] ->
  peer_condition s = Alive ->
  (0 < List.length partial < 8)%nat ->
  recv adapter (S fuel) (mkWorld s partial waiting d) = Ok tt (mkWorld s [] waiting false).
Proof.
  intros H1 H2 H3 Hlen.
  destruct partial as [|b0 [|b1 [|b2 [|b3 [|b4 [|b5 [|b6 [|b7 rest]]]]]]]];
    simpl in Hlen; try lia;
    (rewrite recv_enters_loop by assumption;
     destruct s as [tm ss [c|] sss [|x css] ip port il [|] [|] pt kt t
                    ra rv rp re gl sb pc pf a];
     simpl in H1, H2, H3; try discriminate; try congruence; subst;
     destruct fuel; reflexivity).
Qed.

End ReceiveMore.

Lemma recv_on_reset_raises_witness :
  exists s',
    recv Studio.adapter 1
         (mkWorld (set_peer_condition Reset Studio.connected) (frame Studio.ping) [] false)
      = Raise UnboundLocalError (mkWorld s' (frame Studio.ping) [] false) /\
    has_client_sock s' = false /\
    client_sock s' = None /\
    timer s' = false /\
    In (LogError "Client socket receive:recv failed!") (trace (app s')) /\
    In (Emit LostConnection) (trace (app s')).
Proof.
  apply (@recv_on_reset_raises Studio.adapter 0
           (set_peer_condition Reset Studio.connected) (frame Studio.ping) [] false).
  - reflexivity.
  - discriminate.
  - reflexivity.
Defined.

Lemma recv_discards_partial_header_witness :
  recv Studio.adapter 1 (mkWorld Studio.connected [x00; x00; x00] [] false)
  = Ok tt (mkWorld Studio.connected [] [] false).
Proof.
  apply (@recv_discards_partial_header Studio.adapter 0 Studio.connected
           [x00; x00; x00] [] false).
  - reflexivity.
  - discriminate.
  - reflexivity.
  - simpl. lia.
Defined.

(** ** Actor registry *)

Section RegistryFacts.

Variable adapter : Adapter.

Lemma find_by_some (p : LinkActor -> bool) (a : App) (rs : list actor_ref) (r : actor_ref) :
  find_by p a rs = Some r ->
  In r rs /\ exists x, deref a r = Some x /\ p x = true.
Proof.
  induction rs as [|r0 rs IH]; simpl; [discriminate|].
  destruct (deref a r0) as [x|] eqn:D.
  - destruct (p x) eqn:P.
    + intros [= <-]. split; [now left | eauto].
    + intros H. destruct (IH H) as [I E]. split; [now right | exact E].
  - intros H. destruct (IH H) as [I E]. split; [now right | exact E].
Qed.

Lemma find_by_none (p : LinkActor -> bool) (a : App) (rs : list actor_ref) :
  find_by p a rs = None ->
  forall r x, In r rs -> deref a r = Some x -> p x = false.
Proof.
  induction rs as [|r0 rs IH]; simpl; [intros _ r x []|].
  destruct (deref a r0) as [x0|] eqn:D.
  - destruct (p x0) eqn:P; [discriminate|].
    intros H r x [<- | I] E; [congruence | eauto].
  - intros H r x [<- | I] E; [congruence | eauto].
Qed.

Lemma same_chr_chr_of (c : chr) (a : App) (r : actor_ref) (x : LinkActor) :
  deref a r = Some x -> same_chr c x = true -> chr_of a r = [c].
Proof.
  intros D S. unfold chr_of. rewrite D. unfold same_chr in S.
  destruct (chr_cache x) as [c'|]; [|discriminate].
  apply Nat.eqb_eq in S. now subst.
Qed.

Lemma chr_of_same_chr (c : chr) (a : App) (r : actor_ref) :
  In c (chr_of a r) -> exists x, deref a r = Some x /\ same_chr c x = true.
Proof.
  unfold chr_of. destruct (deref a r) as [x|]; [|intros []].
  destruct (chr_cache x) as [c'|] eqn:E; [|intros []].
  intros [<- | []]. exists x. split; [reflexivity|].
  unfold same_chr. rewrite E. apply Nat.eqb_refl.
Qed.

(** In a list without repetition spread over the entries, a character
    is found at one entry only. *)
Lemma one_entry_per_chr (f : actor_ref -> list chr) (c : chr) :
  forall (rs : list actor_ref) (r r' : actor_ref),
    NoDup (flat_map f rs) ->
    In r rs -> In r' rs -> In c (f r) -> In c (f r') -> r = r'.
Proof.
  induction rs as [|r0 rs IH]; intros r r' N I I' C C'; [destruct I|].
  simpl in N.
  assert (Hx : forall q, In q rs -> In c (f q) -> ~ In c (f r0)).
  { intros q Iq Cq C0.
    assert (In c (flat_map f rs)) by (apply in_flat_map; eauto).
    clear - N C0 H. induction (f r0) as [|y ys IHy]; [destruct C0|].
    simpl in N. apply NoDup_cons_iff in N. destruct N as [Ny N].
    destruct C0 as [-> | C0]; [apply Ny, in_or_app; now right | auto]. }
  destruct I as [<- | I], I' as [<- | I']; try reflexivity.
  - exfalso. exact (Hx r' I' C' C).
  - exfalso. exact (Hx r I C C').
  - apply IH; try assumption. now apply NoDup_app_remove_l in N.
Qed.

Lemma find_by_registered (c : chr) (a : App) (r : actor_ref) :
  NoDup (registered_chrs a) ->
  In r (actors (link_data a)) ->
  chr_of a r = [c] ->
  find_by (same_chr c) a (actors (link_data a)) = Some r.
Proof.
  intros N I C.
  destruct (find_by (same_chr c) a (actors (link_data a))) as [r'|] eqn:F.
  - destruct (@find_by_some _ _ _ _ F) as (I' & x & D & S).
    f_equal. apply (@one_entry_per_chr (chr_of a) c (actors (link_data a))); auto.
    + rewrite (@same_chr_chr_of c a r' x D S). now left.
    + rewrite C. now left.
  - exfalso.
    destruct (@chr_of_same_chr c a r) as (x & D & S); [rewrite C; now left|].
    pose proof (@find_by_none _ _ _ F r x I D) as E. congruence.
Qed.

(** What [add_actor] does to a registry in order. *)
Lemma add_actor_spec (c : chr) (a : App) :
  registry_ok a ->
  exists r a',
    add_actor adapter c a = Ok r a' /\
    registry_ok a' /\
    In r (actors (link_data a')) /\
    chr_of a' r = [c] /\
    trace a' = trace a /\
    (In c (registered_chrs a) -> a' = a) /\
    (forall q, (q < List.length (store a))%nat -> deref a' q = deref a q) /\
    (forall q, In q (actors (link_data a)) -> In q (actors (link_data a'))) /\
    sequence_actors (link_data a') = sequence_actors (link_data a).
Proof.
  intros [V N]. unfold add_actor, bind, get.
  destruct (find_by (same_chr c) a (actors (link_data a))) as [r|] eqn:F.
  - destruct (@find_by_some _ _ _ _ F) as (I & x & D & S).
    exists r, a. unfold ret. repeat split; auto.
    exact (@same_chr_chr_of c a r x D S).
  - set (actor := mkLinkActor (character_name adapter (trace a) c) (Some c)
                              (character_link_id adapter (trace a) c) [] [] [] [] None).
    set (n := List.length (store a)).
    eexists n, _. unfold modify, with_link_data, ret. cbn beta iota.
    split; [reflexivity|].
    assert (Dold : forall q, (q < n)%nat ->
              deref (set_link_data
                       (set_actors (actors (link_data (set_store (store a ++ [actor]) a)) ++ [n])
                                   (link_data (set_store (store a ++ [actor]) a)))
                       (set_store (store a ++ [actor]) a)) q = deref a q).
    { intros q Hq. unfold deref. cbn. now apply nth_error_app1. }
    assert (Dnew : chr_of (set_link_data
                       (set_actors (actors (link_data (set_store (store a ++ [actor]) a)) ++ [n])
                                   (link_data (set_store (store a ++ [actor]) a)))
                       (set_store (store a ++ [actor]) a)) n = [c]).
    { unfold chr_of, deref. cbn. rewrite nth_error_app2 by (subst n; lia).
      subst n. rewrite Nat.sub_diag. reflexivity. }
    assert (Nc : ~ In c (registered_chrs a)).
    { intros Hc. apply in_flat_map in Hc. destruct Hc as (q & Iq & Cq).
      destruct (@chr_of_same_chr c a q Cq) as (x & D & S).
      pose proof (@find_by_none _ _ _ F q x Iq D). congruence. }
    repeat split.
    + cbn. apply Forall_app. split.
      * eapply Forall_impl; [|exact V]. cbn. intros q Hq.
        rewrite length_app. simpl. lia.
      * constructor; [|constructor]. rewrite length_app. simpl. subst n. lia.
    + unfold registered_chrs. cbn [link_data set_link_data actors set_actors].
      rewrite flat_map_app. cbn [flat_map]. rewrite Dnew.
      replace (flat_map _ (actors (link_data a))) with (registered_chrs a).
      * apply NoDup_app; [exact N | repeat constructor; intros [] |].
        intros y Iy [<- | []]. exact (Nc Iy).
      * unfold registered_chrs. clear - V Dold.
        induction V as [|q qs Hq _ IH]; [reflexivity|].
        cbn [flat_map]. rewrite IH. f_equal.
        unfold chr_of. now rewrite Dold.
    + cbn. apply in_or_app. right. now left.
    + exact Dnew.
    + intros Hc. exfalso. exact (Nc Hc).
    + exact Dold.
    + intros q Iq. cbn. apply in_or_app. now left.
Qed.

(** Looking a character up never registers it twice. On a registry in
    order, [get_actor] returns without raising and leaves the registry in
    order; the actors that were there are still there, as they were. It
    gives no actor only when no registered actor has the link id and the
    scene has no character with it, and then nothing has changed. *)
Theorem get_actor_keeps_registry (id : string) (a : App) :
  registry_ok a ->
  exists o a',
    get_actor adapter id a = Ok o a' /\
    registry_ok a' /\
    trace a' = trace a /\
    (forall q, (q < List.length (store a))%nat -> deref a' q = deref a q) /\
    (forall q, In q (actors (link_data a)) -> In q (actors (link_data a'))) /\
    match o with
    | Some r => In r (actors (link_data a'))
    | None =>
        a' = a /\
        get_link_character_cache adapter (trace a) id = None /\
        forall q x, In q (actors (link_data a)) -> deref a q = Some x ->
                    String.eqb (link_id x) id = false
    end.
Proof.
  intros Hok. pose proof Hok as [V N]. unfold get_actor, bind, get.
  destruct (find_by _ a (actors (link_data a))) as [r|] eqn:F.
  - destruct (@find_by_some _ _ _ _ F) as (I & _).
    exists (Some r), a. unfold ret.
    split; [reflexivity|]. split; [exact Hok|]. repeat split; auto.
  - destruct (get_link_character_cache adapter (trace a) id) as [c|] eqn:G.
    + destruct (@add_actor_spec c a Hok) as (r & a' & E & Hok' & I & _ & T & _ & D & K & _).
      exists (Some r), a'. unfold bind. rewrite E. unfold ret.
      split; [reflexivity|]. split; [exact Hok'|]. repeat split; auto.
    + exists None, a. unfold ret.
      split; [reflexivity|]. split; [exact Hok|]. repeat split; auto.
      intros q x. apply (@find_by_none _ _ _ F).
Qed.

(** Registering a character twice is registering it once: on a registry
    in order [add_actor] returns an actor of the character, and called
    again it returns the same actor and changes nothing. *)
Theorem add_actor_twice_is_once (c : chr) (a : App) :
  registry_ok a ->
  exists r a',
    add_actor adapter c a = Ok r a' /\
    chr_of a' r = [c] /\
    In r (actors (link_data a')) /\
    add_actor adapter c a' = Ok r a'.
Proof.
  intros Hok.
  destruct (@add_actor_spec c a Hok) as (r & a' & E & [V' N'] & I & C & _).
  exists r, a'. repeat split; auto.
  unfold add_actor, bind, get.
  now rewrite (@find_by_registered c a' r N' I C).
Qed.

(** ** Sample caches *)

Lemma deref_update_actor (r : actor_ref) (f : LinkActor -> LinkActor) (a : App)
      (x : LinkActor) :
  deref a r = Some x ->
  exists a', update_actor r f a = Ok tt a' /\
             deref a' r = Some (f x) /\
             trace a' = trace a /\
             link_data a' = link_data a.
Proof.
  intros D. unfold update_actor, modify. rewrite D.
  eexists. split; [reflexivity|]. repeat split.
  unfold deref in *. cbn.
  assert (L : (r < List.length (store a))%nat) by (apply nth_error_Some; congruence).
  rewrite nth_error_app2 by (rewrite length_firstn; lia).
  rewrite length_firstn. replace (r - Nat.min r (List.length (store a)))%nat with 0%nat by lia.
  reflexivity.
Qed.

(** The cache of an actor is cleared only after its samples are written.
    For an actor without a cache [write_sequence_actions] does nothing.
    For an actor with a cache it hands the samples to the scene; when the
    writing returns, the cache is cleared, so that a second call finds no
    cache and does nothing; when the writing raises, the exception
    leaves [write_sequence_actions] with the cache still in place. *)
Theorem cache_is_cleared_after_the_write (r : actor_ref) (a : App) :
  match cached_samples a r with
  | None => write_sequence_actions adapter r a = Ok tt a
  | Some samples =>
      let begun := record (Scene (WriteSequenceActions r samples)) a in
      match write_fcurves adapter (trace begun) r samples with
      | Val _ =>
          exists a',
            write_sequence_actions adapter r a = Ok tt a' /\
            cached_samples a' r = None /\
            trace a' = trace begun /\
            link_data a' = link_data a /\
            write_sequence_actions adapter r a' = Ok tt a'
      | Exc e =>
          write_sequence_actions adapter r a = Raise e begun /\
          cached_samples begun r = Some samples
      end
  end.
Proof.
  unfold write_sequence_actions, cached_samples, bind, get.
  destruct (deref a r) as [x|] eqn:D; [|reflexivity].
  destruct (cache x) as [samples|] eqn:C; [|reflexivity].
  unfold app_do.
  change (modify (record (Scene (WriteSequenceActions r samples))) a)
    with (Ok tt (record (Scene (WriteSequenceActions r samples)) a)).
  cbv beta iota zeta.
  destruct (write_fcurves adapter _ r samples) as [[]|e]; cbn [eval ret raise].
  - destruct (@deref_update_actor r (set_cache None)
                (record (Scene (WriteSequenceActions r samples)) a) x D)
      as (a' & U & D' & T & L).
    exists a'. rewrite U, D'. cbn [cache set_cache].
    repeat split; auto.
  - split; [reflexivity|].
    change (deref (record (Scene (WriteSequenceActions r samples)) a) r) with (deref a r).
    rewrite D. exact C.
Qed.

End RegistryFacts.

Lemma get_actor_keeps_registry_witness :
  exists o a',
    get_actor Studio.adapter "a1" Studio.fresh_app = Ok o a' /\
    registry_ok a' /\
    trace a' = trace Studio.fresh_app /\
    (forall q, (q < List.length (store Studio.fresh_app))%nat ->
               deref a' q = deref Studio.fresh_app q) /\
    (forall q, In q (actors (link_data Studio.fresh_app)) -> In q (actors (link_data a'))) /\
    match o with
    | Some r => In r (actors (link_data a'))
    | None =>
        a' = Studio.fresh_app /\
        get_link_character_cache Studio.adapter (trace Studio.fresh_app) "a1" = None /\
        forall q x, In q (actors (link_data Studio.fresh_app)) ->
                    deref Studio.fresh_app q = Some x ->
                    String.eqb (link_id x) "a1" = false
    end.
Proof.
  apply (@get_actor_keeps_registry Studio.adapter "a1" Studio.fresh_app).
  split; [constructor | constructor].
Defined.

Lemma add_actor_twice_is_once_witness :
  exists r a',
    add_actor Studio.adapter 0%nat Studio.fresh_app = Ok r a' /\
    chr_of a' r = [0%nat] /\
    In r (actors (link_data a')) /\
    add_actor Studio.adapter 0%nat a' = Ok r a'.
Proof.
  apply (@add_actor_twice_is_once Studio.adapter 0%nat Studio.fresh_app).
  split; [constructor | constructor].
Defined.

(** ** Handlers *)

Section HandlerFacts.

Variable adapter : Adapter.

Lemma same_session_refl (a : App) : same_session a a.
Proof. repeat split. Qed.

Lemma same_session_trans (a b c : App) :
  same_session a b -> same_session b c -> same_session a c.
Proof.
  unfold same_session. intros (h1 & h2 & h3 & h4 & h5) (k1 & k2 & k3 & k4 & k5).
  repeat split; congruence.
Qed.

Lemma get_actor_returns (id : string) (a : App) :
  exists o a', get_actor adapter id a = Ok o a' /\ same_session a a'.
Proof.
  unfold get_actor, bind, get.
  destruct (find_by _ a (actors (link_data a))) as [r|];
    [exists (Some r), a; split; [reflexivity | apply same_session_refl]|].
  destruct (get_link_character_cache adapter (trace a) id) as [c|];
    [|exists None, a; split; [reflexivity | apply same_session_refl]].
  unfold add_actor, bind, get.
  destruct (find_by _ a (actors (link_data a))) as [r|];
    [exists (Some r), a; split; [reflexivity | apply same_session_refl]|].
  eexists _, _. split; [reflexivity|]. repeat split.
Qed.

(** The loop that looks the actors of a payload up, without preparing
    them: it returns, having left the session alone. *)
Lemma collect_actors_returns (ids : list (string * string)) :
  forall (acc : M App (list actor_ref)),
    (forall a, exists l a', acc a = Ok l a' /\ same_session a a') ->
    forall a, exists l a',
      fold_left (fun acc nl =>
                   found <- acc ;;
                   actor <- get_actor adapter (snd nl) ;;
                   match actor with
                   | Some r => ret tt ;; ret (found ++ [r])
                   | None => ret found
                   end) ids acc a = Ok l a' /\ same_session a a'.
Proof.
  induction ids as [|nl ids IH]; intros acc Hacc a; [apply Hacc|].
  cbn [fold_left]. apply IH. clear a. intros a.
  destruct (Hacc a) as (l & a1 & E1 & S1).
  destruct (get_actor_returns (snd nl) a1) as (o & a2 & E2 & S2).
  unfold bind at 1. rewrite E1. unfold bind at 1. rewrite E2.
  destruct o as [r|]; eexists _, _; (split; [reflexivity|]);
    eapply same_session_trans; eassumption.
Qed.

Lemma collect_lookup_returns (ids : list (string * string)) (a : App) :
  exists l a',
    collect_actors adapter (fun _ => ret tt) ids a = Ok l a' /\ same_session a a'.
Proof.
  unfold collect_actors. apply collect_actors_returns.
  intros a0. exists [], a0. split; [reflexivity | apply same_session_refl].
Qed.

Lemma bind_ok {S A B} (m : M S A) (k : A -> M S B) (s s1 : S) (x : A) :
  m s = Ok x s1 -> bind m k s = k x s1.
Proof. intros H. unfold bind. now rewrite H. Qed.

(** A SEQUENCE_END message that arrives when no session is open, for
    instance a second one, makes its handler raise: the payload is
    decoded and the actors are looked up, and then the loop over the
    session actors finds [None].  Nothing is written to the scene, and
    the streaming flag is left as it was. *)
Theorem sequence_end_without_session_raises (b : list byte)
        (ids : list (string * string)) (a : App) :
  sequence_actors (link_data a) = None ->
  decode_sequence_end adapter b = Val ids ->
  exists a',
    receive_sequence_end adapter (Some b) a = Raise TypeError a' /\
    trace a' = LogInfo "SEQUENCE END" :: trace a /\
    sequence_actors (link_data a') = None /\
    is_sequence a' = is_sequence a /\
    sequence_callbacks a' = sequence_callbacks a.
Proof.
  intros Hs Hd.
  destruct (collect_lookup_returns ids (record (LogInfo "SEQUENCE END") a))
    as (l & a' & E & (S1 & S2 & S3 & S4 & S5)).
  exists a'. split; [|unfold record in *; cbn in S1, S3, S4, S5; repeat split; congruence].
  unfold receive_sequence_end.
  erewrite bind_ok by reflexivity.
  erewrite bind_ok by reflexivity.
  rewrite Hd.
  erewrite bind_ok by reflexivity.
  erewrite bind_ok by exact E.
  erewrite bind_ok by reflexivity.
  rewrite S1. cbn. rewrite Hs. reflexivity.
Qed.

(** *** Handlers and the end points of the service *)

Lemma same_endpoints_refl (s : Service) : same_endpoints s s.
Proof. repeat split. Qed.

Lemma same_endpoints_trans (s1 s2 s3 : Service) :
  same_endpoints s1 s2 -> same_endpoints s2 s3 -> same_endpoints s1 s3.
Proof.
  unfold same_endpoints.
  intros (c & h1 & h2 & h3 & h4 & h5 & h6 & h7) (c' & k1 & k2 & k3 & k4 & k5 & k6 & k7).
  split; [eapply same_connection_trans; eassumption|].
  repeat split; congruence.
Qed.

Lemma endpoints_ret {A} (a : A) : keeps_endpoints (ret a).
Proof. intros s _. apply same_endpoints_refl. Qed.

Lemma endpoints_raise {A} (e : exn) : keeps_endpoints (@raise Service A e).
Proof. intros s _. apply same_endpoints_refl. Qed.

Lemma endpoints_bind {A B} (m : M Service A) (k : A -> M Service B) :
  keeps_endpoints m -> (forall a, keeps_endpoints (k a)) ->
  keeps_endpoints (bind m k).
Proof.
  intros Hm Hk s Ha. unfold bind. specialize (Hm s Ha).
  destruct (m s) as [a s'|e s'|]; try exact Hm; try exact I.
  assert (Ha' : peer_condition s' = Alive)
    by (destruct Hm as ((_ & _ & E & _) & _); congruence).
  specialize (Hk a s' Ha').
  destruct (k a s'); try exact I; eapply same_endpoints_trans; eassumption.
Qed.

Lemma endpoints_lift_app {A} (m : M App A) : keeps_endpoints (lift_app m).
Proof.
  intros s _. unfold lift_app.
  destruct (m (app s)); try exact I; destruct s; repeat split.
Qed.

Lemma endpoints_when (c : bool) (m : M Service unit) :
  keeps_endpoints m -> keeps_endpoints (when c m).
Proof. destruct c; [auto | intros _; apply endpoints_ret]. Qed.

Lemma endpoints_eval {A} (r : pyresult A) : keeps_endpoints (eval r).
Proof. destruct r; [apply endpoints_ret | apply endpoints_raise]. Qed.

Lemma endpoints_modify (f : Service -> Service) :
  (forall s, same_endpoints s (f s)) -> keeps_endpoints (modify f).
Proof. intros H s _. apply H. Qed.

Lemma endpoints_service_initialize : keeps_endpoints service_initialize.
Proof.
  intros s Ha.
  destruct s as [tm ss [c|] sss css ip port il [|] [|] pt kt t
                 ra rv rp re gl sb pc pf a];
    simpl in Ha; subst; vm_compute; repeat split.
Qed.

(** Whatever the handler of a message does, and whether it returns or
    raises, a message other than STOP and DISCONNECT received on a
    healthy connection leaves the end points of the service alone: the
    peer socket and the server side, the timer and the clock are as they
    were, and the keepalive countdown is at [KEEPALIVE_TIMEOUT_S], where
    [parse] has put it before dispatching. *)
Theorem handlers_leave_endpoints (op_code : N) (data : option (list byte)) (s : Service) :
  op_is op_code OpCodes.STOP = false ->
  op_is op_code OpCodes.DISCONNECT = false ->
  peer_condition s = Alive ->
  match parse adapter op_code data s with
  | Ok _ s' | Raise _ s' =>
      same_endpoints (set_keepalive_timer KEEPALIVE_TIMEOUT_S s) s'
  | Diverge => True
  end.
Proof.
  intros Hstop Hdisc Ha. unfold parse. rewrite Hstop, Hdisc.
  unfold bind at 1. unfold modify at 1.
  match goal with
  | |- match ?m (set_keepalive_timer _ s) with _ => _ end =>
      assert (K : keeps_endpoints m)
  end.
  { destruct (op_is op_code OpCodes.HELLO).
    { apply endpoints_bind; [apply endpoints_lift_app|]. intros _.
      apply endpoints_bind; [apply endpoints_service_initialize|]. intros _.
      apply endpoints_when.
      apply endpoints_bind; [apply endpoints_eval|].
      intros [[[application version] path] exe].
      repeat (apply endpoints_bind;
              [first [apply endpoints_eval
                     | apply endpoints_lift_app
                     | apply endpoints_modify; intros s0; destruct s0; repeat split]
              | intros ?]).
      apply endpoints_lift_app. }
    repeat match goal with
           | |- keeps_endpoints (if ?c then _ else _) => destruct c
           end;
      first [apply endpoints_lift_app | apply endpoints_ret]. }
  apply K. destruct s; exact Ha.
Qed.

End HandlerFacts.

Lemma sequence_end_without_session_raises_witness :
  exists a',
    receive_sequence_end Studio.adapter (Some Studio.json_bytes) Studio.fresh_app
      = Raise TypeError a' /\
    trace a' = LogInfo "SEQUENCE END" :: trace Studio.fresh_app /\
    sequence_actors (link_data a') = None /\
    is_sequence a' = is_sequence Studio.fresh_app /\
    sequence_callbacks a' = sequence_callbacks Studio.fresh_app.
Proof.
  apply (@sequence_end_without_session_raises Studio.adapter Studio.json_bytes
           [("Kevin", "a1")%string] Studio.fresh_app); reflexivity.
Defined.

Lemma handlers_leave_endpoints_witness :
  match parse Studio.adapter OpCodes.NOTIFY None Studio.connected with
  | Ok _ s' | Raise _ s' =>
      same_endpoints (set_keepalive_timer KEEPALIVE_TIMEOUT_S Studio.connected) s'
  | Diverge => True
  end.
Proof.
  apply (@handlers_leave_endpoints Studio.adapter OpCodes.NOTIFY None Studio.connected);
    reflexivity.
Defined.

(** ** Shape-key samples *)

Module StoreFacts.

Lemma py_index_next (n k : nat) (d : Z) :
  py_index (2 * n) (d * 2) = Some k ->
  py_index (2 * n) (d * 2 + 1) = Some (S k) /\ (S k < 2 * n)%nat.
Proof.
  unfold py_index.
  destruct (Z.ltb_spec (d * 2) 0) as [Hneg|Hpos];
    destruct (Z.ltb_spec (d * 2 + 1) 0) as [Hneg'|Hpos']; try lia;
    match goal with
    | |- (if ?c then _ else _) = _ -> _ => destruct c eqn:E; [|discriminate]
    end;
    apply andb_true_iff in E; destruct E as [E1 E2];
    apply Z.leb_le in E1; apply Z.ltb_lt in E2;
    intros [= <-];
    (split; [|lia]);
    match goal with
    | |- (if ?c then _ else _) = _ =>
        replace c with true
          by (symmetry; apply andb_true_iff; split;
              [apply Z.leb_le | apply Z.ltb_lt]; lia)
    end;
    f_equal; lia.
Qed.

Lemma py_index_in_range (len : nat) (i : Z) :
  (0 <= i < Z.of_nat len)%Z -> py_index len i = Some (Z.to_nat i).
Proof.
  intros H. unfold py_index.
  destruct (Z.ltb_spec i 0); [lia|].
  replace ((0 <=? i) && (i <? Z.of_nat len))%Z with true; [reflexivity|].
  symmetry. apply andb_true_iff. split; [apply Z.leb_le | apply Z.ltb_lt]; lia.
Qed.

Lemma py_index_from_end (len : nat) (i : Z) :
  (- Z.of_nat len <= i < 0)%Z -> py_index len i = Some (Z.to_nat (i + Z.of_nat len)).
Proof.
  intros H. unfold py_index.
  destruct (Z.ltb_spec i 0); [|lia].
  replace ((0 <=? i + Z.of_nat len) && (i + Z.of_nat len <? Z.of_nat len))%Z with true;
    [reflexivity|].
  symmetry. apply andb_true_iff. split; [apply Z.leb_le | apply Z.ltb_lt]; lia.
Qed.

Lemma py_index_out_of_range (len : nat) (i : Z) :
  (Z.of_nat len <= i)%Z \/ (i < - Z.of_nat len)%Z -> py_index len i = None.
Proof.
  intros H. unfold py_index.
  destruct (Z.ltb_spec i 0).
  - replace ((0 <=? i + Z.of_nat len) && (i + Z.of_nat len <? Z.of_nat len))%Z
      with false; [reflexivity|].
    symmetry. apply andb_false_iff. left. apply Z.leb_gt. lia.
  - replace ((0 <=? i) && (i <? Z.of_nat len))%Z with false; [reflexivity|].
    symmetry. apply andb_false_iff. right. apply Z.ltb_ge. lia.
Qed.

Lemma list_set_length {A} (xs : list A) (k : nat) (v : A) :
  (k < List.length xs)%nat -> List.length (list_set xs k v) = List.length xs.
Proof.
  intros H. unfold list_set.
  rewrite length_app, length_firstn. cbn [List.length]. rewrite length_skipn. lia.
Qed.

Lemma list_set_same {A} (xs : list A) (k : nat) (v : A) :
  (k < List.length xs)%nat -> nth_error (list_set xs k v) k = Some v.
Proof.
  intros H. unfold list_set.
  rewrite nth_error_app2 by (rewrite length_firstn; lia).
  rewrite length_firstn. replace (k - Nat.min k (List.length xs))%nat with 0%nat by lia.
  reflexivity.
Qed.

Lemma list_set_other {A} (xs : list A) (k j : nat) (v : A) :
  (k < List.length xs)%nat -> j <> k -> nth_error (list_set xs k v) j = nth_error xs j.
Proof.
  intros L H. unfold list_set.
  destruct (Nat.lt_ge_cases j k) as [Hj|Hj].
  - rewrite nth_error_app1 by (rewrite length_firstn; lia).
    rewrite nth_error_firstn.
    replace (j <? k)%nat with true by (symmetry; apply Nat.ltb_lt; exact Hj).
    reflexivity.
  - rewrite nth_error_app2 by (rewrite length_firstn; lia).
    rewrite length_firstn. replace (Nat.min k (List.length xs)) with k by lia.
    destruct (j - k)%nat as [|m] eqn:E; [lia|].
    cbn [nth_error]. rewrite nth_error_skipn. f_equal. lia.
Qed.

Lemma nth_list_set {A} (xs : list A) (k j : nat) (v : A) :
  (k < List.length xs)%nat ->
  nth_error (list_set xs k v) j = if (j =? k)%nat then Some v else nth_error xs j.
Proof.
  intros L. destruct (Nat.eqb_spec j k) as [->|N].
  - now apply list_set_same.
  - now apply list_set_other.
Qed.

(** Writing a sample twice at one position leaves the second one. *)
Lemma sample_overwritten {A} (xs : list A) (k : nat) (f w f' w' : A) :
  (S k < List.length xs)%nat ->
  list_set (list_set (list_set (list_set xs k f) (S k) w) k f') (S k) w'
  = list_set (list_set xs k f') (S k) w'.
Proof.
  intros L. apply nth_error_ext. intros j.
  repeat (rewrite nth_list_set by (repeat rewrite list_set_length; lia)).
  destruct (Nat.eqb_spec j (S k)); [reflexivity|].
  destruct (Nat.eqb_spec j k); reflexivity.
Qed.

Lemma skipn_nth {A} (ws : list A) (i : nat) (w : A) :
  nth_error ws i = Some w -> skipn i ws = w :: skipn (S i) ws.
Proof.
  revert i. induction ws as [|x ws IH]; intros [|i] H; try discriminate.
  - injection H as ->. reflexivity.
  - cbn [skipn]. apply IH. exact H.
Qed.

Lemma store_key_writes (entry : fcurves_cache) (curve : list Q) (others : list (list Q))
      (n k i : nat) (d : Z) (frame w : Q) (weights : list Q) :
  fc_curves entry = curve :: others ->
  List.length curve = (2 * n)%nat ->
  py_index (2 * n) (d * 2) = Some k ->
  nth_error weights i = Some w ->
  store_key entry (d * 2) frame weights i = Stored (write_slot k frame w entry).
Proof.
  intros Hc Hl Hk Hw.
  destruct (@py_index_next n k d Hk) as [Hk' Hlt].
  unfold store_key, write_slot, py_setitem. rewrite Hc, Hl, Hk. cbn [option_map].
  rewrite Hw. rewrite list_set_length by lia. rewrite Hl, Hk'. reflexivity.
Qed.

Lemma store_keys_writes (n k : nat) (d : Z) (frame : Q) (weights : list Q) :
  py_index (2 * n) (d * 2) = Some k ->
  forall (entries : list (string * fcurves_cache)) (i : nat),
    roomy n entries ->
    (i + List.length entries <= List.length weights)%nat ->
    store_keys entries i (d * 2) frame weights
    = Stored (write_slots k frame (skipn i weights) entries).
Proof.
  intros Hk. induction entries as [|[key_name entry] rest IH]; intros i Hr Hlen.
  - reflexivity.
  - inversion Hr as [|? ? (curve & others & Hc & Hl) Hr']; subst.
    cbn [snd] in Hc. cbn [List.length] in Hlen.
    destruct (nth_error weights i) as [w|] eqn:Hw;
      [|apply nth_error_None in Hw; lia].
    cbn [store_keys].
    rewrite (@store_key_writes entry curve others n k i d frame w weights Hc Hl Hk Hw).
    rewrite IH by (assumption || lia).
    rewrite (@skipn_nth _ weights i w Hw). reflexivity.
Qed.

Lemma write_slot_written (n k : nat) (frame w : Q) (entry : fcurves_cache)
      (curve : list Q) (others : list (list Q)) :
  fc_curves entry = curve :: others ->
  List.length curve = (2 * n)%nat ->
  (S k < 2 * n)%nat ->
  sample_written k frame w entry (write_slot k frame w entry).
Proof.
  intros Hc Hl Hk. unfold sample_written, write_slot. rewrite Hc.
  exists curve, (list_set (list_set curve k frame) (S k) w), others.
  repeat split.
  - rewrite nth_list_set by (rewrite list_set_length; lia).
    replace (k =? S k)%nat with false by (symmetry; apply Nat.eqb_neq; lia).
    apply list_set_same. lia.
  - apply list_set_same. rewrite list_set_length; lia.
  - rewrite list_set_length by (rewrite list_set_length; lia).
    apply list_set_length. lia.
  - intros j J1 J2.
    rewrite list_set_other by (try rewrite list_set_length; lia).
    apply list_set_other; lia.
Qed.

Lemma write_slots_roomy (n k : nat) (frame : Q) :
  (S k < 2 * n)%nat ->
  forall (entries : list (string * fcurves_cache)) (weights : list Q),
    roomy n entries -> roomy n (write_slots k frame weights entries).
Proof.
  intros Hk. induction entries as [|[key_name entry] rest IH]; intros weights Hr.
  - destruct weights; exact Hr.
  - destruct weights as [|w weights]; [exact Hr|].
    inversion Hr as [|? ? (curve & others & Hc & Hl) Hr']; subst.
    cbn [snd] in Hc. cbn [write_slots]. constructor; [|apply IH; exact Hr'].
    cbn [snd]. unfold write_slot. rewrite Hc.
    eexists _, others. split; [reflexivity|].
    rewrite list_set_length by (rewrite list_set_length; lia).
    rewrite list_set_length by lia. exact Hl.
Qed.

Lemma write_slots_written (n k : nat) (frame : Q) :
  (S k < 2 * n)%nat ->
  forall (entries : list (string * fcurves_cache)) (weights : list Q),
    roomy n entries ->
    (List.length entries <= List.length weights)%nat ->
    samples_written k frame weights entries (write_slots k frame weights entries).
Proof.
  intros Hk. induction entries as [|[key_name entry] rest IH]; intros weights Hr Hlen.
  - split; [destruct weights; reflexivity|]. intros [|i] ? ? H; discriminate.
  - destruct weights as [|w weights]; [cbn in Hlen; lia|].
    inversion Hr as [|? ? (curve & others & Hc & Hl) Hr']; subst.
    cbn [snd] in Hc. cbn [List.length] in Hlen.
    destruct (IH weights Hr' ltac:(lia)) as [L W].
    cbn [write_slots]. split; [cbn [List.length]; now rewrite L|].
    intros [|i] key_name' e H.
    + cbn [nth_error] in H. injection H as <- <-.
      exists (write_slot k frame w entry), w. repeat split.
      eapply write_slot_written; eassumption.
    + cbn [nth_error] in H |- *. apply W. exact H.
Qed.

Lemma write_slots_twice (n k : nat) (frame frame' : Q) :
  (S k < 2 * n)%nat ->
  forall (entries : list (string * fcurves_cache)) (weights weights' : list Q),
    roomy n entries ->
    (List.length entries <= List.length weights)%nat ->
    (List.length entries <= List.length weights')%nat ->
    write_slots k frame' weights' (write_slots k frame weights entries)
    = write_slots k frame' weights' entries.
Proof.
  intros Hk. induction entries as [|[key_name entry] rest IH];
    intros weights weights' Hr Hlen Hlen'.
  - destruct weights, weights'; reflexivity.
  - destruct weights as [|w weights]; [cbn in Hlen; lia|].
    destruct weights' as [|w' weights']; [cbn in Hlen'; lia|].
    inversion Hr as [|? ? (curve & others & Hc & Hl) Hr']; subst.
    cbn [snd] in Hc. cbn [List.length] in Hlen, Hlen'.
    cbn [write_slots]. rewrite IH by (assumption || lia).
    f_equal. f_equal. unfold write_slot. rewrite Hc.
    cbn [fc_curves set_fc_curves fc_count fc_indices].
    rewrite sample_overwritten by lia. reflexivity.
Qed.

(** The store on a cache with room, at a frame whose index denotes a
    position in the curves. *)
Lemma store_writes_slots (c : actor_cache) (n k : nat) (frame : Z)
      (expression_weights viseme_weights : list Q) :
  roomy n (c_expressions c) ->
  roomy n (c_visemes c) ->
  py_index (2 * n) ((frame - c_start c) * 2) = Some k ->
  (List.length (c_expressions c) <= List.length expression_weights)%nat ->
  (List.length (c_visemes c) <= List.length viseme_weights)%nat ->
  store_shape_key_cache_keyframes (Some c) frame expression_weights viseme_weights
  = Stored (Some (set_c_visemes
                    (write_slots k (inject_Z frame) viseme_weights (c_visemes c))
                    (set_c_expressions
                       (write_slots k (inject_Z frame) expression_weights (c_expressions c))
                       c))).
Proof.
  intros Re Rv Hk Le Lv. unfold store_shape_key_cache_keyframes.
  rewrite (@store_keys_writes n k _ _ expression_weights Hk _ 0%nat Re) by (simpl; lia).
  cbn [skipn]. cbn [c_visemes set_c_expressions].
  rewrite (@store_keys_writes n k _ _ viseme_weights Hk _ 0%nat Rv) by (simpl; lia).
  reflexivity.
Qed.

Lemma store_key_out_of_range (entry : fcurves_cache) (curve : list Q)
      (others : list (list Q)) (i : Z) (frame : Q) (weights : list Q) (j : nat) :
  fc_curves entry = curve :: others ->
  py_index (List.length curve) i = None ->
  store_key entry i frame weights j = StoreRaises IndexError entry.
Proof.
  intros Hc Hi. unfold store_key, py_setitem. now rewrite Hc, Hi.
Qed.

Lemma dict_set_roomy (n : nat) (d : list (string * fcurves_cache)) (key : string)
      (v : fcurves_cache) :
  roomy n d ->
  (exists curve others, fc_curves v = curve :: others /\ List.length curve = (2 * n)%nat) ->
  roomy n (dict_set d key v) /\
  (List.length (dict_set d key v) <= S (List.length d))%nat.
Proof.
  intros Hr Hv. induction Hr as [|[k0 v0] d H0 Hr IH]; cbn [dict_set].
  - split; [repeat constructor; exact Hv | simpl; lia].
  - destruct (String.eqb k0 key).
    + split; [constructor; [exact Hv | exact Hr] | simpl; lia].
    + destruct IH as [IH1 IH2]. split; [constructor; assumption | simpl; lia].
Qed.

Lemma weight_caches_roomy (count : Z) (names : list string) :
  roomy (Z.to_nat count) (weight_caches count names) /\
  (List.length (weight_caches count names) <= List.length names)%nat.
Proof.
  unfold weight_caches.
  assert (G : forall d : list (string * fcurves_cache),
             roomy (Z.to_nat count) d ->
             roomy (Z.to_nat count)
                   (fold_left (fun d n => dict_set d n (create_fcurves_cache count 1 [0%Q]))
                              names d) /\
             (List.length (fold_left (fun d n => dict_set d n (create_fcurves_cache count 1 [0%Q]))
                                     names d)
              <= List.length d + List.length names)%nat).
  { induction names as [|x names IH]; intros d Hd; cbn [fold_left].
    - split; [exact Hd | lia].
    - destruct (@dict_set_roomy (Z.to_nat count) d x (create_fcurves_cache count 1 [0%Q]) Hd)
        as [R L].
      { eexists _, []. split; [reflexivity|]. rewrite repeat_length. lia. }
      destruct (IH _ R) as [R' L']. split; [exact R'|]. cbn [List.length]. lia. }
  destruct (G [] (Forall_nil _)) as [R L]. split; [exact R | exact L].
Qed.

End StoreFacts.

Lemma py_index_some (len : nat) (i : Z) :
  (- Z.of_nat len <= i < Z.of_nat len)%Z ->
  py_index len i
  = Some (Z.to_nat (if (i <? 0)%Z then (i + Z.of_nat len)%Z else i)).
Proof.
  intros H. destruct (Z.ltb_spec i 0).
  - apply StoreFacts.py_index_from_end. lia.
  - apply StoreFacts.py_index_in_range. lia.
Qed.

Lemma set_same_expressions (c : actor_cache) : set_c_expressions (c_expressions c) c = c.
Proof. destruct c; reflexivity. Qed.

Lemma set_same_visemes (c : actor_cache) : set_c_visemes (c_visemes c) c = c.
Proof. destruct c; reflexivity. Qed.

(** A frame of the range of the cache is stored at its own position: in
    a cache with room for [n] frames, the weights of a frame between the
    start frame and [n - 1] frames after it are written for every
    expression and every viseme at position [(frame - start) * 2], the
    key time and then the weight, each entry taking the weight at its
    own rank; everything else in the cache is as it was, and the cache
    still has room for [n] frames. *)
Theorem frame_in_range_is_stored (c : actor_cache) (n : nat) (frame : Z)
        (expression_weights viseme_weights : list Q) :
  roomy n (c_expressions c) ->
  roomy n (c_visemes c) ->
  (c_start c <= frame < c_start c + Z.of_nat n)%Z ->
  (List.length (c_expressions c) <= List.length expression_weights)%nat ->
  (List.length (c_visemes c) <= List.length viseme_weights)%nat ->
  exists c',
    store_shape_key_cache_keyframes (Some c) frame expression_weights viseme_weights
      = Stored (Some c') /\
    samples_written (Z.to_nat ((frame - c_start c) * 2)) (inject_Z frame)
                    expression_weights (c_expressions c) (c_expressions c') /\
    samples_written (Z.to_nat ((frame - c_start c) * 2)) (inject_Z frame)
                    viseme_weights (c_visemes c) (c_visemes c') /\
    roomy n (c_expressions c') /\
    roomy n (c_visemes c') /\
    c_start c' = c_start c /\ c_end c' = c_end c /\ c_bones c' = c_bones c.
Proof.
  intros Re Rv Hf Le Lv.
  assert (Hk : py_index (2 * n) ((frame - c_start c) * 2)
               = Some (Z.to_nat ((frame - c_start c) * 2)))
    by (apply StoreFacts.py_index_in_range; lia).
  destruct (@StoreFacts.py_index_next n _ _ Hk) as [_ Hlt].
  eexists. split; [apply (@StoreFacts.store_writes_slots c n _ frame _ _ Re Rv Hk Le Lv)|].
  cbn [c_expressions c_visemes set_c_visemes set_c_expressions c_start c_end c_bones].
  repeat split;
    first [ now apply (@StoreFacts.write_slots_written n)
          | now apply (@StoreFacts.write_slots_roomy n) ].
Qed.

Lemma frame_in_range_is_stored_witness :
  exists c',
    store_shape_key_cache_keyframes (Some four_frames) 11 [1 # 2] [1 # 4]
      = Stored (Some c') /\
    samples_written (Z.to_nat ((11 - c_start four_frames) * 2)) (inject_Z 11)
                    [1 # 2] (c_expressions four_frames) (c_expressions c') /\
    samples_written (Z.to_nat ((11 - c_start four_frames) * 2)) (inject_Z 11)
                    [1 # 4] (c_visemes four_frames) (c_visemes c') /\
    roomy 4 (c_expressions c') /\
    roomy 4 (c_visemes c') /\
    c_start c' = c_start four_frames /\ c_end c' = c_end four_frames /\
    c_bones c' = c_bones four_frames.
Proof.
  apply (@frame_in_range_is_stored four_frames 4 11 [1 # 2] [1 # 4]).
  - apply (StoreFacts.weight_caches_roomy 4 ["Smile"%string]).
  - apply (StoreFacts.weight_caches_roomy 4 ["Open"%string]).
  - simpl. lia.
  - simpl. lia.
  - simpl. lia.
Defined.

(** A frame before the start of the range does not fail: its index is
    negative, and a negative index of a Python list counts from the end.
    In a cache with room for [n] frames, a frame up to [n] frames before
    the start frame is stored at the position of the frame [n] frames
    later, over whatever sample was there, with its own number as the
    key time. *)
Theorem frame_before_start_wraps (c : actor_cache) (n : nat) (frame : Z)
        (expression_weights viseme_weights : list Q) :
  roomy n (c_expressions c) ->
  roomy n (c_visemes c) ->
  (c_start c - Z.of_nat n <= frame < c_start c)%Z ->
  (List.length (c_expressions c) <= List.length expression_weights)%nat ->
  (List.length (c_visemes c) <= List.length viseme_weights)%nat ->
  exists c',
    store_shape_key_cache_keyframes (Some c) frame expression_weights viseme_weights
      = Stored (Some c') /\
    samples_written (Z.to_nat ((frame + Z.of_nat n - c_start c) * 2)) (inject_Z frame)
                    expression_weights (c_expressions c) (c_expressions c') /\
    samples_written (Z.to_nat ((frame + Z.of_nat n - c_start c) * 2)) (inject_Z frame)
                    viseme_weights (c_visemes c) (c_visemes c').
Proof.
  intros Re Rv Hf Le Lv.
  assert (Hk : py_index (2 * n) ((frame - c_start c) * 2)
               = Some (Z.to_nat ((frame + Z.of_nat n - c_start c) * 2))).
  { rewrite StoreFacts.py_index_from_end by lia. f_equal. lia. }
  destruct (@StoreFacts.py_index_next n _ _ Hk) as [_ Hlt].
  eexists. split; [apply (@StoreFacts.store_writes_slots c n _ frame _ _ Re Rv Hk Le Lv)|].
  cbn [c_expressions c_visemes set_c_visemes set_c_expressions].
  split; now apply (@StoreFacts.write_slots_written n).
Qed.

Lemma frame_before_start_wraps_witness :
  exists c',
    store_shape_key_cache_keyframes (Some four_frames) 9 [1 # 2] [1 # 4]
      = Stored (Some c') /\
    samples_written (Z.to_nat ((9 + Z.of_nat 4 - c_start four_frames) * 2)) (inject_Z 9)
                    [1 # 2] (c_expressions four_frames) (c_expressions c') /\
    samples_written (Z.to_nat ((9 + Z.of_nat 4 - c_start four_frames) * 2)) (inject_Z 9)
                    [1 # 4] (c_visemes four_frames) (c_visemes c').
Proof.
  apply (@frame_before_start_wraps four_frames 4 9 [1 # 2] [1 # 4]).
  - apply (StoreFacts.weight_caches_roomy 4 ["Smile"%string]).
  - apply (StoreFacts.weight_caches_roomy 4 ["Open"%string]).
  - simpl. lia.
  - simpl. lia.
  - simpl. lia.
Defined.

(** A frame past the end of the range, or more than the length of the
    range before its start, is not stored: when the cache has an
    expression or a viseme, the first assignment into a curve raises
    IndexError, and the cache is left as it was. *)
Theorem frame_out_of_range_raises (c : actor_cache) (n : nat) (frame : Z)
        (expression_weights viseme_weights : list Q) :
  roomy n (c_expressions c) ->
  roomy n (c_visemes c) ->
  (c_start c + Z.of_nat n <= frame)%Z \/ (frame < c_start c - Z.of_nat n)%Z ->
  c_expressions c <> [] \/ c_visemes c <> [] ->
  store_shape_key_cache_keyframes (Some c) frame expression_weights viseme_weights
  = StoreRaises IndexError (Some c).
Proof.
  intros Re Rv Hf Hne.
  assert (Hout : forall curve : list Q,
             List.length curve = (2 * n)%nat ->
             py_index (List.length curve) ((frame - c_start c) * 2) = None).
  { intros curve Hl. apply StoreFacts.py_index_out_of_range. lia. }
  unfold store_shape_key_cache_keyframes.
  destruct (c_expressions c) as [|[name entry] rest] eqn:Ee.
  - cbn [store_keys]. cbn [c_visemes set_c_expressions].
    destruct (c_visemes c) as [|[name entry] rest] eqn:Ev;
      [destruct Hne; congruence|].
    inversion Rv as [|? ? (curve & others & Hc & Hl) _]; subst. cbn [snd] in Hc.
    cbn [store_keys].
    rewrite (@StoreFacts.store_key_out_of_range entry curve others _ _ _ _ Hc (Hout _ Hl)).
    do 2 f_equal. rewrite <- Ev, <- Ee.
    destruct c; reflexivity.
  - inversion Re as [|? ? (curve & others & Hc & Hl) _]; subst. cbn [snd] in Hc.
    cbn [store_keys].
    rewrite (@StoreFacts.store_key_out_of_range entry curve others _ _ _ _ Hc (Hout _ Hl)).
    do 2 f_equal. rewrite <- Ee. apply set_same_expressions.
Qed.

Lemma frame_out_of_range_raises_witness :
  store_shape_key_cache_keyframes (Some four_frames) 14 [1 # 2] [1 # 4]
  = StoreRaises IndexError (Some four_frames).
Proof.
  apply (@frame_out_of_range_raises four_frames 4 14 [1 # 2] [1 # 4]).
  - apply (StoreFacts.weight_caches_roomy 4 ["Smile"%string]).
  - apply (StoreFacts.weight_caches_roomy 4 ["Open"%string]).
  - left. simpl. lia.
  - left. discriminate.
Defined.

(** Frames can come in any order and more than once: storing a frame
    again replaces its sample.  In a cache with room for [n] frames, for
    a frame whose index denotes a position, a store followed by a second
    store of the same frame leaves the cache as the second store alone
    would. *)
Theorem last_store_of_a_frame_wins (c : actor_cache) (n : nat) (frame : Z)
        (ew vw ew' vw' : list Q) :
  roomy n (c_expressions c) ->
  roomy n (c_visemes c) ->
  (c_start c - Z.of_nat n <= frame < c_start c + Z.of_nat n)%Z ->
  (List.length (c_expressions c) <= List.length ew)%nat ->
  (List.length (c_visemes c) <= List.length vw)%nat ->
  (List.length (c_expressions c) <= List.length ew')%nat ->
  (List.length (c_visemes c) <= List.length vw')%nat ->
  exists c1 c2,
    store_shape_key_cache_keyframes (Some c) frame ew vw = Stored (Some c1) /\
    store_shape_key_cache_keyframes (Some c1) frame ew' vw' = Stored (Some c2) /\
    store_shape_key_cache_keyframes (Some c) frame ew' vw' = Stored (Some c2).
Proof.
  intros Re Rv Hf Le Lv Le' Lv'.
  pose proof (@py_index_some (2 * n) ((frame - c_start c) * 2) ltac:(lia)) as Hk.
  set (k := Z.to_nat _) in Hk.
  destruct (@StoreFacts.py_index_next n k _ Hk) as [_ Hlt].
  pose proof (@StoreFacts.store_writes_slots c n k frame ew vw Re Rv Hk Le Lv) as S1.
  pose proof (@StoreFacts.store_writes_slots c n k frame ew' vw' Re Rv Hk Le' Lv') as S2.
  eexists _, _. split; [exact S1|]. split; [|exact S2].
  pose proof (@StoreFacts.write_slots_written n k (inject_Z frame) Hlt _ ew Re Le) as [L1 _].
  pose proof (@StoreFacts.write_slots_written n k (inject_Z frame) Hlt _ vw Rv Lv) as [L2 _].
  rewrite (@StoreFacts.store_writes_slots _ n k frame ew' vw');
    cbn [c_expressions c_visemes set_c_visemes set_c_expressions c_start];
    try (now apply (@StoreFacts.write_slots_roomy n));
    try exact Hk; try lia.
  rewrite (@StoreFacts.write_slots_twice n k _ _ Hlt _ ew ew' Re Le Le').
  rewrite (@StoreFacts.write_slots_twice n k _ _ Hlt _ vw vw' Rv Lv Lv').
  reflexivity.
Qed.

Lemma last_store_of_a_frame_wins_witness :
  exists c1 c2,
    store_shape_key_cache_keyframes (Some four_frames) 12 [1 # 2] [1 # 4]
      = Stored (Some c1) /\
    store_shape_key_cache_keyframes (Some c1) 12 [1] [0] = Stored (Some c2) /\
    store_shape_key_cache_keyframes (Some four_frames) 12 [1] [0] = Stored (Some c2).
Proof.
  apply (@last_store_of_a_frame_wins four_frames 4 12 [1 # 2] [1 # 4] [1] [0]).
  - apply (StoreFacts.weight_caches_roomy 4 ["Smile"%string]).
  - apply (StoreFacts.weight_caches_roomy 4 ["Open"%string]).
  - simpl. lia.
  - simpl. lia.
  - simpl. lia.
  - simpl. lia.
  - simpl. lia.
Defined.



(** ** Shape keys of the mesh objects *)

Lemma viseme_loop_runs (last : string) :
  forall (visemes : list string) (l : pose_locals),
    p_expression_name l = Some last ->
    (List.length visemes <= List.length (p_fields l))%nat ->
    viseme_weights_loop true visemes l
    = Ok (firstn (List.length visemes) (p_fields l))
         (mkPoseLocals (skipn (List.length visemes) (p_fields l))
                       (visemes_set_under last
                          (firstn (List.length visemes) (p_fields l)) (p_objects l))
                       (Some last)).
Proof.
  intros visemes.
  induction visemes as [|v visemes IH]; intros [fields objects name] Hn Hl;
    cbn [p_expression_name p_fields p_objects] in *; subst name.
  - reflexivity.
  - destruct fields as [|w fields]; [cbn in Hl; lia|]. cbn [List.length] in Hl.
    cbn [viseme_weights_loop]. unfold bind at 1. unfold read_weight at 1.
    unfold bind at 1. unfold get at 1. cbn [p_fields].
    unfold bind at 1. unfold modify at 1. unfold ret at 1.
    unfold bind at 1. unfold when. unfold bind at 1. unfold get at 1.
    cbn [p_expression_name set_p_fields p_objects p_fields]. unfold modify at 1.
    unfold bind at 1. rewrite IH by (cbn; auto; lia).
    reflexivity.
Qed.

Lemma unmapped_name_sets_nothing (key_name : string) (objects : list key_blocks)
      (weight : Q) :
  dict_get VISEME_NAME_MAP key_name = None ->
  set_actor_viseme_weight objects key_name weight = objects.
Proof.
  intros Hm. unfold set_actor_viseme_weight. rewrite Hm.
  induction objects as [|b bs IH]; [reflexivity|].
  cbn [map]. rewrite IH. now destruct b.
Qed.

(** The weight of every viseme is set under the name of the last
    expression.  With a rig, an expression bound and a weight for every
    viseme in the data, the viseme loop returns the weights it has read,
    and the shape keys of the mesh objects are those that come from
    setting each weight on the key that [VISEME_NAME_MAP] gives for the
    last expression name; the names of the visemes play no part, and when
    the last expression name is not a viseme of the map the shape keys
    are left as they were. *)
Theorem viseme_weights_go_to_the_last_expression (last : string)
        (visemes : list string) (l : pose_locals) :
  p_expression_name l = Some last ->
  (List.length visemes <= List.length (p_fields l))%nat ->
  exists l',
    viseme_weights_loop true visemes l
      = Ok (firstn (List.length visemes) (p_fields l)) l' /\
    p_objects l'
      = visemes_set_under last (firstn (List.length visemes) (p_fields l)) (p_objects l) /\
    p_fields l' = skipn (List.length visemes) (p_fields l) /\
    (forall others, List.length others = List.length visemes ->
                    viseme_weights_loop true others l = viseme_weights_loop true visemes l) /\
    (dict_get VISEME_NAME_MAP last = None -> p_objects l' = p_objects l).
Proof.
  intros Hn Hl. eexists. split; [apply (@viseme_loop_runs last); assumption|].
  cbn [p_objects p_fields]. repeat split.
  - intros others Ho. rewrite (@viseme_loop_runs last others), Ho by (auto; lia).
    symmetry. apply (@viseme_loop_runs last); assumption.
  - intros Hm. unfold visemes_set_under.
    generalize (firstn (List.length visemes) (p_fields l)).
    intros ws. induction ws as [|w ws IH]; [reflexivity|].
    cbn [fold_left]. rewrite (@unmapped_name_sets_nothing last (p_objects l) w Hm). exact IH.
Qed.

Lemma viseme_weights_go_to_the_last_expression_witness :
  exists l',
    viseme_weights_loop true ["Open"%string] (mkPoseLocals [1 # 2] [face] (Some "Smile"%string))
      = Ok (firstn (List.length ["Open"%string])
                   (p_fields (mkPoseLocals [1 # 2] [face] (Some "Smile"%string)))) l' /\
    p_objects l'
      = visemes_set_under "Smile"
          (firstn (List.length ["Open"%string])
                  (p_fields (mkPoseLocals [1 # 2] [face] (Some "Smile"%string))))
          (p_objects (mkPoseLocals [1 # 2] [face] (Some "Smile"%string))) /\
    p_fields l'
      = skipn (List.length ["Open"%string])
              (p_fields (mkPoseLocals [1 # 2] [face] (Some "Smile"%string))) /\
    (forall others, List.length others = List.length ["Open"%string] ->
                    viseme_weights_loop true others
                                        (mkPoseLocals [1 # 2] [face] (Some "Smile"%string))
                    = viseme_weights_loop true ["Open"%string]
                                          (mkPoseLocals [1 # 2] [face] (Some "Smile"%string))) /\
    (dict_get VISEME_NAME_MAP "Smile" = None ->
     p_objects l' = p_objects (mkPoseLocals [1 # 2] [face] (Some "Smile"%string))).
Proof.
  apply (@viseme_weights_go_to_the_last_expression "Smile" ["Open"%string]
           (mkPoseLocals [1 # 2] [face] (Some "Smile"%string))).
  - reflexivity.
  - simpl. lia.
Defined.

Lemma expression_loop_runs (rig : bool) :
  forall (expressions : list string) (l : pose_locals),
    (List.length expressions <= List.length (p_fields l))%nat ->
    exists objects,
      expression_weights_loop rig expressions l
      = Ok (firstn (List.length expressions) (p_fields l))
           (mkPoseLocals (skipn (List.length expressions) (p_fields l)) objects
                         (fold_left (fun _ e => Some e) expressions (p_expression_name l))).
Proof.
  intros expressions.
  induction expressions as [|e expressions IH]; intros [fields objects name] Hl;
    cbn [p_expression_name p_fields p_objects] in *.
  - exists objects. reflexivity.
  - destruct fields as [|w fields]; [cbn in Hl; lia|]. cbn [List.length] in Hl.
    cbn [expression_weights_loop fold_left].
    unfold bind at 1. unfold modify at 1.
    unfold bind at 1. unfold read_weight at 1.
    unfold bind at 1. unfold get at 1. cbn [p_fields set_p_expression_name].
    unfold bind at 1. unfold modify at 1. unfold ret at 1.
    cbn [set_p_fields p_objects p_expression_name].
    unfold bind at 1.
    destruct rig; cbn [when]; [unfold modify at 1 | unfold ret at 1];
      cbn [set_p_objects p_fields p_objects p_expression_name];
      unfold bind at 1;
      match goal with
      | |- context [expression_weights_loop _ expressions ?st] =>
          destruct (IH st) as [objects' E]; [cbn; lia|]
      end;
      rewrite E; exists objects'; reflexivity.
Qed.

Lemma expressions_bind_the_name (expressions : list string) (name : option string) :
  expressions <> [] ->
  exists last, fold_left (fun _ e => Some e) expressions name = Some last.
Proof.
  revert name. induction expressions as [|e expressions IH]; intros name H; [congruence|].
  cbn [fold_left]. destruct expressions as [|e' expressions].
  - exists e. reflexivity.
  - apply IH. discriminate.
Qed.

(** The viseme loop needs an expression.  For an actor with a rig, when
    no expression has been read before in the call and the data holds a
    weight for every expression and viseme, the two loops return the
    weights in the order of the data, unless the actor has visemes and no
    expressions: then they end by UnboundLocalError at the first viseme,
    because the name [expression_name] that the viseme loop passes on is
    bound by the expression loop only; no shape key has been set. *)
Theorem visemes_need_an_expression (expressions visemes : list string) (l : pose_locals) :
  p_expression_name l = None ->
  (List.length expressions + List.length visemes <= List.length (p_fields l))%nat ->
  match decode_weights true expressions visemes l with
  | Ok (expression_weights, viseme_weights) l' =>
      (expressions <> [] \/ visemes = []) /\
      expression_weights = firstn (List.length expressions) (p_fields l) /\
      viseme_weights
      = firstn (List.length visemes) (skipn (List.length expressions) (p_fields l))
  | Raise e l' =>
      e = UnboundLocalError /\ expressions = [] /\ visemes <> [] /\
      p_objects l' = p_objects l
  | Diverge => False
  end.
Proof.
  intros Hn Hl. unfold decode_weights.
  destruct (@expression_loop_runs true expressions l ltac:(lia)) as [objects E].
  unfold bind at 1. rewrite E.
  destruct expressions as [|e expressions].
  - cbn [fold_left List.length skipn firstn] in *. rewrite Hn.
    destruct l as [fields objects0 name]. cbn [p_fields p_objects] in *.
    assert (objects = objects0)
      by (cbn [expression_weights_loop] in E; unfold ret in E; cbn in E; congruence).
    subst objects.
    destruct visemes as [|v visemes].
    + cbn. repeat split. now right.
    + destruct fields as [|w fields]; [cbn in Hl; lia|].
      cbn. repeat split. discriminate.
  - destruct (@expressions_bind_the_name (e :: expressions) (p_expression_name l))
      as [last B]; [discriminate|].
    rewrite B. unfold bind at 1.
    rewrite (@viseme_loop_runs last)
      by (cbn [p_expression_name p_fields];
          first [reflexivity | rewrite length_skipn; cbn [List.length] in *; lia]).
    cbn [p_fields]. unfold ret. repeat split. left. discriminate.
Qed.

Lemma visemes_need_an_expression_witness :
  match decode_weights true [] ["Open"%string] (mkPoseLocals [1 # 2] [face] None) with
  | Ok (expression_weights, viseme_weights) l' =>
      (@nil string <> [] \/ ["Open"%string] = []) /\
      expression_weights
      = firstn (List.length (@nil string)) (p_fields (mkPoseLocals [1 # 2] [face] None)) /\
      viseme_weights
      = firstn (List.length ["Open"%string])
               (skipn (List.length (@nil string))
                      (p_fields (mkPoseLocals [1 # 2] [face] None)))
  | Raise e l' =>
      e = UnboundLocalError /\ @nil string = [] /\ ["Open"%string] <> [] /\
      p_objects l' = p_objects (mkPoseLocals [1 # 2] [face] None)
  | Diverge => False
  end.
Proof.
  apply (@visemes_need_an_expression [] ["Open"%string] (mkPoseLocals [1 # 2] [face] None)).
  - reflexivity.
  - simpl. lia.
Defined.

(** ** A payload that stops short *)

Lemma read_failed_loses_service {A} (text : string) (stale : A) (w : World) :
  exists s',
    read_failed text stale w = Ok stale (set_service s' w) /\
    peer_condition s' = peer_condition (service w) /\
    has_client_sock s' = false /\
    In (Emit LostConnection) (trace (app s')).
Proof.
  destruct w as [s pending waiting d].
  service_fields s;
    (eexists; split; [vm_compute; reflexivity | repeat split; simpl; auto 12]).
Qed.

Lemma sock_recv_starved (n : N) (w : World) :
  starved w -> exists e, sock_recv n w = Raise e w.
Proof.
  intros [Hrx Hc]. unfold sock_recv, bind, get.
  destruct (client_sock (service w)); [|eexists; reflexivity].
  rewrite Hrx. destruct (peer_condition (service w)); try congruence;
    eexists; reflexivity.
Qed.

(** Once nothing can be read, every pass of the payload loop fails,
    gives the service up as lost and takes the chunk of the pass before
    once more, until the size is used up. *)
Lemma chunks_when_starved (c : list byte) :
  c <> [] ->
  forall (fuel : nat) (size : N) (data : list byte) (w : World),
    starved w ->
    (N.to_nat size < fuel)%nat ->
    exists m w',
      recv_chunks fuel size data (Some c) w
        = Ok (data ++ List.concat (repeat c m), Some c) w' /\
      starved w' /\
      rx w' = rx w /\ backlog w' = backlog w /\ is_data w' = is_data w /\
      ((size = 0%N /\ m = 0%nat /\ w' = w) \/
       ((0 < size)%N /\
        exists m', m = S m' /\
                   (N.of_nat (m' * List.length c) < size)%N /\
                   (size <= N.of_nat (S m' * List.length c))%N /\
                   has_client_sock (service w') = false /\
                   In (Emit LostConnection) (trace (app (service w'))))).
Proof.
  intros Hc. induction fuel as [|fuel IH]; intros size data w Hw Hfuel; [lia|].
  destruct (N.ltb_spec 0 size) as [Hpos|Hzero].
  - assert (E0 : (0 <? size)%N = true) by (apply N.ltb_lt; exact Hpos).
    cbn [recv_chunks]. rewrite E0.
    destruct (@sock_recv_starved (N.min size MAX_CHUNK_SIZE) w Hw) as [e Er].
    destruct (@read_failed_loses_service (option (list byte))
                "Client socket receive:chunk_recv failed!" (Some c) w)
      as (s1 & Ef & P1 & P2 & P3).
    unfold bind at 1. unfold try_except. unfold bind at 1. rewrite Er.
    unfold read_failed in Ef. rewrite Ef.
    assert (Hw1 : starved (set_service s1 w)).
    { destruct Hw as [H1 H2]. split; [exact H1|]. cbn. congruence. }
    assert (Lc : (0 < List.length c)%nat) by (destruct c; [congruence | simpl; lia]).
    destruct (IH (size - N.of_nat (List.length c))%N (data ++ c) (set_service s1 w) Hw1
                 ltac:(lia))
      as (m & w' & E & Sw & R1 & R2 & R3 & Hcase).
    exists (S m), w'. rewrite E. cbn [repeat List.concat]. rewrite <- app_assoc.
    split; [reflexivity|]. split; [exact Sw|].
    split; [exact R1|]. split; [exact R2|]. split; [exact R3|].
    right. split; [exact Hpos|]. exists m. split; [reflexivity|].
    destruct Hcase as [(Z1 & Z2 & Z3) | (Z1 & m' & Z2 & Z3 & Z4 & Z5 & Z6)].
    + subst m w'. cbn [Nat.mul]. cbn [service set_service].
      repeat split; try assumption; lia.
    + subst m. cbn [Nat.mul] in *.
      repeat split; try assumption; lia.
  - assert (size = 0%N) by lia. subst size.
    exists 0%nat, w. cbn [recv_chunks repeat List.concat]. rewrite app_nil_r.
    change (0 <? 0)%N with false. cbn iota.
    split; [reflexivity|]. split; [exact Hw|]. repeat split. left. repeat split.
Qed.

(** A payload that stops short is made up from what did come.  When
    the header announces more bytes than arrive, and the bytes that did
    arrive fit one chunk, the payload loop reads them, fails at the next
    read, gives the service up as lost, and then goes on: every further
    pass fails too and appends the chunk read before once more.  It ends
    with a payload of copies of that chunk, as many as it takes to reach
    the announced size, which [recv] then hands to [parse]. *)
Theorem short_payload_is_padded (fuel : nat) (size : N) (part : list byte)
        (chunk : option (list byte)) (s : Service) (peer : socket) waiting (d : bool) :
  client_sock s = Some peer ->
  peer_condition s = Alive ->
  part <> [] ->
  (N.of_nat (List.length part) < size)%N ->
  (N.of_nat (List.length part) <= MAX_CHUNK_SIZE)%N ->
  (N.to_nat size < fuel)%nat ->
  exists copies s',
    recv_chunks fuel size [] chunk (mkWorld s part waiting d)
      = Ok (List.concat (repeat part (S (S copies))), Some part) (mkWorld s' [] waiting d) /\
    (N.of_nat (S copies * List.length part) < size)%N /\
    (size <= N.of_nat (S (S copies) * List.length part))%N /\
    has_client_sock s' = false /\
    In (Emit LostConnection) (trace (app s')).
Proof.
  intros Hs Ha Hp Hshort Hfit Hfuel.
  destruct fuel as [|fuel]; [lia|].
  destruct part as [|b part]; [congruence|].
  assert (E0 : (0 <? size)%N = true) by (apply N.ltb_lt; lia).
  cbn [recv_chunks]. rewrite E0.
  unfold bind at 1. unfold try_except. unfold bind at 1.
  rewrite (@sock_recv_available (N.min size MAX_CHUNK_SIZE) s b part waiting d peer Hs Ha).
  rewrite firstn_all2 by lia. rewrite skipn_all2 by lia.
  unfold ret at 1. cbn iota beta.
  assert (Hw : starved (mkWorld s [] waiting d)).
  { split; [reflexivity|]. cbn. rewrite Ha. discriminate. }
  destruct (@chunks_when_starved (b :: part) Hp fuel
              (size - N.of_nat (List.length (b :: part)))%N ([] ++ b :: part)
              (mkWorld s [] waiting d) Hw ltac:(cbn [List.length] in *; lia))
    as (m & w' & E & _ & R1 & R2 & R3 & Hcase).
  destruct Hcase as [(Z1 & _) | (Z1 & m' & Z2 & Z3 & Z4 & Z5 & Z6)]; [lia|].
  subst m. exists m', (service w'). rewrite E.
  destruct w' as [s' rx' waiting' d']. cbn in R1, R2, R3. subst.
  cbn [service]. split; [reflexivity|].
  cbn [Nat.mul] in *. repeat split; try assumption; lia.
Qed.

Lemma short_payload_is_padded_witness :
  exists copies s',
    recv_chunks 8 5 [] None (mkWorld Studio.connected [x01; x02] [] false)
      = Ok (List.concat (repeat [x01; x02] (S (S copies))), Some [x01; x02])
           (mkWorld s' [] [] false) /\
    (N.of_nat (S copies * List.length [x01; x02]) < 5)%N /\
    (5 <= N.of_nat (S (S copies) * List.length [x01; x02]))%N /\
    has_client_sock s' = false /\
    In (Emit LostConnection) (trace (app s')).
Proof.
  apply (@short_payload_is_padded 8 5 [x01; x02] None Studio.connected PeerSocket [] false).
  - reflexivity.
  - reflexivity.
  - discriminate.
  - reflexivity.
  - vm_compute. discriminate.
  - simpl. lia.
Defined.

(** ** The end of a tick *)

Section TickFacts.

Variable adapter : Adapter.

Lemma loop_is_recv_then_finish (fuel : nat) (now : Q) (s : Service) (pending : list byte)
      waiting (d : bool) :
  timer s = true ->
  globals_lost s = false ->
  server_sock s = None ->
  loop adapter fuel now (mkWorld s pending waiting d)
  = bind (recv adapter fuel) (fun _ => finish_tick adapter)
         (mkWorld (ticked now s) pending waiting d).
Proof.
  intros Ht Hg Hs.
  destruct s as [tm ss cs sss css ip port il ic ig pt kt t
                 ra rv rp re gl sb pc pf a].
  simpl in Ht, Hg, Hs. subst.
  unfold loop, ticked, finish_tick.
  destruct ic; [|destruct il]; reflexivity.
Qed.

(** The delay a tick asks for.  After a run of messages has been
    received and dispatched on a healthy connection, with no callback
    connected to the [sequence] signal, [loop] returns 0, to be called
    again at once, when bytes are still waiting on the socket or a
    sequence is being received, and [TIMER_INTERVAL] otherwise; the state
    it leaves is the one the dispatch of those messages gives from the
    service with its clock and countdowns moved on. *)
Theorem tick_asks_for_its_next_call (fuel : nat) (now : Q) (batch : list message)
        (last : message) (rest : list byte) (s s' : Service) waiting (d : bool) :
  Forall well_formed (batch ++ [last]) ->
  (List.length (frames (batch ++ [last])) < fuel)%nat ->
  timer s = true ->
  globals_lost s = false ->
  server_sock s = None ->
  has_client_sock s = true ->
  client_sockets s <> [] ->
  peer_condition s = Alive ->
  Forall passes batch ->
  closes_connection last = false ->
  (List.length batch < MAX_RECEIVE)%nat ->
  (List.length batch + 1 = MAX_RECEIVE)%nat \/ is_notify last = true \/ rest = [] ->
  dispatch_all adapter (batch ++ [last]) (ticked now s) = Ok tt s' ->
  sequence_callbacks (app s') = [] ->
  loop adapter fuel now (mkWorld s (frames (batch ++ [last]) ++ rest) waiting d)
  = Ok (Some (if more_data rest || is_sequence (app s') then 0 else TIMER_INTERVAL))
       (mkWorld s' rest waiting (more_data rest)).
Proof.
  intros Hwf Hfuel Ht Hg Hs H Hl Ha Hpass Hlast Hlen Hend Hd Hcb.
  rewrite loop_is_recv_then_finish by assumption.
  destruct (ticked_same_connection now s) as (T1 & T2 & T3 & T4).
  assert (R : recv adapter fuel
                   (mkWorld (ticked now s) (frames (batch ++ [last]) ++ rest) waiting d)
              = Ok tt (mkWorld s' rest waiting (more_data rest))).
  { destruct (batch_nonempty batch last rest) as (b & tail & T). rewrite T.
    rewrite recv_enters_loop by congruence. rewrite <- T.
    apply recv_loop_batch; try assumption; try reflexivity; congruence. }
  unfold bind at 1. rewrite R.
  unfold finish_tick, bind, get, lift. cbn [service]. rewrite Hcb.
  cbn [List.length emit_sequence]. unfold ret. cbn [is_data service set_service].
  destruct s'; reflexivity.
Qed.

End TickFacts.

Lemma tick_asks_for_its_next_call_witness :
  exists s',
    loop Studio.adapter 100 1
         (mkWorld Studio.connected
                  (frames ([Studio.ping] ++ [Studio.notify]) ++ frame Studio.ping) [] false)
    = Ok (Some (if more_data (frame Studio.ping) || is_sequence (app s')
                then 0 else TIMER_INTERVAL))
         (mkWorld s' (frame Studio.ping) [] (more_data (frame Studio.ping))).
Proof.
  eexists.
  apply (@tick_asks_for_its_next_call Studio.adapter 100 1 [Studio.ping] Studio.notify
           (frame Studio.ping) Studio.connected _ [] false).
  - repeat first [apply Forall_nil | apply Forall_cons; [split; reflexivity|]].
  - apply Nat.ltb_lt. vm_compute. reflexivity.
  - reflexivity.
  - reflexivity.
  - reflexivity.
  - reflexivity.
  - discriminate.
  - reflexivity.
  - repeat first [apply Forall_nil | apply Forall_cons; [split; reflexivity|]].
  - reflexivity.
  - apply Nat.ltb_lt. vm_compute. reflexivity.
  - right. left. reflexivity.
  - vm_compute. reflexivity.
  - reflexivity.
Defined.

(** ** Starting the service *)

Section StartFacts.

Variable adapter : Adapter.

(** A refused connection leaves the timer running.  When the service
    does not listen and has no peer socket, and the server cannot be
    reached, [service_start] returns normally: the clock is set, the
    timer is started, the failure is logged, and there is no peer socket
    and no server socket; the service does not fall back to listening,
    since it is client only. *)
Theorem refused_start_leaves_timer_running (to_host : string) (to_port : N) (now : Q)
        (w : World) :
  is_listening (service w) = false ->
  client_sock (service w) = None ->
  exists s',
    service_start adapter to_host to_port now None w = Ok tt (set_service s' w) /\
    timer s' = true /\
    time s' = now /\
    client_sock s' = None /\
    has_client_sock s' = false /\
    server_sock s' = server_sock (service w) /\
    is_listening s' = false /\
    sent_bytes s' = sent_bytes (service w) /\
    trace (app s')
    = LogInfo "Client socket connect failed!" :: LogInfo "Attempting to connect"
        :: (if timer (service w) then [] else [LogInfo "Service timer started"])
        ++ trace (app (service w)).
Proof.
  intros H1 H2. destruct w as [s pending waiting d]. cbn [service] in *.
  service_fields s; simpl in H1, H2; try discriminate; subst;
    (eexists; split; [vm_compute; reflexivity | repeat split]).
Qed.

Lemma send_on_healthy (s : Service) (op_code : N) (body : list byte) :
  has_client_sock s = true ->
  peer_condition s = Alive ->
  well_formed (op_code, body) ->
  send op_code (Some body) s = Ok tt (after_send (op_code, body) s).
Proof.
  intros H Ha Hwf. rewrite send_unfolded, H. cbn [body_of].
  pose proof (pack_header_well_formed Hwf) as P. cbn [fst snd] in P.
  rewrite P, Ha. reflexivity.
Qed.

(** Starting the service when the server answers.  When the service
    does not listen and has no peer socket, and the server accepts the
    connection, [service_start] sets the clock, starts the timer, takes
    the connection as its peer, connecting and not yet connected, with
    the keepalive and ping countdowns started, and writes one HELLO frame
    to it, before it announces [connecting] and [changed]. *)
Theorem start_connects_and_says_hello (to_host : string) (to_port : N) (now : Q)
        (pending : list byte) (w : World) :
  is_listening (service w) = false ->
  client_sock (service w) = None ->
  (forall t, well_formed (OpCodes.HELLO, encode_hello adapter t)) ->
  exists t s',
    service_start adapter to_host to_port now (Some (pending, Alive)) w
      = Ok tt (mkWorld s' pending (backlog w) (is_data w)) /\
    timer s' = true /\
    time s' = now /\
    client_sock s' = Some PeerSocket /\
    client_sockets s' = [PeerSocket] /\
    client_ip s' = to_host /\
    client_port s' = to_port /\
    is_connecting s' = true /\
    is_connected s' = false /\
    keepalive_timer s' = KEEPALIVE_TIMEOUT_S /\
    ping_timer s' = PING_INTERVAL_S /\
    peer_condition s' = Alive /\
    sent_bytes s'
    = sent_bytes (service w) ++ frame (OpCodes.HELLO, encode_hello adapter t) /\
    exists earlier,
      trace (app s') = Emit Changed :: Emit Connecting :: Emit Sent :: earlier.
Proof.
  intros H1 H2 Hwf. destruct w as [s rx0 waiting d]. cbn [service backlog is_data] in *.
  service_fields s; simpl in H1, H2; try discriminate; subst;
    (eexists; eexists; split;
     [ cbv beta iota zeta delta -[send encode_hello frame];
       rewrite send_on_healthy by (first [reflexivity | apply Hwf]);
       cbv beta iota zeta delta -[encode_hello frame]; reflexivity
     | cbv beta iota zeta delta -[encode_hello frame]; repeat split;
       eexists; reflexivity ]).
Qed.

End StartFacts.

Lemma refused_start_leaves_timer_running_witness :
  exists s',
    service_start Studio.adapter "127.0.0.1" 9333 5 None (mkWorld Studio.idle [] [] false)
      = Ok tt (set_service s' (mkWorld Studio.idle [] [] false)) /\
    timer s' = true /\
    time s' = 5 /\
    client_sock s' = None /\
    has_client_sock s' = false /\
    server_sock s' = server_sock (service (mkWorld Studio.idle [] [] false)) /\
    is_listening s' = false /\
    sent_bytes s' = sent_bytes (service (mkWorld Studio.idle [] [] false)) /\
    trace (app s')
    = LogInfo "Client socket connect failed!" :: LogInfo "Attempting to connect"
        :: (if timer (service (mkWorld Studio.idle [] [] false))
            then [] else [LogInfo "Service timer started"])
        ++ trace (app (service (mkWorld Studio.idle [] [] false))).
Proof.
  apply (@refused_start_leaves_timer_running Studio.adapter "127.0.0.1" 9333 5
           (mkWorld Studio.idle [] [] false)); reflexivity.
Defined.

Lemma start_connects_and_says_hello_witness :
  exists t s',
    service_start Studio.adapter "127.0.0.1" 9333 5 (Some (frame Studio.ping, Alive))
                  (mkWorld Studio.idle [] [] false)
      = Ok tt (mkWorld s' (frame Studio.ping) (backlog (mkWorld Studio.idle [] [] false))
                       (is_data (mkWorld Studio.idle [] [] false))) /\
    timer s' = true /\
    time s' = 5 /\
    client_sock s' = Some PeerSocket /\
    client_sockets s' = [PeerSocket] /\
    client_ip s' = "127.0.0.1"%string /\
    client_port s' = 9333%N /\
    is_connecting s' = true /\
    is_connected s' = false /\
    keepalive_timer s' = KEEPALIVE_TIMEOUT_S /\
    ping_timer s' = PING_INTERVAL_S /\
    peer_condition s' = Alive /\
    sent_bytes s'
    = sent_bytes (service (mkWorld Studio.idle [] [] false))
        ++ frame (OpCodes.HELLO, encode_hello Studio.adapter t) /\
    exists earlier,
      trace (app s') = Emit Changed :: Emit Connecting :: Emit Sent :: earlier.
Proof.
  apply (@start_connects_and_says_hello Studio.adapter "127.0.0.1" 9333 5
           (frame Studio.ping) (mkWorld Studio.idle [] [] false)).
  - reflexivity.
  - reflexivity.
  - intros t. split; reflexivity.
Defined.

(** ** Templates and pose records *)

